(** * QTShortcut: building and writing a QuickTime shortcut movie file

  A shallow embedding of [QTShortcut.c]: the two functions
  [QTShortCut_CreateShortcutMovieFile] and [QTShortCut_WriteHandleToFile]
  are written as state-passing programs over a model of the Toolbox
  routines they call (Memory Manager, File Manager, Gestalt, QuickTime).

  The C types are the 32-bit ones the source relies on: [long] and
  [OSType] are 4 bytes (the atom header is [2 * sizeof(long)] = 8 bytes),
  [short] and [OSErr] are 2 bytes. *)

From Stdlib Require Import ZArith List Lia Bool.
From Stdlib.Strings Require Import Byte.
From stdpp Require Import gmap strings list fin_maps.
Import ListNotations.
Local Open Scope Z_scope.

(** ** Machine integers *)

Module C32.

(** [unsigned long]: arithmetic modulo 2^32. *)
Definition wrap32 (z : Z) : Z := z mod 2 ^ 32.

(** [long]: the two's complement reading of the low 32 bits. *)
Definition to_long (z : Z) : Z := (z + 2 ^ 31) mod 2 ^ 32 - 2 ^ 31.

(** The largest value of the Memory Manager's [Size] (a [long]). *)
Definition maxSize : Z := 2 ^ 31 - 1.

Definition sizeof_long : Z := 4.
Definition sizeof_OSType : Z := 4.

End C32.
Export C32.

(** ** Bytes and byte order *)

Module Endian.

Definition byte_of_Z (z : Z) : byte :=
  match Byte.of_N (Z.to_N (z mod 256)) with
  | Some b => b
  | None => x00
  end.

Definition Z_of_byte (b : byte) : Z := Z.of_N (Byte.to_N b).

(** The four bytes of a 32-bit value, most significant first. *)
Definition be32 (x : Z) : list byte :=
  [ byte_of_Z (Z.shiftr x 24); byte_of_Z (Z.shiftr x 16);
    byte_of_Z (Z.shiftr x 8); byte_of_Z x ].

(** The same value, least significant byte first. *)
Definition le32 (x : Z) : list byte :=
  [ byte_of_Z x; byte_of_Z (Z.shiftr x 8);
    byte_of_Z (Z.shiftr x 16); byte_of_Z (Z.shiftr x 24) ].

(** [Endian32_Swap] of Endian.h. *)
Definition Endian32_Swap (x : Z) : Z :=
  Z.lor (Z.lor (Z.land (Z.shiftr x 24) 0x000000ff)
               (Z.land (Z.shiftr x 8) 0x0000ff00))
        (Z.lor (Z.land (Z.shiftl x 8) 0x00ff0000)
               (Z.land (Z.shiftl x 24) 0xff000000)).

(** The same swap with each of the four places where Endian.h's macro
    writes its argument given a value of its own. *)
Definition Endian32_Swap4 (x3 x2 x1 x0 : Z) : Z :=
  Z.lor (Z.lor (Z.land (Z.shiftr x3 24) 0x000000ff)
               (Z.land (Z.shiftr x2 8) 0x0000ff00))
        (Z.lor (Z.land (Z.shiftl x1 8) 0x00ff0000)
               (Z.land (Z.shiftl x0 24) 0xff000000)).

(** [EndianU32_NtoB] of Endian.h: the identity on a big-endian host, a
    byte swap on a little-endian one. *)
Definition EndianU32_NtoB (little_endian : bool) (x : Z) : Z :=
  if little_endian then Endian32_Swap (wrap32 x) else wrap32 x.

(** What a [long] looks like in the host's memory. *)
Definition long_image (little_endian : bool) (x : Z) : list byte :=
  if little_endian then le32 x else be32 x.

(** Reading a big-endian 32-bit field back (the reader's side of the
    format, used to state what a parser of the file recovers). *)
Definition read_be32 (l : list byte) : option Z :=
  match l with
  | b0 :: b1 :: b2 :: b3 :: _ =>
      Some (Z_of_byte b0 * 2 ^ 24 + Z_of_byte b1 * 2 ^ 16
            + Z_of_byte b2 * 2 ^ 8 + Z_of_byte b3)
  | _ => None
  end.

(** Overwrite [length new] bytes of [l] starting at offset [off]. *)
Definition splice (l : list byte) (off : Z) (new : list byte) : list byte :=
  firstn (Z.to_nat off) l ++ new
    ++ skipn (Z.to_nat off + length new) l.

End Endian.
Export Endian.

(** ** The Toolbox

  Types, constants and result codes of the system interfaces the source
  includes (MacTypes.h, MacErrors.h, Files.h, Gestalt.h, Script.h,
  Movies.h).  *)

Module Toolbox.

(** Result codes and four-character codes are integers; a [Ptr] or a
    [Handle] is the address of a Memory Manager block, and [NULL] is 0. *)
Abbreviation OSErr := Z (only parsing).
Abbreviation OSType := Z (only parsing).
Abbreviation Ptr := Z (only parsing).
Abbreviation Handle := Z (only parsing).
Definition NULL : Z := 0.

(** An [FSSpec]: volume reference number, parent directory ID, name. *)
Abbreviation FSSpec := (Z * Z * string)%type.
Definition vRefNum (spec : FSSpec) : Z := fst (fst spec).

Definition noErr : OSErr := 0.
Definition ioErr : OSErr := -36.
Definition fnOpnErr : OSErr := -38.
Definition eofErr : OSErr := -39.
Definition posErr : OSErr := -40.
Definition fnfErr : OSErr := -43.
Definition fLckdErr : OSErr := -45.
Definition fBsyErr : OSErr := -47.
Definition dupFNErr : OSErr := -48.
Definition opWrErr : OSErr := -49.
Definition paramErr : OSErr := -50.
Definition rfNumErr : OSErr := -51.
Definition memFullErr : OSErr := -108.
Definition nilHandleErr : OSErr := -109.
Definition gestaltUndefSelectorErr : OSErr := -5551.

Definition gestaltQuickTime : OSType := 0x7174696d. (* 'qtim' *)
Definition smSystemScript : Z := -1.
Definition smCurrentScript : Z := -2.
Definition fsRdWrPerm : Z := 3.
Definition fsFromStart : Z := 1.
Definition fsFromLEOF : Z := 2.
Definition fsFromMark : Z := 3.
(** The two flags are [long] constants, [1L << 31] and [1L << 28]: the
    first is the sign bit, a negative number. *)
Definition createMovieFileDeleteCurFile : Z := to_long (Z.shiftl 1 31).
Definition createMovieFileDontCreateResFile : Z := to_long (Z.shiftl 1 28).

(** An address handed to a routine: a local variable (given by its image
    in memory) or an offset into a Memory Manager block. *)
Inductive Addr : Type :=
| AtLocal (image : list byte)
| AtBlock (a : Z) (off : Z).

(** The Toolbox routines the source calls, with the arguments passed. *)
Inductive Call : Type :=
| T_Gestalt (selector : OSType)
| T_CreateShortcutMovieFile (spec : FSSpec) (creator : OSType) (script : Z)
    (flags : Z) (dataRef : Handle) (dataRefType : OSType)
| T_GetHandleSize (h : Handle)
| T_GetPtrSize (p : Ptr)
| T_NewPtrClear (size : Z)
| T_NewHandleClear (size : Z)
| T_BlockMove (src dst : Addr) (count : Z)
| T_PtrAndHand (p : Ptr) (h : Handle) (size : Z)
| T_DisposePtr (p : Ptr)
| T_DisposeHandle (h : Handle)
| T_HLock (h : Handle)
| T_HUnlock (h : Handle)
| T_FSpDelete (spec : FSSpec)
| T_FSpCreate (spec : FSSpec) (creator fileType : OSType) (script : Z)
| T_FSpOpenDF (spec : FSSpec) (permission : Z)
| T_SetFPos (refNum : Z) (posMode : Z) (posOff : Z)
| T_FSWrite (refNum : Z) (count : Z) (buf : Addr)
| T_SetEOF (refNum : Z) (logEOF : Z)
| T_FSClose (refNum : Z)
| T_GetVRefNum (refNum : Z)
| T_FlushVol (vol : Z).

(** The File Manager routines, and those that change a volume. *)
Definition is_file_call (c : Call) : bool :=
  match c with
  | T_FSpDelete _ | T_FSpCreate _ _ _ _ | T_FSpOpenDF _ _ | T_SetFPos _ _ _
  | T_FSWrite _ _ _ | T_SetEOF _ _ | T_FSClose _ | T_GetVRefNum _
  | T_FlushVol _ => true
  | _ => false
  end.

Definition is_delete (c : Call) : bool :=
  match c with T_FSpDelete _ => true | _ => false end.

Definition is_native (c : Call) : bool :=
  match c with T_CreateShortcutMovieFile _ _ _ _ _ _ => true | _ => false end.

(** The routines of the manual path: everything but the version query,
    the native routine and the disposal of blocks. *)
Definition is_manual (c : Call) : bool :=
  match c with
  | T_Gestalt _ | T_CreateShortcutMovieFile _ _ _ _ _ _
  | T_DisposePtr _ | T_DisposeHandle _ => false
  | _ => true
  end.

(** *** The state of the host *)

(** A Memory Manager block: its bytes and its lock attribute. *)
Record Block : Type := { bdata : list byte; blocked : bool }.

(** A file: its data fork, Finder type and creator, and its lock. *)
Record File : Type :=
  { fdata : list byte; fcreator : OSType; ftype : OSType; flocked : bool }.

(** A file control block, found by its reference number: the file, the
    mark, and whether the access path is still open. *)
Record FCB : Type := { fcbSpec : FSSpec; fcbMark : Z; fcbOpen : bool }.

Record World : Type :=
  { heap : gmap Z Block;
    files : gmap FSSpec File;
    fcbs : gmap Z FCB;
    (** QuickTime's version as Gestalt reports it, when QuickTime is there *)
    qtVersion : option Z;
    (** whether GetVRefNum refuses a reference number that was closed *)
    strictRefNum : bool;
    (** what [myData] and [myMoovAtom] are read as where their
        initialisers were jumped over: C leaves the values open, so this
        is any pair, whatever the compiler and the stack make of it *)
    unsetLocals : Z * Z }.

Definition set_heap (w : World) (h : gmap Z Block) : World :=
  {| heap := h; files := files w; fcbs := fcbs w; qtVersion := qtVersion w;
     strictRefNum := strictRefNum w; unsetLocals := unsetLocals w |}.
Definition set_files (w : World) (f : gmap FSSpec File) : World :=
  {| heap := heap w; files := f; fcbs := fcbs w; qtVersion := qtVersion w;
     strictRefNum := strictRefNum w; unsetLocals := unsetLocals w |}.
Definition set_fcbs (w : World) (t : gmap Z FCB) : World :=
  {| heap := heap w; files := files w; fcbs := t; qtVersion := qtVersion w;
     strictRefNum := strictRefNum w; unsetLocals := unsetLocals w |}.

(** One Toolbox call as the program saw it: the call and its result code. *)
Abbreviation Event := (Call * Z)%type (only parsing).

(** The machine a program runs on: the host's state, the failures the
    host injects into calls that can fail (an I/O error, a full disk, no
    memory), and the log of the calls made so far. *)
Record Machine : Type :=
  { world : World;
    inject : Call -> option OSErr;
    log : list Event }.

(** *** Programs *)

Definition M (A : Type) : Type := Machine -> A * Machine.

Definition ret {A} (a : A) : M A := fun m => (a, m).

Definition bind {A B} (c : M A) (k : A -> M B) : M B :=
  fun m => let (a, m') := c m in k a m'.

End Toolbox.
Export Toolbox.

Notation "x <- c1 ;; c2" := (bind c1 (fun x => c2))
  (at level 100, c1 at next level, right associativity).
Notation "'with_out' x , y <- c1 ;; c2" :=
  (bind c1 (fun p => let '(x, y) := p in c2))
  (at level 100, x name, y name, c1 at next level, right associativity).
Notation "c1 ;; c2" := (bind c1 (fun _ => c2))
  (at level 100, right associativity).

(** ** What the Toolbox routines do

    The routines belong to the platform, not to [QTShortcut.c].  Each is a
    function on the state of the host, following the routine's documented
    behaviour; a routine with an output parameter takes the variable's old
    value and returns its new one. *)

Module Host.

(** The failure the host injects into a call, if any: [noErr] is no
    failure. *)
Definition fault (m : Machine) (c : Call) : option OSErr :=
  match inject m c with
  | Some e => if e =? noErr then None else Some e
  | None => None
  end.

(** A routine that can fail: it is refused when the host injects a failure
    (leaving the state as it was) and does its work otherwise; either way
    the call is logged with the result code the program got. *)
Definition trap {A} (c : Call) (code : A -> OSErr) (refuse : OSErr -> A)
    (sem : World -> A * World) : M A :=
  fun m =>
    let (r, w) := match fault m c with
                  | Some e => (refuse e, world m)
                  | None => sem (world m)
                  end in
    (r, {| world := w; inject := inject m; log := log m ++ [(c, code r)] |}).

(** A routine that reports no error. *)
Definition sys {A} (c : Call) (sem : World -> A * World) : M A :=
  fun m =>
    let (r, w) := sem (world m) in
    (r, {| world := w; inject := inject m; log := log m ++ [(c, noErr)] |}).

(** *** Memory Manager *)

(** An address no block lives at, and not [NULL]. *)
Definition fresh_block (w : World) : Z := fresh ({[NULL]} ∪ dom (heap w)).

Definition block_size (w : World) (a : Z) : Z :=
  match heap w !! a with
  | Some b => to_long (Z.of_nat (length (bdata b)))
  | None => 0
  end.

(** The [count] bytes found at an address. *)
Definition read_mem (w : World) (src : Addr) (count : Z) : list byte :=
  match src with
  | AtLocal image => firstn (Z.to_nat count) image
  | AtBlock a off =>
      match heap w !! a with
      | Some b => firstn (Z.to_nat count) (skipn (Z.to_nat off) (bdata b))
      | None => []
      end
  end.

(** Storing bytes at an address inside a block; a store that does not fit
    the block has no meaning in C and changes nothing here. *)
Definition write_mem (w : World) (dst : Addr) (new : list byte) : World :=
  match dst with
  | AtLocal _ => w
  | AtBlock a off =>
      match heap w !! a with
      | Some b =>
          if (0 <=? off) && (off + Z.of_nat (length new) <=? Z.of_nat (length (bdata b)))
          then set_heap w (<[a := {| bdata := splice (bdata b) off new;
                                     blocked := blocked b |}]> (heap w))
          else w
      | None => w
      end
  end.

Definition new_block (size : Z) (w : World) : Z * World :=
  if size <? 0 then (NULL, w)
  else let a := fresh_block w in
       (a, set_heap w (<[a := {| bdata := repeat x00 (Z.to_nat size);
                                 blocked := false |}]> (heap w))).

Definition mem_code (p : Z) : OSErr := if p =? NULL then memFullErr else noErr.

Definition GetHandleSize (h : Handle) : M Z :=
  sys (T_GetHandleSize h) (fun w => (block_size w h, w)).

Definition GetPtrSize (p : Ptr) : M Z :=
  sys (T_GetPtrSize p) (fun w => (block_size w p, w)).

Definition NewPtrClear (size : Z) : M Ptr :=
  trap (T_NewPtrClear size) mem_code (fun _ => NULL) (new_block size).

Definition NewHandleClear (size : Z) : M Handle :=
  trap (T_NewHandleClear size) mem_code (fun _ => NULL) (new_block size).

Definition BlockMove (src dst : Addr) (count : Z) : M unit :=
  sys (T_BlockMove src dst count)
      (fun w => (tt, write_mem w dst (read_mem w src count))).

(** Append [size] bytes of the block at [p] to the block of [h]; a block
    cannot grow beyond the largest [Size]. *)
Definition PtrAndHand (p : Ptr) (h : Handle) (size : Z) : M OSErr :=
  trap (T_PtrAndHand p h size) id id
    (fun w =>
       match heap w !! h with
       | Some b =>
           let data := bdata b ++ read_mem w (AtBlock p 0) size in
           if maxSize <? Z.of_nat (length data) then (memFullErr, w)
           else
             (noErr,
              set_heap w (<[h := {| bdata := data; blocked := blocked b |}]> (heap w)))
       | None => (nilHandleErr, w)
       end).

Definition DisposePtr (p : Ptr) : M unit :=
  sys (T_DisposePtr p) (fun w => (tt, set_heap w (delete p (heap w)))).

Definition DisposeHandle (h : Handle) : M unit :=
  sys (T_DisposeHandle h) (fun w => (tt, set_heap w (delete h (heap w)))).

Definition set_lock (l : bool) (b : Block) : Block :=
  {| bdata := bdata b; blocked := l |}.

Definition HLock (h : Handle) : M unit :=
  sys (T_HLock h) (fun w => (tt, set_heap w (alter (set_lock true) h (heap w)))).

Definition HUnlock (h : Handle) : M unit :=
  sys (T_HUnlock h) (fun w => (tt, set_heap w (alter (set_lock false) h (heap w)))).

(** A store through a [long *]: the program writes the host's image of the
    value into the block itself. *)
Definition poke_long (little_endian : bool) (a : Z) (off : Z) (v : Z) : M unit :=
  fun m =>
    (tt, {| world := write_mem (world m) (AtBlock a off)
                       (long_image little_endian (to_long v));
            inject := inject m; log := log m |}).

(** The two locals of the manual branch, read where control has reached
    them without passing their initialisers.  C does not say what such a
    read gives; the host decides, and what is proved of the function on
    this way in is proved for every pair. *)
Definition uninitialised_locals : M (Z * Z) :=
  fun m => (unsetLocals (world m), m).

(** *** Gestalt and QuickTime *)

Definition Gestalt (selector : OSType) (response : Z) : M (OSErr * Z) :=
  trap (T_Gestalt selector) fst (fun e => (e, response))
    (fun w =>
       if selector =? gestaltQuickTime then
         match qtVersion w with
         | Some v => ((noErr, v), w)
         | None => ((gestaltUndefSelectorErr, response), w)
         end
       else ((gestaltUndefSelectorErr, response), w)).

(** QuickTime 4's own routine.  What it writes is QuickTime's business;
    only its result code is kept. *)
Definition CreateShortcutMovieFile (spec : FSSpec) (creator : OSType)
    (script flags : Z) (dataRef : Handle) (dataRefType : OSType) : M OSErr :=
  trap (T_CreateShortcutMovieFile spec creator script flags dataRef dataRefType)
    id id (fun w => (noErr, w)).

(** *** File Manager *)

(** Whether some open access path leads to the file. *)
Definition busy (w : World) (spec : FSSpec) : bool :=
  existsb (fun rf => fcbOpen (snd rf) && bool_decide (fcbSpec (snd rf) = spec))
          (map_to_list (fcbs w)).

(** The control block and the file behind an open reference number. *)
Definition open_file (w : World) (refNum : Z) : option (FCB * File) :=
  match fcbs w !! refNum with
  | Some fcb =>
      if fcbOpen fcb then
        match files w !! fcbSpec fcb with
        | Some f => Some (fcb, f)
        | None => None
        end
      else None
  | None => None
  end.

Definition set_mark (w : World) (refNum : Z) (fcb : FCB) (mark : Z) : World :=
  set_fcbs w (<[refNum := {| fcbSpec := fcbSpec fcb; fcbMark := mark;
                             fcbOpen := fcbOpen fcb |}]> (fcbs w)).

Definition set_data (w : World) (spec : FSSpec) (f : File) (data : list byte) : World :=
  set_files w (<[spec := {| fdata := data; fcreator := fcreator f;
                            ftype := ftype f; flocked := flocked f |}]> (files w)).

Definition FSpDelete (spec : FSSpec) : M OSErr :=
  trap (T_FSpDelete spec) id id
    (fun w =>
       match files w !! spec with
       | None => (fnfErr, w)
       | Some f =>
           if busy w spec then (fBsyErr, w)
           else if flocked f then (fLckdErr, w)
           else (noErr, set_files w (delete spec (files w)))
       end).

Definition FSpCreate (spec : FSSpec) (creator fileType : OSType) (script : Z) : M OSErr :=
  trap (T_FSpCreate spec creator fileType script) id id
    (fun w =>
       match files w !! spec with
       | Some _ => (dupFNErr, w)
       | None =>
           (noErr,
            set_files w (<[spec := {| fdata := []; fcreator := creator;
                                      ftype := fileType; flocked := false |}]> (files w)))
       end).

(** Opening the data fork; the one permission the source asks for is
    [fsRdWrPerm], which a file already open does not grant. *)
Definition FSpOpenDF (spec : FSSpec) (permission : Z) (refNum : Z) : M (OSErr * Z) :=
  trap (T_FSpOpenDF spec permission) fst (fun e => (e, refNum))
    (fun w =>
       match files w !! spec with
       | None => ((fnfErr, refNum), w)
       | Some _ =>
           if busy w spec then ((opWrErr, refNum), w)
           else let r := fresh ({[0]} ∪ dom (fcbs w)) in
                ((noErr, r),
                 set_fcbs w (<[r := {| fcbSpec := spec; fcbMark := 0;
                                       fcbOpen := true |}]> (fcbs w)))
       end).

Definition SetFPos (refNum : Z) (posMode : Z) (posOff : Z) : M OSErr :=
  trap (T_SetFPos refNum posMode posOff) id id
    (fun w =>
       match open_file w refNum with
       | None => (rfNumErr, w)
       | Some (fcb, f) =>
           let eof := Z.of_nat (length (fdata f)) in
           let target :=
             if posMode =? fsFromStart then posOff
             else if posMode =? fsFromLEOF then eof + posOff
             else if posMode =? fsFromMark then fcbMark fcb + posOff
             else fcbMark fcb in
           if target <? 0 then (posErr, w)
           else if eof <? target then (eofErr, set_mark w refNum fcb eof)
           else (noErr, set_mark w refNum fcb target)
       end).

(** Write [count] bytes at the mark and move the mark past them; the count
    comes back as the number of bytes written. *)
Definition FSWrite (refNum : Z) (count : Z) (buf : Addr) : M (OSErr * Z) :=
  trap (T_FSWrite refNum count buf) fst (fun e => (e, 0))
    (fun w =>
       match open_file w refNum with
       | None => ((rfNumErr, 0), w)
       | Some (fcb, f) =>
           if count <? 0 then ((paramErr, 0), w)
           else if flocked f then ((fLckdErr, 0), w)
           else
             let new := read_mem w buf count in
             let w' := set_data w (fcbSpec fcb) f (splice (fdata f) (fcbMark fcb) new) in
             ((noErr, count), set_mark w' refNum fcb (fcbMark fcb + count))
       end).

(** Set the logical end of file: the fork is cut, or grown with zeros. *)
Definition SetEOF (refNum : Z) (logEOF : Z) : M OSErr :=
  trap (T_SetEOF refNum logEOF) id id
    (fun w =>
       match open_file w refNum with
       | None => (rfNumErr, w)
       | Some (fcb, f) =>
           if logEOF <? 0 then (posErr, w)
           else
             let n := Z.to_nat logEOF in
             let data := firstn n (fdata f) ++ repeat x00 (n - length (fdata f)) in
             let w' := set_data w (fcbSpec fcb) f data in
             (noErr, set_mark w' refNum fcb (Z.min (fcbMark fcb) logEOF))
       end).

Definition FSClose (refNum : Z) : M OSErr :=
  trap (T_FSClose refNum) id id
    (fun w =>
       match fcbs w !! refNum with
       | None => (rfNumErr, w)
       | Some fcb =>
           if fcbOpen fcb then
             (noErr, set_fcbs w (<[refNum := {| fcbSpec := fcbSpec fcb;
                                                fcbMark := fcbMark fcb;
                                                fcbOpen := false |}]> (fcbs w)))
           else (fnOpnErr, w)
       end).

Definition GetVRefNum (refNum : Z) (vol : Z) : M (OSErr * Z) :=
  trap (T_GetVRefNum refNum) fst (fun e => (e, vol))
    (fun w =>
       match fcbs w !! refNum with
       | None => ((rfNumErr, vol), w)
       | Some fcb =>
           if fcbOpen fcb || negb (strictRefNum w)
           then ((noErr, vRefNum (fcbSpec fcb)), w)
           else ((rfNumErr, vol), w)
       end).

Definition FlushVol (vol : Z) : M OSErr :=
  trap (T_FlushVol vol) id id (fun w => (noErr, w)).

End Host.
Export Host.

(** ** The program *)

(** What the source takes from headers that are not part of it:
    QTShortCut.h (the file's creator and type), MoviesFormat.h (the three
    atom types) and ConditionalMacros.h (the target's conditionals). *)
Record Headers : Type :=
  { kShortcutFileCreator : OSType;
    kShortcutFileType : OSType;
    MovieAID : OSType;
    MovieDataRefAliasAID : OSType;
    DataRefAID : OSType;
    TARGET_OS_MAC : bool;
    TARGET_RT_LITTLE_ENDIAN : bool }.

Section Program.

Variable hdr : Headers.

Definition NtoB (x : Z) : Z := EndianU32_NtoB (TARGET_RT_LITTLE_ENDIAN hdr) x.

(** [EndianU32_NtoB(e)] for an expression [e] that makes calls.  The swap
    of Endian.h is a macro that writes its argument four times, once for
    each byte, so a little-endian build evaluates [e] four times; on a
    big-endian build the macro is its argument. *)
Definition NtoB_of (e : M Z) : M Z :=
  if TARGET_RT_LITTLE_ENDIAN hdr then
    x3 <- e ;; x2 <- e ;; x1 <- e ;; x0 <- e ;;
    ret (Endian32_Swap4 (wrap32 x3) (wrap32 x2) (wrap32 x1) (wrap32 x0))
  else
    x <- e ;; ret (wrap32 x).

(** [QTShortCut_WriteHandleToFile]: write the data in the handle into the
    file; a file already there is overwritten. *)
Definition QTShortCut_WriteHandleToFile (theHandle : Handle) (theFSSpecPtr : FSSpec)
  : M OSErr :=
  let myRefNum := 0 in
  let myVolNum := 0 in
  let mySize := 0 in
  let myErr := paramErr in
  myErr <-
    (if theHandle =? NULL then ret myErr (* goto bail *)
     else
       mySize <- GetHandleSize theHandle ;;
       if mySize =? 0 then ret myErr (* goto bail *)
       else
         HLock theHandle ;;
         (* delete the file; the error is ignored *)
         myErr <- FSpDelete theFSSpecPtr ;;
         (* create and open the file *)
         myErr <- FSpCreate theFSSpecPtr (kShortcutFileCreator hdr)
                    (kShortcutFileType hdr) smSystemScript ;;
         with_out myErr, myRefNum <-
           (if myErr =? noErr then FSpOpenDF theFSSpecPtr fsRdWrPerm myRefNum
            else ret (myErr, myRefNum)) ;;
         (* position the file mark to the beginning and write the data *)
         myErr <- (if myErr =? noErr then SetFPos myRefNum fsFromStart 0
                   else ret myErr) ;;
         with_out myErr, mySize <-
           (if myErr =? noErr then FSWrite myRefNum mySize (AtBlock theHandle 0)
            else ret (myErr, mySize)) ;;
         myErr <- (if myErr =? noErr then SetFPos myRefNum fsFromStart mySize
                   else ret myErr) ;;
         (* resize the file to the number of bytes written *)
         myErr <- (if myErr =? noErr then SetEOF myRefNum mySize
                   else ret myErr) ;;
         (* close the file *)
         myErr <- (if myErr =? noErr then FSClose myRefNum else ret myErr) ;;
         if TARGET_OS_MAC hdr then
           (* flush the volume *)
           with_out myErr, myVolNum <-
             (if myErr =? noErr then GetVRefNum myRefNum myVolNum
              else ret (myErr, myVolNum)) ;;
           myErr <- (if myErr =? noErr then FlushVol myVolNum else ret myErr) ;;
           ret myErr
         else ret myErr) ;;
  (* bail: *)
  HUnlock theHandle ;;
  ret myErr.

(** Where the manual branch stands when it stops building: it left for
    [bail] with the locals as they were, or the movie atom is complete. *)
Inductive Built : Type :=
| Bailed (myErr : OSErr) (myData : Ptr) (myMoovAtom : Handle)
| Complete (myData : Ptr) (myMoovAtom : Handle).

(** The manual branch of [QTShortCut_CreateShortcutMovieFile] from its
    first statement to the [PtrAndHand] test (the code that builds the
    movie atom), entered with [myErr] as Gestalt left it.  Each size field
    is [EndianU32_NtoB] of a sum that calls [GetPtrSize]: the call is made
    as often as the macro evaluates its argument. *)
Definition build_movie_atom (theDataRef : Handle) (theDataRefType : OSType)
    (myErr : OSErr) : M Built :=
  let myData := NULL in
  let myMoovAtom := NULL in
  let myDataRefType := NtoB theDataRefType in
  let myAtomHeaderSize := wrap32 (2 * sizeof_long) in
  (* allocate a data block and copy the type and the data reference into it *)
  size <- GetHandleSize theDataRef ;;
  myData <- NewPtrClear (to_long (wrap32 (sizeof_OSType + size))) ;;
  if myData =? NULL then ret (Bailed myErr myData myMoovAtom)
  else
    BlockMove (AtLocal (long_image (TARGET_RT_LITTLE_ENDIAN hdr) myDataRefType))
              (AtBlock myData 0) sizeof_OSType ;;
    size <- GetHandleSize theDataRef ;;
    BlockMove (AtBlock theDataRef 0) (AtBlock myData sizeof_OSType) size ;;
    (* a handle for the size and type fields of the three atoms *)
    myMoovAtom <- NewHandleClear (to_long (wrap32 (3 * myAtomHeaderSize))) ;;
    if myMoovAtom =? NULL then ret (Bailed myErr myData myMoovAtom)
    else
      let poke := poke_long (TARGET_RT_LITTLE_ENDIAN hdr) myMoovAtom in
      (* fill in the size and type fields of the three atoms *)
      v <- NtoB_of (size <- GetPtrSize myData ;; ret (3 * myAtomHeaderSize + size)) ;;
      poke 0x00 v ;;
      poke 0x04 (NtoB (MovieAID hdr)) ;;
      v <- NtoB_of (size <- GetPtrSize myData ;; ret (2 * myAtomHeaderSize + size)) ;;
      poke 0x08 v ;;
      poke 0x0C (NtoB (MovieDataRefAliasAID hdr)) ;;
      v <- NtoB_of (size <- GetPtrSize myData ;; ret (1 * myAtomHeaderSize + size)) ;;
      poke 0x10 v ;;
      poke 0x14 (NtoB (DataRefAID hdr)) ;;
      (* concatenate the data in myData onto the end of the movie atom *)
      size <- GetPtrSize myData ;;
      myErr <- PtrAndHand myData myMoovAtom size ;;
      if negb (myErr =? noErr) then ret (Bailed myErr myData myMoovAtom)
      else ret (Complete myData myMoovAtom).

(** The code at [bail]. *)
Definition bail (myData : Ptr) (myMoovAtom : Handle) (myErr : OSErr) : M OSErr :=
  (if negb (myData =? NULL) then DisposePtr myData else ret tt) ;;
  (if negb (myMoovAtom =? NULL) then DisposeHandle myMoovAtom else ret tt) ;;
  ret myErr.

(** [QTShortCut_CreateShortcutMovieFile]: create a movie file that is a
    shortcut to the data reference. *)
Definition QTShortCut_CreateShortcutMovieFile (theDataRef : Handle)
    (theDataRefType : OSType) (theFSSpecPtr : FSSpec) : M OSErr :=
  let myVersion := 0 in
  let myErr := noErr in
  with_out myErr, myVersion <- Gestalt gestaltQuickTime myVersion ;;
  if negb (myErr =? noErr) then
    (* goto bail: the label is inside the manual branch, whose locals
       myData and myMoovAtom have not been initialised on this way in;
       what the tests at bail then read is not defined by C *)
    with_out myData, myMoovAtom <- uninitialised_locals ;;
    bail myData myMoovAtom myErr
  else if 0x0400 <=? Z.land (Z.shiftr myVersion 16) 0xffff then
    (* QuickTime 4.0 or greater: use CreateShortcutMovieFile *)
    CreateShortcutMovieFile theFSSpecPtr (kShortcutFileCreator hdr) smCurrentScript
      (Z.lor createMovieFileDeleteCurFile createMovieFileDontCreateResFile)
      theDataRef theDataRefType
  else
    (* a version of QuickTime prior to 4.0: do the grunt work ourselves *)
    b <- build_movie_atom theDataRef theDataRefType myErr ;;
    match b with
    | Bailed myErr myData myMoovAtom => bail myData myMoovAtom myErr
    | Complete myData myMoovAtom =>
        (* create the shortcut movie file *)
        myErr <- QTShortCut_WriteHandleToFile myMoovAtom theFSSpecPtr ;;
        bail myData myMoovAtom myErr
    end.

End Program.

(** ** Notions the statements are written with *)

(** The bytes of the block at an address, if a block lives there. *)
Definition contents (w : World) (a : Z) : option (list byte) :=
  bdata <$> heap w !! a.

(** A program that leaves the bytes of every block as they are. *)
Definition keeps_memory {A} (c : M A) : Prop :=
  forall m a, contents (world (snd (c m))) a = contents (world m) a.

(** A File Manager call, other than the removal, that reported an error. *)
Definition failed_step (ev : Event) : bool :=
  is_file_call (fst ev) && negb (is_delete (fst ev)) && negb (snd ev =? noErr).

Definition no_file_call (evs : list Event) : bool :=
  forallb (fun ev => negb (is_file_call (fst ev))) evs.

(** Once a step other than the removal has failed, no File Manager call
    follows. *)
Fixpoint stops_at_first_failure (evs : list Event) : bool :=
  match evs with
  | [] => true
  | ev :: rest =>
      if failed_step ev then no_file_call rest
      else stops_at_first_failure rest
  end.

(** The first failed step, if any. *)
Fixpoint first_failure (evs : list Event) : option Event :=
  match evs with
  | [] => None
  | ev :: rest => if failed_step ev then Some ev else first_failure rest
  end.

(** The call made right after each FSpDelete is FSpCreate on the same
    file, whatever FSpDelete reported. *)
Fixpoint create_follows_delete (evs : list Event) : bool :=
  match evs with
  | [] => true
  | (T_FSpDelete spec, _) :: rest =>
      match rest with
      | (T_FSpCreate spec' _ _ _, _) :: _ => bool_decide (spec' = spec)
      | _ => false
      end && create_follows_delete rest
  | _ :: rest => create_follows_delete rest
  end.

(** The code the writer returns, read off the calls it made: the code of
    the first failed step; [noErr] when no step failed; [paramErr] when it
    made no File Manager call at all. *)
Definition writer_result (evs : list Event) : OSErr :=
  match first_failure evs with
  | Some ev => snd ev
  | None => if no_file_call evs then paramErr else noErr
  end.

(** A routine that makes exactly one call: the program gets a result, the
    call is logged with the result's code, the injected failures stay. *)
Definition logs_one {A} (p : M A) (c : Call) (code : A -> OSErr) : Prop :=
  forall m, exists r w,
    p m = (r, {| world := w; inject := inject m; log := log m ++ [(c, code r)] |}).

(** The shortcut movie file for a data reference of type [tag] with bytes
    [bytes], as the format lays it out. *)
Definition shortcut_layout (hdr : Headers) (tag : OSType) (bytes : list byte)
  : list byte :=
  let n := Z.of_nat (length bytes) in
  be32 (24 + n + 4) ++ be32 (MovieAID hdr)
  ++ be32 (16 + n + 4) ++ be32 (MovieDataRefAliasAID hdr)
  ++ be32 (8 + n + 4) ++ be32 (DataRefAID hdr)
  ++ be32 tag ++ bytes.

(** The Memory Manager routines that can refuse a request for memory. *)
Definition is_memory_request (c : Call) : bool :=
  match c with
  | T_NewPtrClear _ | T_NewHandleClear _ | T_PtrAndHand _ _ _ => true
  | _ => false
  end.

(** The host refuses a request for memory. *)
Definition memory_refused (m : Machine) : Prop :=
  exists c e, is_memory_request c = true /\ inject m c = Some e /\ e <> noErr.

(** What the manual branch has built when it reaches the writer. *)
Definition build_post (hdr : Headers) (theDataRef : Handle) (tag : OSType)
    (bytes : list byte) (m : Machine) (res : Built * Machine) : Prop :=
  match res with
  | (Complete p h, m') =>
      contents (world m') h = Some (shortcut_layout hdr tag bytes)
      /\ contents (world m') p = Some (be32 tag ++ bytes)
      /\ contents (world m') theDataRef = Some bytes
      /\ Z.of_nat (length bytes) + 28 <= maxSize
      /\ p <> NULL /\ h <> NULL /\ p <> h
      /\ files (world m') = files (world m)
      /\ fcbs (world m') = fcbs (world m)
      /\ inject m' = inject m
  | (Bailed _ _ _, _) =>
      memory_refused m \/ maxSize < Z.of_nat (length bytes) + 28
  end.

(** The host injects a failure into some call. *)
Definition injected (m : Machine) : Prop :=
  exists c e, inject m c = Some e /\ e <> noErr.

Definition new_file (creator fileType : OSType) : File :=
  {| fdata := []; fcreator := creator; ftype := fileType; flocked := false |}.

(** What can keep the writer from succeeding on a buffer that is there: a
    failure the host injects, an open access path to the target, a locked
    target, or (in the build that flushes the volume) a host that refuses
    the closed reference number. *)
Definition writer_blocked (hdr : Headers) (spec : FSSpec) (m : Machine) : Prop :=
  injected m
  \/ busy (world m) spec = true
  \/ (exists f, files (world m) !! spec = Some f /\ flocked f = true)
  \/ (TARGET_OS_MAC hdr = true /\ strictRefNum (world m) = true).

(** The file the writer leaves behind. *)
Definition written_file (hdr : Headers) (bytes : list byte) : File :=
  {| fdata := bytes; fcreator := kShortcutFileCreator hdr;
     ftype := kShortcutFileType hdr; flocked := false |}.

(** Every call the program makes satisfies [P]. *)
Definition calls_within {A} (P : Call -> bool) (c : M A) : Prop :=
  forall m, exists evs,
    log (snd (c m)) = log m ++ evs
    /\ forallb (fun ev => P (fst ev)) evs = true.

(** The calls of the writer: the File Manager, and the size and the lock
    of the handle. *)
Definition is_writer_call (c : Call) : bool :=
  is_file_call c
  || match c with
     | T_GetHandleSize _ | T_HLock _ | T_HUnlock _ => true
     | _ => false
     end.

Definition is_dispose (c : Call) : bool :=
  match c with T_DisposePtr _ | T_DisposeHandle _ => true | _ => false end.

Definition took_native (evs : list Event) : bool :=
  existsb (fun ev => is_native (fst ev)) evs.

Definition took_manual (evs : list Event) : bool :=
  existsb (fun ev => is_manual (fst ev)) evs.

(** One atom header: the size, the type, and what follows the header. *)
Definition parse_atom (l : list byte) : option (Z * list byte * list byte) :=
  match read_be32 l with
  | Some size => Some (size, firstn 4 (skipn 4 l), skipn 8 l)
  | None => None
  end.

(** The three nested headers of a shortcut movie file, outermost first,
    and the bytes left inside the innermost atom. *)
Definition parse_shortcut (l : list byte)
  : option ((Z * list byte) * (Z * list byte) * (Z * list byte) * list byte) :=
  match parse_atom l with
  | Some (s1, t1, b1) =>
      match parse_atom b1 with
      | Some (s2, t2, b2) =>
          match parse_atom b2 with
          | Some (s3, t3, b3) => Some ((s1, t1), (s2, t2), (s3, t3), b3)
          | None => None
          end
      | None => None
      end
  | None => None
  end.

(** Sample values for what the headers define: the creator and type of a
    shortcut file, the three atom types, a little-endian Windows build. *)
Definition sampleHeaders : Headers :=
  {| kShortcutFileCreator := 0x54564f44; (* 'TVOD' *)
     kShortcutFileType := 0x4d6f6f56;    (* 'MooV' *)
     MovieAID := 0x6d6f6f76;             (* 'moov' *)
     MovieDataRefAliasAID := 0x6d647261; (* 'mdra' *)
     DataRefAID := 0x64726566;           (* 'dref' *)
     TARGET_OS_MAC := false;
     TARGET_RT_LITTLE_ENDIAN := true |}.

(** The same headers for a big-endian Mac OS build. *)
Definition macHeaders : Headers :=
  {| kShortcutFileCreator := 0x54564f44;
     kShortcutFileType := 0x4d6f6f56;
     MovieAID := 0x6d6f6f76;
     MovieDataRefAliasAID := 0x6d647261;
     DataRefAID := 0x64726566;
     TARGET_OS_MAC := true;
     TARGET_RT_LITTLE_ENDIAN := false |}.

Definition alis : OSType := 0x616c6973. (* 'alis' *)
Definition url : OSType := 0x75726c20.  (* 'url ' *)

Definition target : FSSpec := (-1, 2, "Shortcut.mov"%string).

(** A data reference: the bytes of "http://a/b.mov". *)
Definition longRef : list byte :=
  [x68; x74; x74; x70; x3a; x2f; x2f; x61; x2f; x62; x2e; x6d; x6f; x76].

(** A shorter one: "b.mov". *)
Definition shortRef : list byte := [x62; x2e; x6d; x6f; x76].

Definition block (bytes : list byte) : Block :=
  {| bdata := bytes; blocked := false |}.

(** A host with the given blocks and files, no open file, and QuickTime
    reporting [version]. *)
Definition host (blocks : gmap Z Block) (fs : gmap FSSpec File)
    (version : option Z) : World :=
  {| heap := blocks; files := fs; fcbs := ∅; qtVersion := version;
     strictRefNum := true; unsetLocals := (0, 0) |}.

(** A machine that injects no failure and has made no call yet. *)
Definition boot (w : World) : Machine :=
  {| world := w; inject := fun _ => None; log := [] |}.

(** A machine that fails the calls [fails] picks out, with the code it
    gives. *)
Definition faulty (w : World) (fails : Call -> option OSErr) : Machine :=
  {| world := w; inject := fails; log := [] |}.

(** QuickTime 3.0 as Gestalt reports it. *)
Definition qt3 : Z := 0x03008000.

(** Handle 1 holds [longRef], handle 2 holds [shortRef], handle 3 holds
    nothing; no file yet. *)
Definition blocks0 : gmap Z Block :=
  {[ 1 := block longRef; 2 := block shortRef; 3 := block [] ]}.

Definition m0 : Machine := boot (host blocks0 ∅ (Some qt3)).

(** The same, with a locked file already at the target. *)
Definition lockedFile : File :=
  {| fdata := longRef; fcreator := 0; ftype := 0; flocked := true |}.

Definition mLocked : Machine :=
  boot (host blocks0 {[ target := lockedFile ]} (Some qt3)).

(** The same as [m0], on a host where the removal of the target fails with
    an I/O error. *)
Definition mDeleteFails : Machine :=
  faulty (host blocks0 ∅ (Some qt3))
    (fun c => if is_delete c then Some ioErr else None).

(** Hosts where the write, or the resize, fails with an I/O error. *)
Definition mWriteFails : Machine :=
  faulty (host blocks0 ∅ (Some qt3))
    (fun c => match c with T_FSWrite _ _ _ => Some ioErr | _ => None end).

Definition mResizeFails : Machine :=
  faulty (host blocks0 ∅ (Some qt3))
    (fun c => match c with T_SetEOF _ _ => Some ioErr | _ => None end).

(** ** Notions for the further properties *)

(** *** What a program leaves alone *)

(** A program that changes nothing of the host but Memory Manager blocks,
    and leaves the injected failures as they are. *)
Definition heap_only {A} (c : M A) : Prop :=
  forall m, set_heap (world (snd (c m))) (heap (world m)) = world m
            /\ inject (snd (c m)) = inject m.

(** A program that changes no block, except that it may set or clear the
    lock of the block at [h]. *)
Definition locks_only {A} (h : Handle) (c : M A) : Prop :=
  forall m, alter (set_lock false) h (heap (world (snd (c m))))
            = alter (set_lock false) h (heap (world m)).

(** Hoare triples on the state of the host: run from a state where [P]
    holds, the program returns a result and leaves a state that satisfy
    [Q]. *)
Definition triple {A} (P : World -> Prop) (c : M A) (Q : A -> World -> Prop) : Prop :=
  forall m, P (world m) -> Q (fst (c m)) (world (snd (c m))).

(** The files other than the target, and the access paths open at the
    start, are in [w] as they are in [w0]. *)
Definition others_kept (spec : FSSpec) (w0 w : World) : Prop :=
  (forall s, s <> spec -> files w !! s = files w0 !! s)
  /\ (forall r fcb, fcbs w0 !! r = Some fcb -> fcbs w !! r = Some fcb).

(** The reference number [r] is one the program opened itself, and it
    leads to the target. *)
Definition own_path (spec : FSSpec) (w0 : World) (r : Z) (w : World) : Prop :=
  fcbs w0 !! r = None
  /\ exists fcb, fcbs w !! r = Some fcb /\ fcbSpec fcb = spec.

(** The blocks at [p] and [h], where they are not [NULL], are the
    program's own (nothing lived there in [H0]); every other block is in
    [w] as it is in [H0]. *)
Definition restorable (H0 : gmap Z Block) (p h : Z) (w : World) : Prop :=
  (p <> NULL -> H0 !! p = None) /\ (h <> NULL -> H0 !! h = None)
  /\ forall a, (p <> NULL -> a <> p) -> (h <> NULL -> a <> h) ->
               heap w !! a = H0 !! a.

(** *** Reading the log *)

(** An FSpOpenDF that succeeded. *)
Definition is_open_ok (ev : Event) : bool :=
  match fst ev with T_FSpOpenDF _ _ => snd ev =? noErr | _ => false end.

Definition is_close (ev : Event) : bool :=
  match fst ev with T_FSClose _ => true | _ => false end.

(** A positioning, a write or a resize that reported an error. *)
Definition is_failed_transfer (ev : Event) : bool :=
  match fst ev with
  | T_SetFPos _ _ _ | T_FSWrite _ _ _ | T_SetEOF _ _ => negb (snd ev =? noErr)
  | _ => false
  end.

Definition is_lock (ev : Event) : bool :=
  match fst ev with T_HLock _ => true | _ => false end.

Definition is_write (c : Call) : bool :=
  match c with T_FSWrite _ _ _ => true | _ => false end.

(** Every GetVRefNum asks about the reference number that the call just
    before it, a successful FSClose, has closed; [prev] is the call made
    before the first of [evs]. *)
Fixpoint volume_after_close (prev : option Event) (evs : list Event) : bool :=
  match evs with
  | [] => true
  | ev :: rest =>
      match fst ev with
      | T_GetVRefNum r =>
          match prev with
          | Some (T_FSClose r', e) => bool_decide (r' = r) && (e =? noErr)
          | _ => false
          end
      | _ => true
      end && volume_after_close (Some ev) rest
  end.

(** An allocation that came back [NULL]. *)
Definition is_alloc_refused (ev : Event) : bool :=
  match fst ev with
  | T_NewPtrClear _ | T_NewHandleClear _ => negb (snd ev =? noErr)
  | _ => false
  end.

(** A [PtrAndHand] that reported an error. *)
Definition is_append_failed (ev : Event) : bool :=
  match fst ev with
  | T_PtrAndHand _ _ _ => negb (snd ev =? noErr)
  | _ => false
  end.

(** *** Parts and variants of the program *)

(** The manual branch of [QTShortCut_CreateShortcutMovieFile] (the whole
    else-block, with the code at [bail]), entered with [myErr] as Gestalt
    left it. *)
Definition manual_branch (hdr : Headers) (theDataRef : Handle) (tag : OSType)
    (spec : FSSpec) (myErr : OSErr) : M OSErr :=
  b <- build_movie_atom hdr theDataRef tag myErr ;;
  match b with
  | Bailed myErr myData myMoovAtom => bail myData myMoovAtom myErr
  | Complete myData myMoovAtom =>
      myErr <- QTShortCut_WriteHandleToFile hdr myMoovAtom spec ;;
      bail myData myMoovAtom myErr
  end.

(** The calls in a log other than the queries of a pointer's size. *)
Definition is_size_query (c : Call) : bool :=
  match c with T_GetPtrSize _ => true | _ => false end.




(** The same headers for a host of the given byte order. *)
Definition with_endian (little_endian : bool) (hdr : Headers) : Headers :=
  {| kShortcutFileCreator := kShortcutFileCreator hdr;
     kShortcutFileType := kShortcutFileType hdr;
     MovieAID := MovieAID hdr;
     MovieDataRefAliasAID := MovieDataRefAliasAID hdr;
     DataRefAID := DataRefAID hdr;
     TARGET_OS_MAC := TARGET_OS_MAC hdr;
     TARGET_RT_LITTLE_ENDIAN := little_endian |}.

(** The machine as a run left it, on a host that from now on fails no
    call. *)
Definition recovered (m : Machine) : Machine :=
  {| world := world m; inject := fun _ => None; log := log m |}.

(** *** More hosts *)

(** An unlocked file at the target that nobody has open: 28 bytes of
    text. *)
Definition oldFile : File :=
  {| fdata := longRef ++ longRef; fcreator := 0x3f3f3f3f; ftype := 0x54455854;
     flocked := false |}.

Definition mOld : Machine :=
  boot (host blocks0 {[ target := oldFile ]} (Some qt3)).

(** A host where every write fails with a full disk. *)
Definition dskFulErr : OSErr := -34.

Definition mDiskFull : Machine :=
  faulty (host blocks0 {[ target := oldFile ]} (Some qt3))
    (fun c => match c with T_FSWrite _ _ _ => Some dskFulErr | _ => None end).

(** A host that has no memory left for the handle of the three headers. *)
Definition mNoMemory : Machine :=
  faulty (host blocks0 ∅ (Some qt3))
    (fun c => match c with T_NewHandleClear _ => Some memFullErr | _ => None end).

(** A host where [PtrAndHand] cannot grow the handle. *)
Definition mNoGrowth : Machine :=
  faulty (host blocks0 ∅ (Some qt3))
    (fun c => match c with T_PtrAndHand _ _ _ => Some memFullErr | _ => None end).

(** ** Bytes and byte order: lemmas *)

Section ByteOrder.

Lemma Z_of_byte_of_Z (z : Z) : Z_of_byte (byte_of_Z z) = z mod 256.
Proof.
  unfold Z_of_byte, byte_of_Z.
  assert (Hr : 0 <= z mod 256 < 256) by (apply Z.mod_pos_bound; lia).
  destruct (Byte.of_N (Z.to_N (z mod 256))) as [b|] eqn:E.
  - apply Byte.to_of_N in E. rewrite E. lia.
  - apply Byte.of_N_None_iff in E. lia.
Qed.

Lemma byte_of_Z_low_bits (a b : Z) :
  (forall n, 0 <= n < 8 -> Z.testbit a n = Z.testbit b n) ->
  byte_of_Z a = byte_of_Z b.
Proof.
  intros H. unfold byte_of_Z.
  replace (a mod 256) with (b mod 256); [reflexivity|].
  change 256 with (2 ^ 8). apply Z.bits_inj'. intros n Hn.
  destruct (Z.ltb_spec n 8).
  - rewrite !Z.mod_pow2_bits_low by lia. symmetry. apply H. lia.
  - rewrite !Z.mod_pow2_bits_high by lia. reflexivity.
Qed.

Lemma to_long_mod (z : Z) : to_long z mod 2 ^ 32 = z mod 2 ^ 32.
Proof.
  unfold to_long.
  rewrite Zminus_mod, Z.mod_mod by lia.
  rewrite <- Zminus_mod. f_equal. lia.
Qed.

Lemma testbit_to_long (z n : Z) :
  0 <= n < 32 -> Z.testbit (to_long z) n = Z.testbit z n.
Proof.
  intros Hn.
  rewrite <- (Z.mod_pow2_bits_low (to_long z) 32 n) by lia.
  rewrite to_long_mod. apply Z.mod_pow2_bits_low. lia.
Qed.

Lemma testbit_wrap32 (z n : Z) :
  0 <= n < 32 -> Z.testbit (wrap32 z) n = Z.testbit z n.
Proof. intros Hn. unfold wrap32. apply Z.mod_pow2_bits_low. lia. Qed.

(** The big-endian image depends on the low 32 bits only. *)
Lemma be32_low_bits (x y : Z) :
  (forall n, 0 <= n < 32 -> Z.testbit x n = Z.testbit y n) -> be32 x = be32 y.
Proof.
  intros H. unfold be32.
  assert (Hb : forall k, 0 <= k <= 24 ->
                 byte_of_Z (Z.shiftr x k) = byte_of_Z (Z.shiftr y k)).
  { intros k Hk. apply byte_of_Z_low_bits. intros n Hn.
    rewrite !Z.shiftr_spec by lia. apply H. lia. }
  rewrite !Hb by lia.
  now rewrite (byte_of_Z_low_bits x y) by (intros; apply H; lia).
Qed.

Lemma be32_wrap32 (x : Z) : be32 (wrap32 x) = be32 x.
Proof. apply be32_low_bits. intros. now apply testbit_wrap32. Qed.

Lemma testbit_swap (y i : Z) :
  0 <= i < 32 ->
  Z.testbit (Endian32_Swap (wrap32 y)) i
  = Z.testbit y (if i <? 8 then i + 24 else if i <? 16 then i + 8
                 else if i <? 24 then i - 8 else i - 24).
Proof.
  intros Hi. unfold Endian32_Swap.
  rewrite !Z.lor_spec, !Z.land_spec, !Z.shiftr_spec, !Z.shiftl_spec by lia.
  change 255 with (Z.ones 8).
  change 65280 with (Z.shiftl (Z.ones 8) 8).
  change 16711680 with (Z.shiftl (Z.ones 8) 16).
  change 4278190080 with (Z.shiftl (Z.ones 8) 24).
  rewrite !Z.shiftl_spec by lia.
  destruct (Z.ltb_spec i 8); [|destruct (Z.ltb_spec i 16); [|destruct (Z.ltb_spec i 24)]].
  - rewrite (Z.ones_spec_low 8 i) by lia.
    rewrite (Z.testbit_neg_r _ (i - 8)), (Z.testbit_neg_r _ (i - 16)),
      (Z.testbit_neg_r _ (i - 24)) by lia.
    rewrite testbit_wrap32 by lia.
    now rewrite !andb_false_r, !orb_false_r, andb_true_r.
  - rewrite (Z.ones_spec_high 8 i), (Z.ones_spec_low 8 (i - 8)) by lia.
    rewrite (Z.testbit_neg_r _ (i - 16)), (Z.testbit_neg_r _ (i - 24)) by lia.
    rewrite (testbit_wrap32 y (i + 8)) by lia.
    now rewrite !andb_false_r, !orb_false_r, andb_true_r.
  - rewrite (Z.ones_spec_high 8 i), (Z.ones_spec_high 8 (i - 8)),
      (Z.ones_spec_low 8 (i - 16)) by lia.
    rewrite (Z.testbit_neg_r _ (i - 24)) by lia.
    rewrite (testbit_wrap32 y (i - 8)) by lia.
    now rewrite !andb_false_r, !orb_false_r, andb_true_r.
  - rewrite (Z.ones_spec_high 8 i), (Z.ones_spec_high 8 (i - 8)),
      (Z.ones_spec_high 8 (i - 16)), (Z.ones_spec_low 8 (i - 24)) by lia.
    rewrite (testbit_wrap32 y (i - 24)) by lia.
    now rewrite !andb_false_r, andb_true_r.
Qed.

Lemma le32_swap (x : Z) : le32 (Endian32_Swap (wrap32 x)) = be32 x.
Proof.
  unfold le32, be32.
  assert (Hb : forall k, k = 0 \/ k = 8 \/ k = 16 \/ k = 24 ->
                 byte_of_Z (Z.shiftr (Endian32_Swap (wrap32 x)) k)
                 = byte_of_Z (Z.shiftr x (24 - k))).
  { intros k Hk. apply byte_of_Z_low_bits. intros n Hn.
    rewrite !Z.shiftr_spec by lia. rewrite testbit_swap by lia.
    f_equal.
    destruct (Z.ltb_spec (n + k) 8); [lia|].
    destruct (Z.ltb_spec (n + k) 16); [lia|].
    destruct (Z.ltb_spec (n + k) 24); lia. }
  rewrite (Hb 8), (Hb 16), (Hb 24) by lia.
  rewrite <- (Z.shiftr_0_r (Endian32_Swap (wrap32 x))) at 1.
  rewrite (Hb 0) by lia.
  now rewrite Z.shiftr_0_r.
Qed.

Lemma long_image_low_bits (le : bool) (x y : Z) :
  (forall n, 0 <= n < 32 -> Z.testbit x n = Z.testbit y n) ->
  long_image le x = long_image le y.
Proof.
  intros H. unfold long_image. destruct le; [|now apply be32_low_bits].
  pose proof (be32_low_bits x y H) as Hr. unfold be32 in Hr. unfold le32.
  now injection Hr as -> -> -> ->.
Qed.

(** Whatever the host's byte order, a value passed through
    [EndianU32_NtoB] lies in memory most significant byte first. *)
Lemma long_image_NtoB (le : bool) (x : Z) :
  long_image le (EndianU32_NtoB le x) = be32 x.
Proof.
  unfold long_image, EndianU32_NtoB. destruct le.
  - apply le32_swap.
  - apply be32_wrap32.
Qed.

Lemma long_image_to_long (le : bool) (x : Z) :
  long_image le (to_long x) = long_image le x.
Proof. apply long_image_low_bits. intros. now apply testbit_to_long. Qed.

Lemma read_be32_be32 (x : Z) (l : list byte) :
  read_be32 (be32 x ++ l) = Some (wrap32 x).
Proof.
  unfold be32, read_be32. cbn [app]. f_equal.
  rewrite !Z_of_byte_of_Z, !Z.shiftr_div_pow2 by lia. unfold wrap32.
  change (2 ^ 32) with (2 ^ 24 * 256).
  rewrite (Z.mod_eq x (2 ^ 24 * 256)) by lia.
  rewrite <- (Z.div_div x (2 ^ 24) 256) by lia.
  rewrite (Z.mod_eq (x / 2 ^ 24) 256) by lia.
  assert (H16 : (x / 2 ^ 16) mod 256 = x / 2 ^ 16 - 256 * (x / 2 ^ 24)).
  { rewrite Z.mod_eq by lia. rewrite Z.div_div by lia. reflexivity. }
  assert (H8 : (x / 2 ^ 8) mod 256 = x / 2 ^ 8 - 256 * (x / 2 ^ 16)).
  { rewrite Z.mod_eq by lia. rewrite Z.div_div by lia. reflexivity. }
  assert (H0 : x mod 256 = x - 256 * (x / 2 ^ 8)).
  { rewrite Z.mod_eq by lia. reflexivity. }
  rewrite H16, H8, H0. lia.
Qed.

End ByteOrder.

(** ** Running programs: one call at a time *)

Section Running.

Context {A : Type}.

Lemma bind_run {B} (c : M A) (k : A -> M B) (m : Machine) :
  bind c k m = k (fst (c m)) (snd (c m)).
Proof. unfold bind. now destruct (c m). Qed.

(** Whatever a fallible routine does, the program gets one result, the
    call is appended to the log with that result's code, and the injected
    failures stay as they are. *)
Lemma trap_inv (c : Call) (code : A -> OSErr) (refuse : OSErr -> A)
    (sem : World -> A * World) (m : Machine) :
  exists r w,
    trap c code refuse sem m
    = (r, {| world := w; inject := inject m; log := log m ++ [(c, code r)] |})
    /\ ((exists e, inject m c = Some e /\ e <> noErr /\ r = refuse e /\ w = world m)
        \/ (fault m c = None /\ sem (world m) = (r, w))).
Proof.
  unfold trap, fault.
  destruct (inject m c) as [e|]; [destruct (Z.eqb_spec e noErr)|].
  - destruct (sem (world m)) as [r w]. exists r, w. auto.
  - exists (refuse e), (world m). split; [reflexivity|]. left. now exists e.
  - destruct (sem (world m)) as [r w]. exists r, w. auto.
Qed.

Lemma sys_run (c : Call) (sem : World -> A * World) (m : Machine) :
  sys c sem m
  = (fst (sem (world m)),
     {| world := snd (sem (world m)); inject := inject m;
        log := log m ++ [(c, noErr)] |}).
Proof. unfold sys. now destruct (sem (world m)). Qed.

End Running.

(** ** The writer only reads memory *)

Section KeepsMemory.

Lemma keeps_ret {A} (a : A) : keeps_memory (ret a).
Proof. intros m x. reflexivity. Qed.

Lemma keeps_bind {A B} (c : M A) (k : A -> M B) :
  keeps_memory c -> (forall a, keeps_memory (k a)) -> keeps_memory (bind c k).
Proof.
  intros Hc Hk m x. rewrite bind_run.
  rewrite (Hk (fst (c m)) (snd (c m)) x). apply Hc.
Qed.

Lemma keeps_trap {A} c code refuse (sem : World -> A * World) :
  (forall w a, contents (snd (sem w)) a = contents w a) ->
  keeps_memory (trap c code refuse sem).
Proof.
  intros H m x.
  destruct (trap_inv c code refuse sem m)
    as (r & w & -> & [(e & _ & _ & _ & ->) | [_ Hs]]);
    cbn [snd world]; [reflexivity|].
  specialize (H (world m) x). now rewrite Hs in H.
Qed.

Lemma keeps_sys {A} c (sem : World -> A * World) :
  (forall w a, contents (snd (sem w)) a = contents w a) ->
  keeps_memory (sys c sem).
Proof. intros H m x. rewrite sys_run. cbn [snd world]. apply H. Qed.

Lemma contents_set_lock w l h a :
  contents (set_heap w (alter (set_lock l) h (heap w))) a = contents w a.
Proof.
  unfold contents. cbn [heap set_heap]. rewrite lookup_alter.
  case_decide; [subst|reflexivity]. now destruct (heap w !! a).
Qed.

End KeepsMemory.

Section WriterMemory.

Local Ltac file_sem :=
  apply keeps_trap; intros w a; unfold open_file, set_mark, set_data;
  repeat case_match; reflexivity.

Lemma keeps_GetHandleSize h : keeps_memory (GetHandleSize h).
Proof. apply keeps_sys. reflexivity. Qed.

Lemma keeps_HLock h : keeps_memory (HLock h).
Proof. apply keeps_sys. intros w a. apply contents_set_lock. Qed.

Lemma keeps_HUnlock h : keeps_memory (HUnlock h).
Proof. apply keeps_sys. intros w a. apply contents_set_lock. Qed.

Lemma keeps_FSpDelete spec : keeps_memory (FSpDelete spec).
Proof. file_sem. Qed.

Lemma keeps_FSpCreate spec c t s : keeps_memory (FSpCreate spec c t s).
Proof. file_sem. Qed.

Lemma keeps_FSpOpenDF spec p r : keeps_memory (FSpOpenDF spec p r).
Proof. file_sem. Qed.

Lemma keeps_SetFPos r mode off : keeps_memory (SetFPos r mode off).
Proof. file_sem. Qed.

Lemma keeps_FSWrite r n buf : keeps_memory (FSWrite r n buf).
Proof. file_sem. Qed.

Lemma keeps_SetEOF r n : keeps_memory (SetEOF r n).
Proof. file_sem. Qed.

Lemma keeps_FSClose r : keeps_memory (FSClose r).
Proof. file_sem. Qed.

Lemma keeps_GetVRefNum r v : keeps_memory (GetVRefNum r v).
Proof. file_sem. Qed.

Lemma keeps_FlushVol v : keeps_memory (FlushVol v).
Proof. file_sem. Qed.

Lemma keeps_writer hdr theHandle spec :
  keeps_memory (QTShortCut_WriteHandleToFile hdr theHandle spec).
Proof.
  unfold QTShortCut_WriteHandleToFile.
  repeat first
    [ apply keeps_ret | apply keeps_GetHandleSize | apply keeps_HLock
    | apply keeps_HUnlock | apply keeps_FSpDelete | apply keeps_FSpCreate
    | apply keeps_FSpOpenDF | apply keeps_SetFPos | apply keeps_FSWrite
    | apply keeps_SetEOF | apply keeps_FSClose | apply keeps_GetVRefNum
    | apply keeps_FlushVol
    | apply keeps_bind; [|intros]
    | match goal with |- keeps_memory (if ?b then _ else _) => destruct b end
    | match goal with |- keeps_memory (let '(_, _) := ?p in _) => destruct p end ].
Qed.

End WriterMemory.

(** ** The order of the writer's calls *)

Create HintDb calls discriminated.

Section OneCall.

Lemma logs_trap {A} c code refuse (sem : World -> A * World) :
  logs_one (trap c code refuse sem) c code.
Proof.
  intros m. destruct (trap_inv c code refuse sem m) as (r & w & H & _). eauto.
Qed.

Lemma logs_sys {A} c (sem : World -> A * World) :
  logs_one (sys c sem) c (fun _ => noErr).
Proof. intros m. rewrite sys_run. eauto. Qed.

Lemma logs_GetHandleSize h : logs_one (GetHandleSize h) (T_GetHandleSize h) (fun _ => noErr).
Proof. apply logs_sys. Qed.
Lemma logs_GetPtrSize p : logs_one (GetPtrSize p) (T_GetPtrSize p) (fun _ => noErr).
Proof. apply logs_sys. Qed.
Lemma logs_NewPtrClear n : logs_one (NewPtrClear n) (T_NewPtrClear n) mem_code.
Proof. apply logs_trap. Qed.
Lemma logs_NewHandleClear n : logs_one (NewHandleClear n) (T_NewHandleClear n) mem_code.
Proof. apply logs_trap. Qed.
Lemma logs_BlockMove s d n : logs_one (BlockMove s d n) (T_BlockMove s d n) (fun _ => noErr).
Proof. apply logs_sys. Qed.
Lemma logs_PtrAndHand p h n : logs_one (PtrAndHand p h n) (T_PtrAndHand p h n) id.
Proof. apply logs_trap. Qed.
Lemma logs_DisposePtr p : logs_one (DisposePtr p) (T_DisposePtr p) (fun _ => noErr).
Proof. apply logs_sys. Qed.
Lemma logs_DisposeHandle h : logs_one (DisposeHandle h) (T_DisposeHandle h) (fun _ => noErr).
Proof. apply logs_sys. Qed.
Lemma logs_HLock h : logs_one (HLock h) (T_HLock h) (fun _ => noErr).
Proof. apply logs_sys. Qed.
Lemma logs_HUnlock h : logs_one (HUnlock h) (T_HUnlock h) (fun _ => noErr).
Proof. apply logs_sys. Qed.
Lemma logs_Gestalt s v : logs_one (Gestalt s v) (T_Gestalt s) fst.
Proof. apply logs_trap. Qed.
Lemma logs_CreateShortcutMovieFile spec cr sc fl d t :
  logs_one (CreateShortcutMovieFile spec cr sc fl d t)
           (T_CreateShortcutMovieFile spec cr sc fl d t) id.
Proof. apply logs_trap. Qed.
Lemma logs_FSpDelete spec : logs_one (FSpDelete spec) (T_FSpDelete spec) id.
Proof. apply logs_trap. Qed.
Lemma logs_FSpCreate spec c t s :
  logs_one (FSpCreate spec c t s) (T_FSpCreate spec c t s) id.
Proof. apply logs_trap. Qed.
Lemma logs_FSpOpenDF spec p r :
  logs_one (FSpOpenDF spec p r) (T_FSpOpenDF spec p) fst.
Proof. apply logs_trap. Qed.
Lemma logs_SetFPos r mode off :
  logs_one (SetFPos r mode off) (T_SetFPos r mode off) id.
Proof. apply logs_trap. Qed.
Lemma logs_FSWrite r n buf : logs_one (FSWrite r n buf) (T_FSWrite r n buf) fst.
Proof. apply logs_trap. Qed.
Lemma logs_SetEOF r n : logs_one (SetEOF r n) (T_SetEOF r n) id.
Proof. apply logs_trap. Qed.
Lemma logs_FSClose r : logs_one (FSClose r) (T_FSClose r) id.
Proof. apply logs_trap. Qed.
Lemma logs_GetVRefNum r v : logs_one (GetVRefNum r v) (T_GetVRefNum r) fst.
Proof. apply logs_trap. Qed.
Lemma logs_FlushVol v : logs_one (FlushVol v) (T_FlushVol v) id.
Proof. apply logs_trap. Qed.

End OneCall.

#[export] Hint Resolve logs_GetHandleSize logs_GetPtrSize logs_NewPtrClear
  logs_NewHandleClear logs_BlockMove logs_PtrAndHand logs_DisposePtr
  logs_DisposeHandle logs_HLock logs_HUnlock logs_Gestalt
  logs_CreateShortcutMovieFile logs_FSpDelete logs_FSpCreate logs_FSpOpenDF
  logs_SetFPos logs_FSWrite logs_SetEOF logs_FSClose logs_GetVRefNum
  logs_FlushVol : calls.

(** Run the next call of the program in the goal, keeping its result and
    the state it leaves abstract. *)
Ltac run_call :=
  match goal with
  | |- context [?p ?m] =>
      lazymatch type of m with Machine => idtac end;
      let H := fresh "H" in
      let r := fresh "r" in
      let w := fresh "w" in
      eassert (H : logs_one p _ _) by (solve [eauto with calls]);
      destruct (H m) as (r & w & ->); clear H
  end;
  cbv beta iota zeta; cbn [fst snd world inject log id].

Ltac split_code :=
  match goal with
  | E : (?e =? noErr) = _ |- context [if ?e =? noErr then _ else _] =>
      rewrite E
  | |- context [if ?e =? noErr then _ else _] =>
      let E := fresh "E" in destruct (e =? noErr) eqn:E
  | |- context [let '(_, _) := ?p in _] => is_var p; destruct p
  end;
  cbv beta iota zeta; cbn [fst snd world inject log id].

Section WriterLog.

Variable hdr : Headers.

Lemma writer_log (theHandle : Handle) (spec : FSSpec) (m : Machine) :
  exists evs,
    log (snd (QTShortCut_WriteHandleToFile hdr theHandle spec m)) = log m ++ evs
    /\ inject (snd (QTShortCut_WriteHandleToFile hdr theHandle spec m)) = inject m
    /\ stops_at_first_failure evs = true
    /\ create_follows_delete evs = true
    /\ fst (QTShortCut_WriteHandleToFile hdr theHandle spec m) = writer_result evs.
Proof.
  unfold QTShortCut_WriteHandleToFile, bind, ret.
  destruct (theHandle =? NULL).
  { run_call. eexists. repeat split. }
  run_call.
  destruct (r =? 0).
  { run_call. eexists. rewrite <- !app_assoc. repeat split. }
  do 3 run_call.
  destruct (TARGET_OS_MAC hdr);
  repeat first [run_call | split_code].
  all: eexists; rewrite <- ?app_assoc; (split; [reflexivity|]); (split; [reflexivity|]).
  all: unfold writer_result, stops_at_first_failure, first_failure, create_follows_delete, failed_step, no_file_call, forallb; cbn [is_file_call is_delete fst snd app negb andb].
  all: repeat match goal with E : (_ =? noErr) = _ |- _ => rewrite ?E; clear E end.
  all: repeat match goal with
              | |- context [?e =? noErr] => destruct (Z.eqb_spec e noErr)
              end.
  all: rewrite bool_decide_eq_true_2 by reflexivity.
  all: cbn [negb andb]; repeat split; auto.
Qed.

End WriterLog.

(** ** Building the movie atom *)

Section Memory.

Lemma to_long_small (z : Z) : - 2 ^ 31 <= z < 2 ^ 31 -> to_long z = z.
Proof. intros H. unfold to_long. rewrite Z.mod_small; lia. Qed.

Lemma wrap32_small (z : Z) : 0 <= z < 2 ^ 32 -> wrap32 z = z.
Proof. intros H. unfold wrap32. now apply Z.mod_small. Qed.

Lemma length_be32 (x : Z) : length (be32 x) = 4%nat.
Proof. reflexivity. Qed.

Lemma splice_at (pre mid post new : list byte) (off : Z) :
  Z.of_nat (length pre) = off -> length mid = length new ->
  splice (pre ++ mid ++ post) off new = pre ++ new ++ post.
Proof.
  intros Ho Hl. unfold splice. subst off. rewrite Nat2Z.id.
  rewrite take_app_length. f_equal. f_equal.
  rewrite drop_app_add, <- Hl. apply drop_app_length.
Qed.

Lemma splice_head (mid post new : list byte) :
  length mid = length new -> splice (mid ++ post) 0 new = new ++ post.
Proof. intros H. now apply (splice_at [] mid post new 0). Qed.

(** Six 4-byte stores at offsets 0, 4, ..., 20 fill a cleared 24-byte
    block with the six values in order. *)
Lemma header_spliced (a b c d e f : list byte) :
  length a = 4%nat -> length b = 4%nat -> length c = 4%nat ->
  length d = 4%nat -> length e = 4%nat -> length f = 4%nat ->
  splice (splice (splice (splice (splice (splice
    (repeat x00 24) 0 a) 4 b) 8 c) 12 d) 16 e) 20 f
  = a ++ b ++ c ++ d ++ e ++ f.
Proof.
  intros Ha Hb Hc Hd He Hf.
  destruct a as [|? [|? [|? [|? [|]]]]]; try discriminate Ha.
  destruct b as [|? [|? [|? [|? [|]]]]]; try discriminate Hb.
  destruct c as [|? [|? [|? [|? [|]]]]]; try discriminate Hc.
  destruct d as [|? [|? [|? [|? [|]]]]]; try discriminate Hd.
  destruct e as [|? [|? [|? [|? [|]]]]]; try discriminate He.
  destruct f as [|? [|? [|? [|? [|]]]]]; try discriminate Hf.
  reflexivity.
Qed.

Lemma length_splice (l new : list byte) (off : Z) :
  0 <= off -> off + Z.of_nat (length new) <= Z.of_nat (length l) ->
  length (splice l off new) = length l.
Proof.
  intros H0 Hn. unfold splice.
  rewrite !length_app, length_take, length_drop. lia.
Qed.

Lemma splice_nil (new : list byte) : splice [] 0 new = new.
Proof. unfold splice. cbn. now rewrite drop_nil, app_nil_r. Qed.

Lemma zeros_split (a b : Z) :
  0 <= a -> 0 <= b ->
  repeat x00 (Z.to_nat (a + b))
  = repeat x00 (Z.to_nat a) ++ repeat x00 (Z.to_nat b).
Proof. intros Ha Hb. now rewrite Z2Nat.inj_add, repeat_app by lia. Qed.

Lemma fresh_block_spec (w : World) :
  fresh_block w <> NULL /\ heap w !! fresh_block w = None.
Proof.
  unfold fresh_block.
  pose proof (is_fresh ({[NULL]} ∪ dom (heap w))) as H.
  split.
  - intros E. apply H. rewrite E. set_solver.
  - apply not_elem_of_dom. set_solver.
Qed.

Lemma block_size_contents (w : World) (a : Z) (bytes : list byte) :
  contents w a = Some bytes -> Z.of_nat (length bytes) <= maxSize ->
  block_size w a = Z.of_nat (length bytes).
Proof.
  unfold contents, block_size. intros H Hn.
  destruct (heap w !! a) as [b|]; [|discriminate].
  injection H as <-. apply to_long_small. unfold maxSize in Hn. lia.
Qed.

End Memory.

Section Build.

Variable hdr : Headers.

Lemma set_heap_twice (w : World) (h1 h2 : gmap Z Block) :
  set_heap (set_heap w h1) h2 = set_heap w h2.
Proof. reflexivity. Qed.

Lemma write_mem_block (w : World) (a off : Z) (b : Block) (new : list byte) :
  heap w !! a = Some b -> 0 <= off ->
  off + Z.of_nat (length new) <= Z.of_nat (length (bdata b)) ->
  write_mem w (AtBlock a off) new
  = set_heap w (<[a := {| bdata := splice (bdata b) off new;
                          blocked := blocked b |}]> (heap w)).
Proof.
  intros Hb H0 Hn. unfold write_mem. rewrite Hb.
  destruct (Z.leb_spec 0 off); [|lia].
  destruct (Z.leb_spec (off + Z.of_nat (length new)) (Z.of_nat (length (bdata b))));
    [reflexivity|lia].
Qed.

Lemma Endian32_Swap4_same (x : Z) : Endian32_Swap4 x x x x = Endian32_Swap x.
Proof. reflexivity. Qed.

(** A size field's value: the macro asks [GetPtrSize] four times on a
    little-endian build and once on a big-endian one, for the same answer
    each time, and nothing but the log changes. *)
Lemma NtoB_of_size (p : Ptr) (k : Z) (m : Machine) :
  NtoB_of hdr (size <- GetPtrSize p ;; ret (k + size)) m
  = (NtoB hdr (k + block_size (world m) p),
     {| world := world m; inject := inject m;
        log := log m ++ repeat (T_GetPtrSize p, noErr)
                          (if TARGET_RT_LITTLE_ENDIAN hdr then 4 else 1) |}).
Proof.
  unfold NtoB_of, NtoB, EndianU32_NtoB.
  destruct (TARGET_RT_LITTLE_ENDIAN hdr);
    rewrite !bind_run; unfold GetPtrSize; rewrite !sys_run;
    cbn [fst snd world inject log ret repeat]; rewrite <- ?app_assoc;
    reflexivity.
Qed.

Lemma build_spec (theDataRef : Handle) (tag : OSType) (e : OSErr)
    (bytes : list byte) (m : Machine) :
  contents (world m) theDataRef = Some bytes ->
  Z.of_nat (length bytes) <= maxSize ->
  build_post hdr theDataRef tag bytes m (build_movie_atom hdr theDataRef tag e m).
Proof.
  intros Hc Hn.
  pose proof (block_size_contents _ _ _ Hc Hn) as Hsz.
  unfold build_movie_atom, bind, ret.
  unfold GetHandleSize at 1. rewrite sys_run. cbv beta iota zeta. cbn [fst snd].
  rewrite Hsz.
  unfold NewPtrClear.
  match goal with |- context [trap ?c ?code ?refuse ?sem ?m] =>
    destruct (trap_inv c code refuse sem m) as (p & w & -> & Hp) end.
  cbv beta iota zeta.
  destruct Hp as [(e' & Hi & He' & -> & _) | [_ Hp]];
    [left; eexists _, e'; split; [|split; [exact Hi|exact He']]; reflexivity|].
  unfold new_block in Hp. cbn [world] in Hp.
  set (N := Z.of_nat (length bytes)) in *.
  assert (HN : 0 <= N <= 2 ^ 31 - 1) by (unfold maxSize in Hn; lia).
  change sizeof_OSType with 4 in *.
  rewrite (wrap32_small (4 + N)) in * by lia.
  destruct (Z.ltb_spec (to_long (4 + N)) 0) as [Hneg | Hpos].
  { injection Hp as <- <-. right.
    destruct (Z.le_gt_cases (N + 4) maxSize) as [Hle|]; [|unfold N in *; lia].
    rewrite to_long_small in Hneg; unfold maxSize in Hle; lia. }
  assert (HN4 : N + 4 <= maxSize).
  { unfold maxSize. destruct (Z.le_gt_cases (N + 4) (2 ^ 31 - 1)); [assumption|].
    exfalso. unfold to_long in Hpos.
    replace (4 + N + 2 ^ 31) with (4 + N - 2 ^ 31 + 1 * 2 ^ 32) in Hpos by lia.
    rewrite Z.mod_add, Z.mod_small in Hpos; lia. }
  rewrite (to_long_small (4 + N)) in Hp by (unfold maxSize in HN4; lia).
  injection Hp as <- <-.
  destruct (fresh_block_spec (world m)) as [Hp0 Hpfresh].
  set (p := fresh_block (world m)) in *.
  destruct (Z.eqb_spec p NULL) as [|_]; [contradiction|].
  assert (Hpd : p <> theDataRef).
  { intros <-. unfold contents in Hc. rewrite Hpfresh in Hc. discriminate. }
  (* BlockMove of the type *)
  unfold BlockMove at 1. rewrite sys_run. cbv beta iota zeta.
  cbn [fst snd world inject log read_mem]. unfold NtoB.
  rewrite long_image_NtoB.
  change (firstn (Z.to_nat 4) (be32 tag)) with (be32 tag).
  erewrite write_mem_block;
    [ | cbn [heap set_heap]; apply lookup_insert_eq | lia
      | cbn [bdata]; rewrite length_be32, repeat_length; lia ].
  cbn [bdata blocked heap set_heap]. rewrite insert_insert_eq.
  rewrite zeros_split by lia.
  rewrite splice_head, set_heap_twice by reflexivity.
  (* BlockMove of the data reference *)
  unfold GetHandleSize at 1. rewrite sys_run. cbv beta iota zeta.
  cbn [fst snd world inject log].
  assert (Hc1 : forall H b, heap (set_heap (world m) (<[p:=b]> H)) !! theDataRef
                       = H !! theDataRef).
  { intros H b. cbn [heap set_heap]. now apply lookup_insert_ne. }
  assert (Hsz1 : forall b, block_size (set_heap (world m) (<[p:=b]> (heap (world m))))
                             theDataRef = N).
  { intros b. unfold block_size in *. now rewrite Hc1. }
  rewrite Hsz1.
  unfold BlockMove at 1. rewrite sys_run. cbv beta iota zeta.
  cbn [fst snd world inject log read_mem]. rewrite Hc1.
  assert (Hb0 : exists b0, heap (world m) !! theDataRef = Some b0 /\ bdata b0 = bytes).
  { generalize Hc. unfold contents.
    destruct (heap (world m) !! theDataRef) as [b0|]; [|discriminate].
    intros [= Hd]. now exists b0. }
  destruct Hb0 as (b0 & Hb0 & Hb0d). rewrite Hb0, Hb0d.
  change (Z.to_nat 0) with 0%nat. rewrite drop_0.
  replace (take (Z.to_nat N) bytes) with bytes
    by (unfold N; rewrite Nat2Z.id; symmetry; apply firstn_all).
  erewrite write_mem_block;
    [ | cbn [heap set_heap]; apply lookup_insert_eq | lia
      | cbn [bdata]; rewrite length_app, length_be32, repeat_length;
        unfold N; lia ].
  cbn [bdata blocked heap set_heap]. rewrite insert_insert_eq, set_heap_twice.
  rewrite <- (app_nil_r (repeat x00 (Z.to_nat N))).
  rewrite (splice_at (be32 tag) (repeat x00 (Z.to_nat N)) [] bytes 4)
    by (rewrite ?repeat_length; unfold N; try lia; reflexivity).
  rewrite app_nil_r.
  (* the handle for the three headers *)
  set (Bp := {| bdata := be32 tag ++ bytes; blocked := false |}).
  change (to_long (wrap32 (3 * wrap32 (2 * sizeof_long)))) with 24.
  unfold NewHandleClear.
  match goal with |- context [trap ?c ?code ?refuse ?sem ?m] =>
    destruct (trap_inv c code refuse sem m) as (h & w & -> & Hh) end.
  cbv beta iota zeta.
  destruct Hh as [(e' & Hi & He' & -> & _) | [_ Hh]];
    [left; eexists _, e'; split; [|split; [exact Hi|exact He']]; reflexivity|].
  unfold new_block in Hh. cbn [world] in Hh.
  change (24 <? 0) with false in Hh. cbv iota in Hh. injection Hh as <- <-.
  rewrite set_heap_twice.
  match goal with |- context [fresh_block ?w] =>
    destruct (fresh_block_spec w) as [Hh0 Hhfresh]; set (h := fresh_block w) in * end.
  cbn [heap set_heap] in Hhfresh.
  destruct (Z.eqb_spec h NULL) as [|_]; [contradiction|].
  assert (Hhp : h <> p) by (intros ->; rewrite lookup_insert_eq in Hhfresh; discriminate).
  assert (Hhd : h <> theDataRef).
  { intros ->. rewrite lookup_insert_ne, Hb0 in Hhfresh by assumption. discriminate. }
  assert (Hszp : forall b, block_size (set_heap (world m)
                             (<[h:=b]> (<[p:=Bp]> (heap (world m))))) p = 4 + N).
  { intros b. unfold block_size. cbn [heap set_heap].
    rewrite lookup_insert_ne, lookup_insert_eq by assumption.
    cbn [bdata Bp]. rewrite length_app, length_be32.
    rewrite to_long_small; unfold maxSize in HN4; unfold N; lia. }
  cbn [inject log].
  change (wrap32 (2 * sizeof_long)) with 8.
  pose proof (NtoB_of_size p) as Hfield. unfold bind, ret in Hfield.
  repeat first
    [ progress (rewrite Hfield; cbv beta iota zeta;
                cbn [fst snd world inject log]; rewrite Hszp; unfold NtoB)
    | progress (unfold GetPtrSize at 1; rewrite sys_run; cbv beta iota zeta;
                cbn [fst snd world inject log]; rewrite Hszp)
    | progress (unfold poke_long at 1; cbv beta iota zeta;
                cbn [fst snd world inject log];
                rewrite long_image_to_long, long_image_NtoB;
                erewrite write_mem_block;
                [ | cbn [heap set_heap]; apply lookup_insert_eq | lia
                  | cbn [bdata];
                    rewrite ?length_splice, ?length_be32; simpl length; lia ];
                cbn [bdata blocked heap set_heap];
                rewrite insert_insert_eq, set_heap_twice) ].
  change [x00; x00; x00; x00; x00; x00; x00; x00; x00; x00; x00; x00;
          x00; x00; x00; x00; x00; x00; x00; x00; x00; x00; x00; x00]
    with (repeat x00 24).
  rewrite header_spliced by apply length_be32.
  (* PtrAndHand *)
  unfold PtrAndHand.
  match goal with |- context [trap ?c ?code ?refuse ?sem ?m] =>
    destruct (trap_inv c code refuse sem m) as (r & w & -> & Hr) end.
  cbv beta iota zeta. cbn [id].
  destruct Hr as [(e' & Hi & He' & -> & _) | [_ Hr]].
  { unfold id. destruct (Z.eqb_spec e' noErr); [contradiction|]. left.
    eexists _, e'. split; [|split; [exact Hi|exact He']]. reflexivity. }
  cbn [world heap set_heap] in Hr. rewrite lookup_insert_eq in Hr.
  cbv zeta in Hr. cbn [read_mem heap set_heap bdata blocked] in Hr.
  rewrite lookup_insert_ne, lookup_insert_eq in Hr by assumption.
  cbn [bdata Bp] in Hr. change (Z.to_nat 0) with 0%nat in Hr. rewrite drop_0 in Hr.
  rewrite firstn_all2 in Hr
    by (rewrite length_app, length_be32; unfold N; lia).
  rewrite insert_insert_eq, set_heap_twice in Hr.
  match type of Hr with context [Z.of_nat (length ?l)] =>
    assert (Hlen : Z.of_nat (length l) = N + 28)
      by (rewrite !length_app, !length_be32; unfold N; lia);
    rewrite Hlen in Hr end.
  destruct (Z.ltb_spec maxSize (N + 28)) as [Hbig | Hfit].
  { injection Hr as <- <-. change (negb (memFullErr =? noErr)) with true.
    cbv iota. right. exact Hbig. }
  injection Hr as <- <-. change (negb (noErr =? noErr)) with false. cbv iota.
  unfold build_post, contents.
  cbn [world heap set_heap files fcbs inject].
  rewrite lookup_insert_eq.
  rewrite (lookup_insert_ne _ h p), lookup_insert_eq by assumption.
  rewrite !lookup_insert_ne, Hb0 by assumption.
  cbn [fmap option_fmap option_map bdata Bp]. rewrite Hb0d.
  repeat split; try assumption; try lia; try congruence.
  unfold shortcut_layout. fold N.
  replace (24 + N + 4) with (3 * 8 + (4 + N)) by lia.
  replace (16 + N + 4) with (2 * 8 + (4 + N)) by lia.
  replace (8 + N + 4) with (1 * 8 + (4 + N)) by lia.
  reflexivity.
Qed.

End Build.

Section BuildLog.

Variable hdr : Headers.

(** Building the movie atom makes Memory Manager calls only. *)
Lemma build_log (theDataRef : Handle) (tag : OSType) (e : OSErr) (m : Machine) :
  exists evs,
    log (snd (build_movie_atom hdr theDataRef tag e m)) = log m ++ evs
    /\ no_file_call evs = true
    /\ existsb (fun ev => is_native (fst ev)) evs = false
    /\ hd_error evs = Some (T_GetHandleSize theDataRef, noErr).
Proof.
  unfold build_movie_atom, NtoB_of, bind, ret.
  destruct (TARGET_RT_LITTLE_ENDIAN hdr).
  all: repeat first
    [ run_call
    | progress (unfold poke_long; cbv beta iota zeta; cbn [fst snd world inject log])
    | match goal with
      | |- context [if ?x =? NULL then _ else _] => destruct (x =? NULL)
      | |- context [if negb (?x =? noErr) then _ else _] => destruct (x =? noErr)
      end; cbv beta iota zeta; cbn [fst snd world inject log negb] ].
  all: eexists; rewrite <- ?app_assoc; (split; [reflexivity|]); repeat split.
Qed.

End BuildLog.

(** ** The File Manager calls of the writer, one by one *)

Section FileCalls.

Ltac trap_cases :=
  match goal with
  | |- context [trap ?c ?code ?refuse ?sem ?m] =>
      destruct (trap_inv c code refuse sem m)
        as (r & w & -> & [(? & ? & ? & -> & ->) | [Hf Hs]])
  end.

Lemma injected_intro (m : Machine) c e :
  inject m c = Some e -> e <> noErr -> injected m.
Proof. intros. now exists c, e. Qed.

Lemma FSpDelete_spec (spec : FSSpec) (m : Machine) :
  let '(r, m') := FSpDelete spec m in
  inject m' = inject m
  /\ ((world m' = set_files (world m) (delete spec (files (world m))) /\ r = noErr)
      \/ (world m' = world m
          /\ (files (world m) !! spec = None
              \/ injected m \/ busy (world m) spec = true
              \/ exists f, files (world m) !! spec = Some f /\ flocked f = true))).
Proof.
  unfold FSpDelete. trap_cases; cbn [inject world].
  - split; [reflexivity|]. right. split; [reflexivity|]. right. left.
    eauto using injected_intro.
  - split; [reflexivity|]. revert Hs.
    destruct (files (world m) !! spec) as [f|] eqn:E.
    + destruct (busy (world m) spec) eqn:Eb; [intros [= <- <-]; eauto 10|].
      destruct (flocked f) eqn:El; intros [= <- <-]; eauto 10.
    + intros [= <- <-]. auto.
Qed.

Lemma FSpCreate_spec (spec : FSSpec) (c t : OSType) (s : Z) (m : Machine) :
  let '(r, m') := FSpCreate spec c t s m in
  inject m' = inject m
  /\ ((r = noErr /\ files (world m) !! spec = None
       /\ world m' = set_files (world m) (<[spec := new_file c t]> (files (world m))))
      \/ (r <> noErr /\ world m' = world m
          /\ (injected m \/ is_Some (files (world m) !! spec)))).
Proof.
  unfold FSpCreate. trap_cases; cbn [inject world id].
  - split; [reflexivity|]. right. eauto 6 using injected_intro.
  - split; [reflexivity|]. revert Hs.
    destruct (files (world m) !! spec) as [f|] eqn:E; intros [= <- <-].
    + right. repeat split; eauto; discriminate.
    + left. auto.
Qed.

Lemma FSpOpenDF_spec (spec : FSSpec) (perm r0 : Z) (m : Machine) :
  is_Some (files (world m) !! spec) ->
  let '((r, ref), m') := FSpOpenDF spec perm r0 m in
  inject m' = inject m
  /\ ((r = noErr /\ fcbs (world m) !! ref = None /\ busy (world m) spec = false
       /\ world m' = set_fcbs (world m)
                       (<[ref := {| fcbSpec := spec; fcbMark := 0; fcbOpen := true |}]>
                          (fcbs (world m))))
      \/ (r <> noErr /\ world m' = world m
          /\ (injected m \/ busy (world m) spec = true))).
Proof.
  intros [f Hfile]. unfold FSpOpenDF. trap_cases; cbn [inject world fst].
  - split; [reflexivity|]. right. eauto 6 using injected_intro.
  - destruct r as [r ref]. split; [reflexivity|].
    rewrite Hfile in Hs. revert Hs.
    destruct (busy (world m) spec) eqn:Eb; intros [= <- <- <-].
    + right. repeat split; auto; discriminate.
    + left. repeat split.
      apply not_elem_of_dom.
      pose proof (is_fresh ({[0]} ∪ dom (fcbs (world m)))). set_solver.
Qed.

Lemma SetFPos_spec (ref off : Z) (fcb : FCB) (f : File) (m : Machine) :
  open_file (world m) ref = Some (fcb, f) ->
  0 <= off <= Z.of_nat (length (fdata f)) ->
  let '(r, m') := SetFPos ref fsFromStart off m in
  inject m' = inject m
  /\ ((r = noErr /\ world m' = set_mark (world m) ref fcb off)
      \/ (r <> noErr /\ world m' = world m /\ injected m)).
Proof.
  intros Ho Hoff. unfold SetFPos. trap_cases; cbn [inject world id].
  - split; [reflexivity|]. right. eauto 6 using injected_intro.
  - split; [reflexivity|]. rewrite Ho in Hs.
    change (fsFromStart =? fsFromStart) with true in Hs. cbv beta iota zeta in Hs.
    destruct (Z.ltb_spec off 0); [lia|].
    destruct (Z.ltb_spec (Z.of_nat (length (fdata f))) off); [lia|].
    injection Hs as <- <-. auto.
Qed.

Lemma FSWrite_spec (ref n : Z) (buf : Addr) (fcb : FCB) (f : File) (m : Machine) :
  open_file (world m) ref = Some (fcb, f) ->
  0 <= n -> flocked f = false ->
  let '((r, n'), m') := FSWrite ref n buf m in
  inject m' = inject m
  /\ ((r = noErr /\ n' = n
       /\ world m' = set_mark
                       (set_data (world m) (fcbSpec fcb) f
                          (splice (fdata f) (fcbMark fcb) (read_mem (world m) buf n)))
                       ref fcb (fcbMark fcb + n))
      \/ (r <> noErr /\ world m' = world m /\ injected m)).
Proof.
  intros Ho Hn Hl. unfold FSWrite. trap_cases; cbn [inject world fst].
  - split; [reflexivity|]. right. eauto 6 using injected_intro.
  - destruct r as [r n']. split; [reflexivity|]. rewrite Ho, Hl in Hs.
    destruct (Z.ltb_spec n 0); [lia|]. injection Hs as <- <- <-. auto.
Qed.

Lemma SetEOF_spec (ref n : Z) (fcb : FCB) (f : File) (m : Machine) :
  open_file (world m) ref = Some (fcb, f) -> 0 <= n ->
  let '(r, m') := SetEOF ref n m in
  inject m' = inject m
  /\ ((r = noErr
       /\ world m' = set_mark
                       (set_data (world m) (fcbSpec fcb) f
                          (firstn (Z.to_nat n) (fdata f)
                           ++ repeat x00 (Z.to_nat n - length (fdata f))))
                       ref fcb (Z.min (fcbMark fcb) n))
      \/ (r <> noErr /\ world m' = world m /\ injected m)).
Proof.
  intros Ho Hn. unfold SetEOF. trap_cases; cbn [inject world id].
  - split; [reflexivity|]. right. eauto 6 using injected_intro.
  - split; [reflexivity|]. rewrite Ho in Hs.
    destruct (Z.ltb_spec n 0); [lia|]. injection Hs as <- <-. auto.
Qed.

Lemma FSClose_spec (ref : Z) (fcb : FCB) (m : Machine) :
  fcbs (world m) !! ref = Some fcb -> fcbOpen fcb = true ->
  let '(r, m') := FSClose ref m in
  inject m' = inject m
  /\ ((r = noErr
       /\ world m' = set_fcbs (world m)
                       (<[ref := {| fcbSpec := fcbSpec fcb; fcbMark := fcbMark fcb;
                                    fcbOpen := false |}]> (fcbs (world m))))
      \/ (r <> noErr /\ world m' = world m /\ injected m)).
Proof.
  intros Hr Ho. unfold FSClose. trap_cases; cbn [inject world id].
  - split; [reflexivity|]. right. eauto 6 using injected_intro.
  - split; [reflexivity|]. rewrite Hr, Ho in Hs. injection Hs as <- <-. auto.
Qed.

Lemma GetVRefNum_spec (ref v : Z) (fcb : FCB) (m : Machine) :
  fcbs (world m) !! ref = Some fcb ->
  let '((r, v'), m') := GetVRefNum ref v m in
  inject m' = inject m /\ world m' = world m
  /\ (r = noErr
      \/ (r <> noErr
          /\ (injected m \/ (fcbOpen fcb = false /\ strictRefNum (world m) = true)))).
Proof.
  intros Hr. unfold GetVRefNum. trap_cases; cbn [inject world fst].
  - repeat split. right. eauto 6 using injected_intro.
  - destruct r as [r v']. rewrite Hr in Hs.
    destruct (fcbOpen fcb) eqn:Eo; destruct (strictRefNum (world m)) eqn:Es;
      cbn [orb negb] in Hs; injection Hs as <- <- <-; repeat split; auto.
Qed.

Lemma FlushVol_spec (v : Z) (m : Machine) :
  let '(r, m') := FlushVol v m in
  inject m' = inject m /\ world m' = world m
  /\ (r = noErr \/ (r <> noErr /\ injected m)).
Proof.
  unfold FlushVol. trap_cases; cbn [inject world id].
  - repeat split. right. eauto using injected_intro.
  - injection Hs as <- <-. auto.
Qed.

End FileCalls.

(** ** The writer on the state of the host *)

Section WriterWorld.

Variable hdr : Headers.

Lemma injected_same (m m' : Machine) :
  inject m' = inject m -> injected m' -> injected m.
Proof. unfold injected. now intros ->. Qed.

Lemma busy_set_files (w : World) (F : gmap FSSpec File) (spec : FSSpec) :
  busy (set_files w F) spec = busy w spec.
Proof. reflexivity. Qed.

(** Look an open reference number up in a state given explicitly. *)
Ltac solve_open :=
  unfold open_file, set_mark, set_data;
  cbn [world fcbs files set_fcbs set_files fcbOpen fcbSpec fcbMark];
  rewrite ?lookup_insert_eq; cbn [fcbOpen fcbSpec fcbMark];
  rewrite ?lookup_insert_eq; reflexivity.

(** A step has failed: the steps after it are skipped. *)
Ltac fail_out E :=
  repeat first
    [ rewrite E; cbv beta iota zeta
    | match goal with
      | |- context [if TARGET_OS_MAC ?h then _ else _] => destruct (TARGET_OS_MAC h)
      end; cbv beta iota zeta ];
  unfold HUnlock; rewrite sys_run; cbv beta iota zeta;
  right; (split; [apply Z.eqb_neq; exact E|]).

Lemma writer_spec (theHandle : Handle) (spec : FSSpec) (bytes : list byte)
    (m : Machine) :
  theHandle <> NULL ->
  contents (world m) theHandle = Some bytes ->
  0 < Z.of_nat (length bytes) <= maxSize ->
  let '(r, m') := QTShortCut_WriteHandleToFile hdr theHandle spec m in
  (r = noErr
   /\ files (world m') !! spec = Some (written_file hdr bytes)
   /\ forall s, s <> spec -> files (world m') !! s = files (world m) !! s)
  \/ (r <> noErr /\ writer_blocked hdr spec m).
Proof.
  intros Hnull Hc HN.
  pose proof (block_size_contents _ _ _ Hc (proj2 HN)) as Hsz.
  set (N := Z.of_nat (length bytes)) in *.
  unfold QTShortCut_WriteHandleToFile, bind, ret.
  destruct (Z.eqb_spec theHandle NULL) as [|_]; [contradiction|].
  unfold GetHandleSize at 1. rewrite sys_run. cbv beta iota zeta. cbn [fst snd world].
  rewrite Hsz. destruct (Z.eqb_spec N 0) as [|_]; [lia|].
  unfold HLock at 1. rewrite sys_run. cbv beta iota zeta. cbn [fst snd world inject log].
  (* the removal *)
  match goal with |- context [FSpDelete spec ?m1] =>
    pose proof (FSpDelete_spec spec m1) as Hd;
    destruct (FSpDelete spec m1) as [r1 [w2 i2 l2]] end.
  cbn [world inject] in Hd. destruct Hd as [-> Hd].
  set (why := injected m \/ busy (world m) spec = true
              \/ (exists f, files (world m) !! spec = Some f /\ flocked f = true)).
  assert (Hw2 : heap w2 = alter (set_lock true) theHandle (heap (world m))
                /\ fcbs w2 = fcbs (world m)
                /\ strictRefNum w2 = strictRefNum (world m)
                /\ (forall s, s <> spec -> files w2 !! s = files (world m) !! s)
                /\ (files w2 !! spec = None \/ why)).
  { destruct Hd as [[-> _] | [-> Hd]];
      cbn [heap fcbs strictRefNum files set_files set_heap];
      (split; [reflexivity|]); (split; [reflexivity|]); (split; [reflexivity|]).
    - split; [intros s Hs; now apply lookup_delete_ne|].
      left. apply lookup_delete_eq.
    - split; [reflexivity|]. unfold why.
      destruct Hd as [Hd | [Hd | [Hd | Hd]]]; auto. }
  clear Hd. destruct Hw2 as (Hheap & Hfcbs & Hstrict & Hothers & Habsent).
  assert (Hblocked : why -> writer_blocked hdr spec m).
  { unfold why, writer_blocked. tauto. }
  (* the creation *)
  match goal with |- context [FSpCreate ?a ?b ?c ?d ?m1] =>
    pose proof (FSpCreate_spec a b c d m1) as Hs;
    destruct (FSpCreate a b c d m1) as [r2 [w3 i3 l3]] end.
  cbn [world inject] in Hs.
  destruct Hs as [-> [(-> & Hfree & ->) | (Hne & -> & Hwhy)]].
  2:{ apply Z.eqb_neq in Hne as E. fail_out E; apply Hblocked.
      all: destruct Hwhy as [Hwhy | [f Hf]]; [left; exact Hwhy|].
      all: destruct Habsent as [Habs | ?]; [congruence | assumption]. }
  change (noErr =? noErr) with true. cbv beta iota zeta.
  (* the opening *)
  match goal with |- context [FSpOpenDF ?a ?b ?c ?m1] =>
    assert (Hs := FSpOpenDF_spec a b c m1
                    ltac:(cbn [world files set_files];
                          now rewrite lookup_insert_eq));
    destruct (FSpOpenDF a b c m1) as [[r3 ref] [w4 i4 l4]] end.
  cbn [world inject files set_files] in Hs.
  destruct Hs as [-> [(-> & Hrfree & Hnotbusy & ->) | (Hne & -> & Hwhy)]].
  2:{ apply Z.eqb_neq in Hne as E. fail_out E; apply Hblocked.
      all: rewrite busy_set_files in Hwhy; unfold busy in Hwhy;
        rewrite Hfcbs in Hwhy; unfold why, busy; tauto. }
  change (noErr =? noErr) with true. cbv beta iota zeta.
  assert (Hinj : forall w l, injected {| world := w; inject := inject m; log := l |}
                        -> writer_blocked hdr spec m).
  { intros w l Hi. left. eapply injected_same; [|exact Hi]. reflexivity. }
  (* the mark to the start *)
  match goal with |- context [SetFPos ?r ?mode ?off ?m1] =>
    eassert (Ho : open_file (world m1) r = Some _) by solve_open;
    assert (Hs := SetFPos_spec r off _ _ m1 Ho ltac:(cbn [fdata new_file length]; lia));
    destruct (SetFPos r mode off m1) as [r5 [w5 i5 l5]]; clear Ho end.
  cbn [world inject] in Hs.
  destruct Hs as [-> [(-> & ->) | (Hne & -> & Hwhy)]].
  2:{ apply Z.eqb_neq in Hne as E. fail_out E; eauto. }
  change (noErr =? noErr) with true. cbv beta iota zeta.
  (* the write *)
  assert (Hread : forall W, heap W = heap w2 ->
                     read_mem W (AtBlock theHandle 0) N = bytes).
  { intros W HW. unfold read_mem. rewrite HW, Hheap, lookup_alter_eq.
    generalize Hc. unfold contents.
    destruct (heap (world m) !! theHandle) as [b|]; [|discriminate].
    intros [= Hb]. cbn. rewrite Hb, drop_0. unfold N.
    now rewrite Nat2Z.id, firstn_all. }
  match goal with |- context [FSWrite ?r ?n ?buf ?m1] =>
    eassert (Ho : open_file (world m1) r = Some _) by solve_open;
    assert (Hs := FSWrite_spec r n buf _ _ m1 Ho ltac:(lia) ltac:(reflexivity));
    destruct (FSWrite r n buf m1) as [[r6 n6] [w6 i6 l6]]; clear Ho end.
  cbn [world inject] in Hs.
  destruct Hs as [-> [(-> & -> & ->) | (Hne & -> & Hwhy)]].
  2:{ apply Z.eqb_neq in Hne as E. fail_out E; eauto. }
  change (noErr =? noErr) with true. cbv beta iota zeta.
  rewrite Hread by reflexivity.
  cbn [fcbSpec fcbMark fdata new_file]. rewrite splice_nil.
  (* the mark to the end *)
  match goal with |- context [SetFPos ?r ?mode ?off ?m1] =>
    eassert (Ho : open_file (world m1) r = Some _) by solve_open;
    assert (Hs := SetFPos_spec r off _ _ m1 Ho ltac:(cbn [fdata]; fold N; lia));
    destruct (SetFPos r mode off m1) as [r7 [w7 i7 l7]]; clear Ho end.
  cbn [world inject] in Hs.
  destruct Hs as [-> [(-> & ->) | (Hne & -> & Hwhy)]].
  2:{ apply Z.eqb_neq in Hne as E. fail_out E; eauto. }
  change (noErr =? noErr) with true. cbv beta iota zeta.
  (* the end of file *)
  match goal with |- context [SetEOF ?r ?n ?m1] =>
    eassert (Ho : open_file (world m1) r = Some _) by solve_open;
    assert (Hs := SetEOF_spec r n _ _ m1 Ho ltac:(lia));
    destruct (SetEOF r n m1) as [r8 [w8 i8 l8]]; clear Ho end.
  cbn [world inject] in Hs.
  destruct Hs as [-> [(-> & ->) | (Hne & -> & Hwhy)]].
  2:{ apply Z.eqb_neq in Hne as E. fail_out E; eauto. }
  change (noErr =? noErr) with true. cbv beta iota zeta.
  cbn [fcbSpec fcbMark fdata].
  replace (Z.to_nat N - length bytes)%nat with 0%nat by (unfold N; lia).
  replace (take (Z.to_nat N) bytes) with bytes
    by (unfold N; rewrite Nat2Z.id; symmetry; apply firstn_all).
  cbn [repeat]. rewrite app_nil_r.
  (* the state once the data is in the file *)
  match goal with |- context [FSClose ref {| world := ?W; inject := _; log := _ |}] =>
    set (W8 := W) end.
  assert (Hfile : files W8 !! spec = Some (written_file hdr bytes)).
  { unfold W8, set_mark, set_data. cbn [files set_files set_fcbs].
    now rewrite lookup_insert_eq. }
  assert (Hrest : forall s, s <> spec -> files W8 !! s = files (world m) !! s).
  { intros s Hs. unfold W8, set_mark, set_data. cbn [files set_files set_fcbs].
    rewrite !lookup_insert_ne by congruence. now apply Hothers. }
  assert (Hfcb : fcbs W8 !! ref
                 = Some {| fcbSpec := spec; fcbMark := Z.min (0 + N) N; fcbOpen := true |}).
  { unfold W8, set_mark, set_data. cbn [fcbs set_files set_fcbs].
    now rewrite lookup_insert_eq. }
  assert (Hstrict8 : strictRefNum W8 = strictRefNum (world m)).
  { rewrite <- Hstrict. reflexivity. }
  clearbody W8.
  (* the close *)
  match goal with |- context [FSClose ?r ?m1] =>
    assert (Hs := FSClose_spec r _ m1 Hfcb eq_refl);
    destruct (FSClose r m1) as [r9 [w9 i9 l9]] end.
  cbn [world inject] in Hs.
  destruct Hs as [-> [(-> & ->) | (Hne & -> & Hwhy)]].
  2:{ apply Z.eqb_neq in Hne as E. fail_out E; eauto. }
  destruct (TARGET_OS_MAC hdr) eqn:Emac; cbv beta iota zeta.
  - (* the flush of the volume *)
    change (noErr =? noErr) with true. cbv beta iota zeta.
    match goal with |- context [GetVRefNum ?r ?v ?m1] =>
      assert (Hs := GetVRefNum_spec r v _ m1
                      ltac:(cbn [world fcbs set_fcbs]; apply lookup_insert_eq));
      destruct (GetVRefNum r v m1) as [[r10 v10] [w10 i10 l10]] end.
    cbn [world inject fcbOpen strictRefNum] in Hs. destruct Hs as (-> & -> & Hs).
    destruct Hs as [-> | (Hne & Hwhy)].
    2:{ apply Z.eqb_neq in Hne as E. rewrite E. cbv beta iota zeta.
        unfold HUnlock. rewrite sys_run. cbv beta iota zeta.
        right. split; [assumption|].
        destruct Hwhy as [Hwhy | [_ Hwhy]]; [eauto|].
        right. right. right. split; [assumption|]. now rewrite <- Hstrict8. }
    change (noErr =? noErr) with true. cbv beta iota zeta.
    match goal with |- context [FlushVol ?v ?m1] =>
      assert (Hs := FlushVol_spec v m1);
      destruct (FlushVol v m1) as [r11 [w11 i11 l11]] end.
    cbn [world inject] in Hs. destruct Hs as (-> & -> & Hs).
    unfold HUnlock. rewrite sys_run. cbv beta iota zeta.
    cbn [world files set_heap set_fcbs].
    destruct Hs as [-> | (Hne & Hwhy)]; [left; auto | right; eauto].
  - unfold HUnlock. rewrite sys_run. cbv beta iota zeta.
    cbn [world files set_heap set_fcbs]. left. auto.
Qed.

End WriterWorld.

(** ** Which calls a program makes *)

Section CallsWithin.

Lemma within_ret {A} P (a : A) : calls_within P (ret a).
Proof. intros m. exists []. now rewrite app_nil_r. Qed.

Lemma within_bind {A B} P (c : M A) (k : A -> M B) :
  calls_within P c -> (forall a, calls_within P (k a)) ->
  calls_within P (bind c k).
Proof.
  intros Hc Hk m. rewrite bind_run.
  destruct (Hc m) as (e1 & H1 & P1).
  destruct (Hk (fst (c m)) (snd (c m))) as (e2 & H2 & P2).
  exists (e1 ++ e2). rewrite H2, H1, app_assoc. split; [reflexivity|].
  apply forallb_forall. intros x Hx.
  rewrite forallb_forall in P1, P2.
  apply in_app_or in Hx as [Hx|Hx]; auto.
Qed.

Lemma within_one {A} (P : Call -> bool) (p : M A) c code :
  logs_one p c code -> P c = true -> calls_within P p.
Proof.
  intros Hp HP m. destruct (Hp m) as (r & w & ->).
  exists [(c, code r)]. cbn. now rewrite HP.
Qed.

Lemma within_weaken {A} (P Q : Call -> bool) (c : M A) :
  (forall x, P x = true -> Q x = true) -> calls_within P c -> calls_within Q c.
Proof.
  intros HPQ Hc m. destruct (Hc m) as (evs & H & HP). exists evs.
  split; [exact H|]. rewrite forallb_forall in *. auto.
Qed.

Lemma within_poke P le a off v : calls_within P (poke_long le a off v).
Proof. intros m. exists []. now rewrite app_nil_r. Qed.

Lemma within_locals P : calls_within P uninitialised_locals.
Proof. intros m. exists []. now rewrite app_nil_r. Qed.

End CallsWithin.

(** Decompose a program into its calls. *)
Ltac within :=
  repeat first
    [ apply within_ret | apply within_poke | apply within_locals
    | eapply within_one; [solve [eauto with calls] | reflexivity]
    | apply within_bind; [|intros]
    | match goal with
      | |- calls_within _ (if ?b then _ else _) => destruct b
      | |- calls_within _ (let '(_, _) := ?p in _) => destruct p
      | |- calls_within _ (match ?b with Bailed _ _ _ => _ | Complete _ _ => _ end) =>
          destruct b
      end ].

Section ProgramCalls.

Variable hdr : Headers.

Lemma writer_within (theHandle : Handle) (spec : FSSpec) :
  calls_within is_writer_call (QTShortCut_WriteHandleToFile hdr theHandle spec).
Proof. unfold QTShortCut_WriteHandleToFile. within. Qed.

Lemma bail_within (p h : Z) (e : OSErr) : calls_within is_dispose (bail p h e).
Proof. unfold bail. within. Qed.

End ProgramCalls.

Section Negotiation.

Variable hdr : Headers.

Lemma no_native_within (P : Call -> bool) (evs : list Event) :
  (forall c, P c = true -> is_native c = false) ->
  forallb (fun ev => P (fst ev)) evs = true -> took_native evs = false.
Proof.
  intros HP H. unfold took_native. rewrite forallb_forall in H.
  apply not_true_is_false. intros E. apply existsb_exists in E as (ev & Hin & Hn).
  rewrite (HP _ (H ev Hin)) in Hn. discriminate.
Qed.

Lemma no_manual_within (P : Call -> bool) (evs : list Event) :
  (forall c, P c = true -> is_manual c = false) ->
  forallb (fun ev => P (fst ev)) evs = true -> took_manual evs = false.
Proof.
  intros HP H. unfold took_manual. rewrite forallb_forall in H.
  apply not_true_is_false. intros E. apply existsb_exists in E as (ev & Hin & Hn).
  rewrite (HP _ (H ev Hin)) in Hn. discriminate.
Qed.

(** What follows the building of the atom: the writer, then the code at
    [bail]. *)
Lemma finish_within (spec : FSSpec) (b : Built) :
  calls_within (fun c => is_writer_call c || is_dispose c)
    (match b with
     | Bailed myErr myData myMoovAtom => bail myData myMoovAtom myErr
     | Complete myData myMoovAtom =>
         myErr <- QTShortCut_WriteHandleToFile hdr myMoovAtom spec ;;
         bail myData myMoovAtom myErr
     end).
Proof.
  destruct b.
  - eapply within_weaken; [|apply bail_within]. intros x ->. apply orb_true_r.
  - apply within_bind; [|intros a].
    + eapply within_weaken; [|apply writer_within]. now intros x ->.
    + eapply within_weaken; [|apply bail_within]. intros x ->. apply orb_true_r.
Qed.

(** The function after the version query, by the three ways it can go. *)
Lemma after_gestalt (theDataRef : Handle) (tag : OSType) (spec : FSSpec)
    (m m1 : Machine) (e : OSErr) (v : Z) :
  Gestalt gestaltQuickTime 0 m = ((e, v), m1) ->
  let r := QTShortCut_CreateShortcutMovieFile hdr theDataRef tag spec m in
  exists evs,
    log (snd r) = log m1 ++ evs
    /\ if negb (e =? noErr) then
         fst r = e /\ forallb (fun ev => is_dispose (fst ev)) evs = true
         /\ files (world (snd r)) = files (world m1)
         /\ fcbs (world (snd r)) = fcbs (world m1)
       else if 0x0400 <=? Z.land (Z.shiftr v 16) 0xffff then
         exists c, is_native c = true /\ evs = [(c, fst r)]
       else
         took_native evs = false
         /\ hd_error evs = Some (T_GetHandleSize theDataRef, noErr).
Proof.
  intros HG. cbv zeta.
  unfold QTShortCut_CreateShortcutMovieFile. rewrite bind_run, HG.
  cbv beta iota zeta. cbn [fst snd].
  destruct (negb (e =? noErr)).
  - unfold bail, bind, ret, uninitialised_locals, DisposePtr, DisposeHandle.
    cbv beta iota zeta. destruct (unsetLocals (world m1)) as [p h].
    destruct (negb (p =? NULL)); destruct (negb (h =? NULL));
      rewrite ?sys_run; cbv beta iota zeta; cbn [fst snd world inject log];
      rewrite ?sys_run; cbv beta iota zeta; cbn [fst snd world inject log];
      eexists; rewrite <- ?app_assoc;
      (split; [try reflexivity; symmetry; apply app_nil_r|]); repeat split.
  - destruct (0x0400 <=? Z.land (Z.shiftr v 16) 0xffff).
    + match goal with |- context [CreateShortcutMovieFile ?a ?b ?c ?d ?e ?f ?m0] =>
        destruct (logs_CreateShortcutMovieFile a b c d e f m0) as (r & w & ->) end.
      cbn [fst snd log id]. eexists. split; [reflexivity|]. eexists.
      split; [|reflexivity]. reflexivity.
    + rewrite bind_run.
      destruct (build_log hdr theDataRef tag e m1) as (e1 & H1 & _ & Hn1 & Hhd).
      destruct (finish_within spec (fst (build_movie_atom hdr theDataRef tag e m1))
                  (snd (build_movie_atom hdr theDataRef tag e m1)))
        as (e2 & H2 & P2).
      exists (e1 ++ e2). rewrite H2, H1, app_assoc. split; [reflexivity|]. split.
      * unfold took_native. rewrite existsb_app.
        apply orb_false_intro; [exact Hn1|].
        apply (no_native_within (fun c => is_writer_call c || is_dispose c));
          [|exact P2].
        intros c Hc. destruct c; try reflexivity; discriminate Hc.
      * destruct e1; [discriminate Hhd|]. exact Hhd.
Qed.

End Negotiation.

(** ** Reading a shortcut movie file back *)

Section Layout.

Variable hdr : Headers.

Lemma parse_atom_be32 (size tag : Z) (rest : list byte) :
  parse_atom (be32 size ++ be32 tag ++ rest)
  = Some (wrap32 size, be32 tag, rest).
Proof. unfold parse_atom. rewrite read_be32_be32. reflexivity. Qed.

Lemma length_shortcut_layout (tag : OSType) (bytes : list byte) :
  Z.of_nat (length (shortcut_layout hdr tag bytes))
  = 28 + Z.of_nat (length bytes).
Proof.
  unfold shortcut_layout. cbv zeta. rewrite !length_app, !length_be32. lia.
Qed.

Lemma parse_shortcut_layout (tag : OSType) (bytes : list byte) :
  28 + Z.of_nat (length bytes) < 2 ^ 32 ->
  parse_shortcut (shortcut_layout hdr tag bytes)
  = Some ((28 + Z.of_nat (length bytes), be32 (MovieAID hdr)),
          (20 + Z.of_nat (length bytes), be32 (MovieDataRefAliasAID hdr)),
          (12 + Z.of_nat (length bytes), be32 (DataRefAID hdr)),
          be32 tag ++ bytes).
Proof.
  intros Hn. unfold parse_shortcut, shortcut_layout. cbv zeta.
  rewrite !parse_atom_be32, !wrap32_small by lia.
  replace (24 + Z.of_nat (length bytes) + 4) with (28 + Z.of_nat (length bytes)) by lia.
  replace (16 + Z.of_nat (length bytes) + 4) with (20 + Z.of_nat (length bytes)) by lia.
  replace (8 + Z.of_nat (length bytes) + 4) with (12 + Z.of_nat (length bytes)) by lia.
  reflexivity.
Qed.

End Layout.

(** ** The claims *)

(** The whole function on a sample host with QuickTime 3: the manual
    branch runs to the end, the target holds the shortcut movie, and the
    data reference is as it was. *)
Example shortcut_movie_written :
  let r := QTShortCut_CreateShortcutMovieFile sampleHeaders 1 url target m0 in
  fst r = noErr
  /\ fdata <$> files (world (snd r)) !! target
     = Some (shortcut_layout sampleHeaders url longRef)
  /\ contents (world (snd r)) 1 = Some longRef.
Proof. vm_compute. repeat split. Qed.

(** The flags the native routine is passed, as a [long]. *)
Example native_flags :
  Z.lor createMovieFileDeleteCurFile createMovieFileDontCreateResFile
  = -1879048192.
Proof. reflexivity. Qed.

(** C1. For every payload (tag, bytes) the manual branch, when it reaches
    the writer, has built in the handle it passes on a contiguous buffer
    laid out as: big-endian size 24+N+4 and the MovieAID tag, big-endian
    size 16+N+4 and the MovieDataRefAliasAID tag, big-endian size 8+N+4 and
    the DataRefAID tag, the payload's own tag big-endian at offset 24, the
    N payload bytes from offset 28; reading the three nested headers back
    gives sizes len(buffer), len(buffer)-8 and len(buffer)-16 and leaves
    the tag followed by the bytes.  This holds on either byte order of the
    host.  The payload is what the handle holds, so N is at most the
    largest [Size]; and the buffer is built whenever the host refuses no
    call and the atom fits a block. *)
Theorem movie_atom_layout (hdr : Headers) (theDataRef : Handle) (tag : OSType)
    (myErr : OSErr) (bytes : list byte) (m : Machine) :
  contents (world m) theDataRef = Some bytes ->
  Z.of_nat (length bytes) <= maxSize ->
  let N := Z.of_nat (length bytes) in
  (forall myData myMoovAtom m',
     build_movie_atom hdr theDataRef tag myErr m = (Complete myData myMoovAtom, m') ->
     exists buffer,
       contents (world m') myMoovAtom = Some buffer
       /\ buffer = be32 (24 + N + 4) ++ be32 (MovieAID hdr)
                   ++ be32 (16 + N + 4) ++ be32 (MovieDataRefAliasAID hdr)
                   ++ be32 (8 + N + 4) ++ be32 (DataRefAID hdr)
                   ++ be32 tag ++ bytes
       /\ firstn 4 (skipn 24 buffer) = be32 tag
       /\ skipn 28 buffer = bytes
       /\ parse_shortcut buffer
          = Some ((Z.of_nat (length buffer), be32 (MovieAID hdr)),
                  (Z.of_nat (length buffer) - 8, be32 (MovieDataRefAliasAID hdr)),
                  (Z.of_nat (length buffer) - 16, be32 (DataRefAID hdr)),
                  be32 tag ++ bytes))
  /\ ((forall c, inject m c = None) -> 28 + N <= maxSize ->
      exists myData myMoovAtom m',
        build_movie_atom hdr theDataRef tag myErr m = (Complete myData myMoovAtom, m')).
Proof.
  intros Hc Hn N.
  pose proof (build_spec hdr theDataRef tag myErr bytes m Hc Hn) as H.
  split.
  - intros myData myMoovAtom m' Hb.
    rewrite Hb in H. cbn [build_post] in H.
    destruct H as (Hbuf & _ & _ & Hfit & _).
    exists (shortcut_layout hdr tag bytes). split; [exact Hbuf|].
    split; [reflexivity|]. split; [reflexivity|]. split; [reflexivity|].
    rewrite length_shortcut_layout.
    rewrite parse_shortcut_layout by (unfold maxSize in Hfit; lia).
    fold N. repeat f_equal; lia.
  - intros Hq Hfit.
    destruct (build_movie_atom hdr theDataRef tag myErr m) as [[e p h | p h] m'];
      [exfalso|eauto].
    destruct H as [(c & e' & _ & Hi & _) | H].
    + rewrite Hq in Hi. discriminate.
    + fold N in H. lia.
Qed.

Lemma movie_atom_layout_witness :
  exists myData myMoovAtom m' buffer,
    build_movie_atom sampleHeaders 1 url noErr m0 = (Complete myData myMoovAtom, m')
    /\ contents (world m') myMoovAtom = Some buffer
    /\ buffer = be32 (24 + 14 + 4) ++ be32 (MovieAID sampleHeaders)
                ++ be32 (16 + 14 + 4) ++ be32 (MovieDataRefAliasAID sampleHeaders)
                ++ be32 (8 + 14 + 4) ++ be32 (DataRefAID sampleHeaders)
                ++ be32 url ++ longRef
    /\ parse_shortcut buffer
       = Some ((Z.of_nat (length buffer), be32 (MovieAID sampleHeaders)),
               (Z.of_nat (length buffer) - 8,
                be32 (MovieDataRefAliasAID sampleHeaders)),
               (Z.of_nat (length buffer) - 16, be32 (DataRefAID sampleHeaders)),
               be32 url ++ longRef).
Proof.
  destruct (movie_atom_layout sampleHeaders 1 url noErr longRef m0 eq_refl
              ltac:(vm_compute; discriminate)) as [Hl Hc].
  destruct (Hc (fun c => eq_refl) ltac:(vm_compute; discriminate))
    as (p & h & m' & Hr).
  destruct (Hl p h m' Hr) as (buffer & H1 & H2 & _ & _ & H5).
  exists p, h, m', buffer. repeat split; assumption.
Defined.

(** C6. For the empty payload with type tag "alis" the manual branch builds
    exactly the 28 bytes [0000001C] MovieAID [00000014]
    MovieDataRefAliasAID [0000000C] DataRefAID "alis", sizes big-endian;
    an empty payload is valid input: on a host that refuses no call the
    atom is completed. *)
Theorem empty_payload_atom (hdr : Headers) (theDataRef : Handle) (myErr : OSErr)
    (m : Machine) :
  contents (world m) theDataRef = Some [] ->
  let bytes28 := [x00; x00; x00; x1c] ++ be32 (MovieAID hdr)
                 ++ [x00; x00; x00; x14] ++ be32 (MovieDataRefAliasAID hdr)
                 ++ [x00; x00; x00; x0c] ++ be32 (DataRefAID hdr)
                 ++ [x61; x6c; x69; x73] in
  length bytes28 = 28%nat
  /\ (forall myData myMoovAtom m',
        build_movie_atom hdr theDataRef alis myErr m
        = (Complete myData myMoovAtom, m') ->
        contents (world m') myMoovAtom = Some bytes28)
  /\ ((forall c, inject m c = None) ->
      exists myData myMoovAtom m',
        build_movie_atom hdr theDataRef alis myErr m
        = (Complete myData myMoovAtom, m')).
Proof.
  intros Hc bytes28.
  pose proof (build_spec hdr theDataRef alis myErr [] m Hc
                ltac:(vm_compute; discriminate)) as H.
  split; [reflexivity|]. split.
  - intros p h m' Hb. rewrite Hb in H. destruct H as (Hbuf & _). exact Hbuf.
  - intros Hq.
    destruct (build_movie_atom hdr theDataRef alis myErr m) as [[e p h | p h] m'];
      [exfalso|eauto].
    destruct H as [(c & e' & _ & Hi & _) | H].
    + rewrite Hq in Hi. discriminate.
    + vm_compute in H. discriminate.
Qed.

Lemma empty_payload_atom_witness :
  exists myData myMoovAtom m',
    build_movie_atom macHeaders 3 alis noErr m0 = (Complete myData myMoovAtom, m')
    /\ contents (world m') myMoovAtom
       = Some ([x00; x00; x00; x1c] ++ be32 (MovieAID macHeaders)
               ++ [x00; x00; x00; x14] ++ be32 (MovieDataRefAliasAID macHeaders)
               ++ [x00; x00; x00; x0c] ++ be32 (DataRefAID macHeaders)
               ++ [x61; x6c; x69; x73]).
Proof.
  destruct (empty_payload_atom macHeaders 3 noErr m0 eq_refl) as (_ & Hb & Hc).
  destruct (Hc (fun c => eq_refl)) as (p & h & m' & Hr).
  exists p, h, m'. split; [exact Hr|]. exact (Hb p h m' Hr).
Defined.



Section WriterChecks.

Variable hdr : Headers.

(** The two tests at the head of the writer. *)
Lemma writer_param_check (theHandle : Handle) (spec : FSSpec) (m : Machine) :
  theHandle = NULL \/ block_size (world m) theHandle = 0 ->
  let r := QTShortCut_WriteHandleToFile hdr theHandle spec m in
  fst r = paramErr
  /\ files (world (snd r)) = files (world m)
  /\ fcbs (world (snd r)) = fcbs (world m)
  /\ exists evs, log (snd r) = log m ++ evs /\ no_file_call evs = true.
Proof.
  intros H. cbv zeta.
  unfold QTShortCut_WriteHandleToFile, bind, ret, GetHandleSize, HUnlock.
  destruct (Z.eqb_spec theHandle NULL) as [E|E].
  - rewrite sys_run. cbv beta iota zeta.
    cbn [fst snd world inject log files fcbs set_heap].
    repeat split. now exists [(T_HUnlock theHandle, noErr)].
  - destruct H as [H|H]; [contradiction|].
    rewrite sys_run. cbv beta iota zeta. cbn [fst snd world inject log]. rewrite H.
    change (0 =? 0) with true. cbv beta iota zeta. rewrite sys_run.
    cbv beta iota zeta.
    cbn [fst snd world inject log files fcbs set_heap]. repeat split.
    exists [(T_GetHandleSize theHandle, noErr); (T_HUnlock theHandle, noErr)].
    now rewrite <- app_assoc.
Qed.

Lemma writer_success_needs_buffer (theHandle : Handle) (spec : FSSpec)
    (bytes : list byte) (m : Machine) :
  contents (world m) theHandle = Some bytes ->
  Z.of_nat (length bytes) <= maxSize ->
  fst (QTShortCut_WriteHandleToFile hdr theHandle spec m) = noErr ->
  theHandle <> NULL /\ 0 < Z.of_nat (length bytes).
Proof.
  intros Hc Hn Hok.
  pose proof (block_size_contents _ _ _ Hc Hn) as Hsz.
  split.
  - intros E. destruct (writer_param_check theHandle spec m (or_introl E)) as [H _].
    rewrite H in Hok. discriminate.
  - destruct (Z.eq_dec (Z.of_nat (length bytes)) 0) as [E|E]; [|lia].
    rewrite E in Hsz.
    destruct (writer_param_check theHandle spec m (or_intror Hsz)) as [H _].
    rewrite H in Hok. discriminate.
Qed.

(** On success the target holds the buffer. *)
Lemma writer_success (theHandle : Handle) (spec : FSSpec) (bytes : list byte)
    (m : Machine) :
  contents (world m) theHandle = Some bytes ->
  Z.of_nat (length bytes) <= maxSize ->
  fst (QTShortCut_WriteHandleToFile hdr theHandle spec m) = noErr ->
  files (world (snd (QTShortCut_WriteHandleToFile hdr theHandle spec m))) !! spec
  = Some (written_file hdr bytes).
Proof.
  intros Hc Hn Hok.
  destruct (writer_success_needs_buffer theHandle spec bytes m Hc Hn Hok) as [Hnull Hpos].
  pose proof (writer_spec hdr theHandle spec bytes m Hnull Hc (conj Hpos Hn)) as H.
  destruct (QTShortCut_WriteHandleToFile hdr theHandle spec m) as [r m'].
  cbn [fst snd] in *. destruct H as [(_ & H & _) | (Hne & _)]; [exact H|contradiction].
Qed.

(** The code the writer returns does not depend on what the removal
    reported. *)
Lemma writer_result_ignores_removal (pre post : list Event) (spec : FSSpec)
    (e e' : OSErr) :
  writer_result (pre ++ (T_FSpDelete spec, e) :: post)
  = writer_result (pre ++ (T_FSpDelete spec, e') :: post).
Proof.
  unfold writer_result.
  assert (Hf : first_failure (pre ++ (T_FSpDelete spec, e) :: post)
               = first_failure (pre ++ (T_FSpDelete spec, e') :: post)).
  { induction pre as [|ev pre IH]; cbn; [reflexivity|]. now rewrite IH. }
  assert (Hn : no_file_call (pre ++ (T_FSpDelete spec, e) :: post)
               = no_file_call (pre ++ (T_FSpDelete spec, e') :: post)).
  { unfold no_file_call. rewrite !forallb_app. reflexivity. }
  now rewrite Hf, Hn.
Qed.

End WriterChecks.

(** C2. When [QTShortCut_WriteHandleToFile] succeeds, the target file holds
    exactly the bytes of the buffer, no more and no less; and a second
    successful write of another buffer to the same target leaves exactly
    the second buffer there, whatever the length of the first (so nothing
    of a longer earlier buffer remains). *)
Theorem written_file_is_buffer (hdr : Headers) (hA hB : Handle) (spec : FSSpec)
    (bufA bufB : list byte) (m : Machine) :
  contents (world m) hA = Some bufA ->
  contents (world m) hB = Some bufB ->
  Z.of_nat (length bufA) <= maxSize ->
  Z.of_nat (length bufB) <= maxSize ->
  let r1 := QTShortCut_WriteHandleToFile hdr hA spec m in
  let r2 := QTShortCut_WriteHandleToFile hdr hB spec (snd r1) in
  fst r1 = noErr ->
  fdata <$> files (world (snd r1)) !! spec = Some bufA
  /\ (fst r2 = noErr -> fdata <$> files (world (snd r2)) !! spec = Some bufB).
Proof.
  intros HA HB HnA HnB r1 r2 Hok1. split.
  - subst r1. now rewrite (writer_success hdr hA spec bufA m HA HnA Hok1).
  - intros Hok2. subst r2.
    assert (HB1 : contents (world (snd r1)) hB = Some bufB).
    { subst r1. now rewrite keeps_writer. }
    now rewrite (writer_success hdr hB spec bufB (snd r1) HB1 HnB Hok2).
Qed.

Lemma written_file_is_buffer_witness :
  let r1 := QTShortCut_WriteHandleToFile sampleHeaders 1 target m0 in
  let r2 := QTShortCut_WriteHandleToFile sampleHeaders 2 target (snd r1) in
  (length shortRef < length longRef)%nat
  /\ fdata <$> files (world (snd r1)) !! target = Some longRef
  /\ fst r2 = noErr
  /\ fdata <$> files (world (snd r2)) !! target = Some shortRef.
Proof.
  cbv zeta.
  assert (Hok1 : fst (QTShortCut_WriteHandleToFile sampleHeaders 1 target m0) = noErr)
    by (vm_compute; reflexivity).
  assert (Hok2 : fst (QTShortCut_WriteHandleToFile sampleHeaders 2 target
                        (snd (QTShortCut_WriteHandleToFile sampleHeaders 1 target m0)))
                 = noErr)
    by (vm_compute; reflexivity).
  destruct (written_file_is_buffer sampleHeaders 1 2 target longRef shortRef m0
              eq_refl eq_refl ltac:(vm_compute; discriminate)
              ltac:(vm_compute; discriminate) Hok1) as [H1 H2].
  split; [vm_compute; lia|]. split; [exact H1|]. split; [exact Hok2|].
  exact (H2 Hok2).
Defined.

(** C9. Called with a null handle, or with a handle to an empty buffer,
    [QTShortCut_WriteHandleToFile] returns [paramErr] without any File
    Manager call: files and access paths are as they were.  A buffer the
    manual branch has built is never empty: it has 28 bytes at least. *)
Theorem writer_rejects_missing_buffer (hdr : Headers) (theHandle : Handle)
    (spec : FSSpec) (m : Machine) :
  theHandle = NULL \/ contents (world m) theHandle = Some [] ->
  let r := QTShortCut_WriteHandleToFile hdr theHandle spec m in
  (fst r = paramErr
   /\ files (world (snd r)) = files (world m)
   /\ fcbs (world (snd r)) = fcbs (world m)
   /\ exists evs, log (snd r) = log m ++ evs /\ no_file_call evs = true)
  /\ forall theDataRef tag myErr bytes mb mb' myData myMoovAtom,
      contents (world mb) theDataRef = Some bytes ->
      Z.of_nat (length bytes) <= maxSize ->
      build_movie_atom hdr theDataRef tag myErr mb = (Complete myData myMoovAtom, mb') ->
      exists buffer,
        contents (world mb') myMoovAtom = Some buffer /\ (28 <= length buffer)%nat.
Proof.
  intros H. split.
  - apply writer_param_check. destruct H as [H|H]; [now left|right].
    now rewrite (block_size_contents _ _ [] H) by (vm_compute; discriminate).
  - intros theDataRef tag myErr bytes mb mb' p h Hc Hn Hb.
    pose proof (build_spec hdr theDataRef tag myErr bytes mb Hc Hn) as Hs.
    rewrite Hb in Hs. destruct Hs as (Hbuf & _).
    exists (shortcut_layout hdr tag bytes). split; [exact Hbuf|].
    pose proof (length_shortcut_layout hdr tag bytes). lia.
Qed.

Lemma writer_rejects_missing_buffer_witness :
  (let r := QTShortCut_WriteHandleToFile sampleHeaders NULL target m0 in
   fst r = paramErr /\ files (world (snd r)) = files (world m0))
  /\ (let r := QTShortCut_WriteHandleToFile sampleHeaders 3 target m0 in
      fst r = paramErr /\ files (world (snd r)) = files (world m0)).
Proof.
  split.
  - destruct (writer_rejects_missing_buffer sampleHeaders NULL target m0
                (or_introl eq_refl)) as [(H1 & H2 & _) _]. now split.
  - destruct (writer_rejects_missing_buffer sampleHeaders 3 target m0
                (or_intror eq_refl)) as [(H1 & H2 & _) _]. now split.
Defined.

(** C8, as the code has it.  Of the writer's steps, the removal is the one
    whose result is not looked at: FSpCreate is called right after
    FSpDelete whatever that reported.  From the creation on, the first step
    that fails is the last File Manager call made, and its result code is
    what the writer returns (the code alone: the stage is not named). *)
Theorem writer_stops_at_first_failure (hdr : Headers) (theHandle : Handle)
    (spec : FSSpec) (m : Machine) :
  exists evs,
    log (snd (QTShortCut_WriteHandleToFile hdr theHandle spec m)) = log m ++ evs
    /\ stops_at_first_failure evs = true
    /\ create_follows_delete evs = true
    /\ fst (QTShortCut_WriteHandleToFile hdr theHandle spec m) = writer_result evs.
Proof.
  destruct (writer_log hdr theHandle spec m) as (evs & H1 & _ & H2 & H3 & H4).
  now exists evs.
Qed.

(** C8 as stated fails, in two ways.  At the first step: the target exists
    and is locked, FSpDelete reports [fLckdErr], FSpCreate is called all
    the same, and what the caller gets is FSpCreate's [dupFNErr].  And in
    what is returned: a write that fails with [ioErr] and a resize that
    fails with [ioErr] give the caller the same value, which names no
    stage. *)
Lemma writer_goes_on_after_failed_removal :
  (let r := QTShortCut_WriteHandleToFile sampleHeaders 1 target mLocked in
   log (snd r)
   = [ (T_GetHandleSize 1, noErr); (T_HLock 1, noErr);
       (T_FSpDelete target, fLckdErr);
       (T_FSpCreate target (kShortcutFileCreator sampleHeaders)
          (kShortcutFileType sampleHeaders) smSystemScript, dupFNErr);
       (T_HUnlock 1, noErr) ]
   /\ fst r = dupFNErr)
  /\ (let rw := QTShortCut_WriteHandleToFile sampleHeaders 1 target mWriteFails in
      let re := QTShortCut_WriteHandleToFile sampleHeaders 1 target mResizeFails in
      first_failure (log (snd rw)) = Some (T_FSWrite 1 14 (AtBlock 1 0), ioErr)
      /\ first_failure (log (snd re)) = Some (T_SetEOF 1 14, ioErr)
      /\ fst rw = fst re).
Proof. vm_compute. repeat split. Qed.

(** C4, as the code has it.  The result of the removal is discarded
    whatever it is, absence or any other failure: FSpCreate is called next
    and the code the writer returns is read off the other steps.  So a
    target that does not exist is no obstacle: if nothing else stands in
    the way, the writer succeeds and the target holds the buffer. *)
Theorem removal_result_is_discarded (hdr : Headers) (theHandle : Handle)
    (spec : FSSpec) (bytes : list byte) (m : Machine) :
  theHandle <> NULL ->
  contents (world m) theHandle = Some bytes ->
  0 < Z.of_nat (length bytes) <= maxSize ->
  let r := QTShortCut_WriteHandleToFile hdr theHandle spec m in
  (files (world m) !! spec = None ->
   (forall c, inject m c = None) ->
   busy (world m) spec = false ->
   TARGET_OS_MAC hdr && strictRefNum (world m) = false ->
   fst r = noErr /\ files (world (snd r)) !! spec = Some (written_file hdr bytes))
  /\ (exists evs,
        log (snd r) = log m ++ evs
        /\ create_follows_delete evs = true
        /\ fst r = writer_result evs)
  /\ (forall pre post e e',
        writer_result (pre ++ (T_FSpDelete spec, e) :: post)
        = writer_result (pre ++ (T_FSpDelete spec, e') :: post)).
Proof.
  intros Hnull Hc Hn r. split; [|split].
  - intros Habs Hq Hbusy Hmac.
    pose proof (writer_spec hdr theHandle spec bytes m Hnull Hc Hn) as H.
    subst r. destruct (QTShortCut_WriteHandleToFile hdr theHandle spec m) as [e m'].
    cbn [fst snd]. destruct H as [(-> & H & _) | (_ & Hb)]; [now split|].
    exfalso. destruct Hb as [(c & e' & Hi & _) | [Hb | [(f & Hf & _) | [Hm Hs]]]].
    + rewrite Hq in Hi. discriminate.
    + congruence.
    + congruence.
    + rewrite Hm, Hs in Hmac. discriminate.
  - destruct (writer_log hdr theHandle spec m) as (evs & H1 & _ & _ & H3 & H4).
    exists evs. auto.
  - intros. apply writer_result_ignores_removal.
Qed.

Lemma removal_result_is_discarded_witness :
  let r := QTShortCut_WriteHandleToFile sampleHeaders 1 target m0 in
  files (world m0) !! target = None
  /\ fst r = noErr
  /\ files (world (snd r)) !! target = Some (written_file sampleHeaders longRef).
Proof.
  destruct (removal_result_is_discarded sampleHeaders 1 target longRef m0)
    as [H _].
  - discriminate.
  - reflexivity.
  - vm_compute. split; [reflexivity|discriminate].
  - split; [reflexivity|]. apply H; reflexivity.
Defined.

(** C4 as stated fails.  On a host where the removal fails with an I/O
    error (not an absence), the writer goes on, every other step succeeds,
    and the caller gets [noErr]: the failure of the removal is not
    reported. *)
Lemma failed_removal_is_not_reported :
  let r := QTShortCut_WriteHandleToFile sampleHeaders 1 target mDeleteFails in
  hd_error (skipn 2 (log (snd r))) = Some (T_FSpDelete target, ioErr)
  /\ (ioErr =? fnfErr) = false
  /\ fst r = noErr.
Proof. vm_compute. repeat split. Qed.

Section Version.

Lemma upper_word (v : Z) :
  Z.land (Z.shiftr v 16) 0xffff = (v / 2 ^ 16) mod 2 ^ 16.
Proof.
  change 0xffff with (Z.ones 16).
  rewrite Z.land_ones, Z.shiftr_div_pow2 by lia. reflexivity.
Qed.

End Version.

(** C5. When the version query succeeds, the native routine is called
    exactly when the upper 16 bits of the version are at least 0x0400, and
    then it is the only call made: none of the routines of the manual
    branch is called.  Below 0x0400 the manual branch is taken and the
    native routine is not called. *)
Theorem native_path_from_version_4 (hdr : Headers) (theDataRef : Handle)
    (tag : OSType) (spec : FSSpec) (m m1 : Machine) (v : Z) :
  Gestalt gestaltQuickTime 0 m = ((noErr, v), m1) ->
  let upper := (v / 2 ^ 16) mod 2 ^ 16 in
  let r := QTShortCut_CreateShortcutMovieFile hdr theDataRef tag spec m in
  exists evs,
    log (snd r) = log m1 ++ evs
    /\ took_native evs = (0x0400 <=? upper)
    /\ took_manual evs = negb (0x0400 <=? upper)
    /\ (0x0400 <= upper -> length evs = 1%nat).
Proof.
  intros HG upper r.
  destruct (after_gestalt hdr theDataRef tag spec m m1 noErr v HG) as (evs & Hl & H).
  change (negb (noErr =? noErr)) with false in H. cbv iota in H.
  rewrite upper_word in H. fold upper in H.
  exists evs. split; [exact Hl|].
  destruct (Z.leb_spec 0x0400 upper) as [Hup|Hup].
  - destruct H as (c & Hc & ->). unfold took_native, took_manual. cbn.
    rewrite Hc. repeat split. destruct c; try discriminate Hc. reflexivity.
  - destruct H as (Hn & Hh). split; [exact Hn|]. split; [|lia].
    destruct evs as [|ev evs]; [discriminate Hh|]. injection Hh as ->. reflexivity.
Qed.

Lemma native_path_from_version_4_witness :
  let run v := log (snd (QTShortCut_CreateShortcutMovieFile sampleHeaders 1 alis
                           target (boot (host blocks0 ∅ (Some v))))) in
  (took_native (run 0x03FF0000) = false /\ took_manual (run 0x03FF0000) = true)
  /\ (took_native (run 0x04000000) = true /\ took_manual (run 0x04000000) = false).
Proof.
  cbv zeta. split.
  - destruct (native_path_from_version_4 sampleHeaders 1 alis target
                (boot (host blocks0 ∅ (Some 0x03FF0000)))
                (snd (Gestalt gestaltQuickTime 0 (boot (host blocks0 ∅ (Some 0x03FF0000)))))
                0x03FF0000 eq_refl) as (evs & Hl & Hn & Hm & _).
    rewrite Hl. unfold took_native, took_manual in *.
    rewrite !existsb_app, Hn, Hm. split; reflexivity.
  - destruct (native_path_from_version_4 sampleHeaders 1 alis target
                (boot (host blocks0 ∅ (Some 0x04000000)))
                (snd (Gestalt gestaltQuickTime 0 (boot (host blocks0 ∅ (Some 0x04000000)))))
                0x04000000 eq_refl) as (evs & Hl & Hn & Hm & _).
    rewrite Hl. unfold took_native, took_manual in *.
    rewrite !existsb_app, Hn, Hm. split; reflexivity.
Defined.

(** C7. When the version query fails, the function returns the query's own
    result code, and neither the native routine nor any routine of the
    manual branch is called: files and access paths are as they were.  A
    query that succeeds with an older version goes on to the manual branch
    instead. *)
Theorem query_failure_is_returned (hdr : Headers) (theDataRef : Handle)
    (tag : OSType) (spec : FSSpec) (m m1 : Machine) (e : OSErr) (v : Z) :
  Gestalt gestaltQuickTime 0 m = ((e, v), m1) ->
  let r := QTShortCut_CreateShortcutMovieFile hdr theDataRef tag spec m in
  exists evs,
    log (snd r) = log m1 ++ evs
    /\ (e <> noErr ->
        fst r = e
        /\ took_native evs = false /\ took_manual evs = false
        /\ files (world (snd r)) = files (world m1)
        /\ fcbs (world (snd r)) = fcbs (world m1))
    /\ (e = noErr -> (v / 2 ^ 16) mod 2 ^ 16 < 0x0400 ->
        took_native evs = false /\ took_manual evs = true).
Proof.
  intros HG r.
  destruct (after_gestalt hdr theDataRef tag spec m m1 e v HG) as (evs & Hl & H).
  exists evs. split; [exact Hl|]. split.
  - intros He. apply Z.eqb_neq in He. rewrite He in H. cbn [negb] in H.
    destruct H as (Hr & Hd & Hf & Hc). repeat split; try assumption.
    + apply (no_native_within is_dispose); [|exact Hd].
      intros c Hc'. destruct c; try reflexivity; discriminate Hc'.
    + apply (no_manual_within is_dispose); [|exact Hd].
      intros c Hc'. destruct c; try reflexivity; discriminate Hc'.
  - intros -> Hold. change (negb (noErr =? noErr)) with false in H. cbv iota in H.
    rewrite upper_word in H.
    destruct (Z.leb_spec 0x0400 ((v / 2 ^ 16) mod 2 ^ 16)); [lia|].
    destruct H as (Hn & Hh). split; [exact Hn|].
    destruct evs as [|ev evs]; [discriminate Hh|]. injection Hh as ->. reflexivity.
Qed.

Lemma query_failure_is_returned_witness :
  let mNoQT := boot (host blocks0 ∅ None) in
  let r := QTShortCut_CreateShortcutMovieFile sampleHeaders 1 alis target mNoQT in
  fst r = gestaltUndefSelectorErr
  /\ log (snd r) = [(T_Gestalt gestaltQuickTime, gestaltUndefSelectorErr)]
  /\ files (world (snd r)) = files (world mNoQT).
Proof.
  cbv zeta.
  destruct (query_failure_is_returned sampleHeaders 1 alis target
              (boot (host blocks0 ∅ None))
              (snd (Gestalt gestaltQuickTime 0 (boot (host blocks0 ∅ None))))
              gestaltUndefSelectorErr 0 eq_refl) as (evs & Hl & H & _).
  destruct H as (Hr & _ & _ & Hf & _); [discriminate|].
  split; [exact Hr|]. split; [vm_compute; reflexivity|]. exact Hf.
Defined.

(** C10. [QTShortCut_WriteHandleToFile] never modifies the buffer it is
    given: whatever the handle, the file and the state of the host, and
    whether the call succeeds or fails, the bytes of the handle's block
    (and of every other block) are after the call what they were before. *)
Theorem writer_leaves_buffer_unchanged (hdr : Headers) (theHandle : Handle)
    (theFSSpecPtr : FSSpec) (m : Machine) :
  let m' := snd (QTShortCut_WriteHandleToFile hdr theHandle theFSSpecPtr m) in
  contents (world m') theHandle = contents (world m) theHandle
  /\ forall a, contents (world m') a = contents (world m) a.
Proof.
  cbv zeta. split; [|intros a]; apply keeps_writer.
Qed.

(** * Further properties of the two functions *)

(** ** The writer and the lock of the handle *)

Section LocksOnly.

Lemma locks_ret {A} h (a : A) : locks_only h (ret a).
Proof. intros m. reflexivity. Qed.

Lemma locks_bind {A B} h (c : M A) (k : A -> M B) :
  locks_only h c -> (forall a, locks_only h (k a)) -> locks_only h (bind c k).
Proof.
  intros Hc Hk m. rewrite bind_run.
  rewrite (Hk (fst (c m)) (snd (c m))). apply Hc.
Qed.

Lemma locks_trap {A} h c code refuse (sem : World -> A * World) :
  (forall w, heap (snd (sem w)) = heap w) ->
  locks_only h (trap c code refuse sem).
Proof.
  intros H m.
  destruct (trap_inv c code refuse sem m)
    as (r & w & -> & [(e & _ & _ & _ & ->) | [_ Hs]]);
    cbn [snd world]; [reflexivity|].
  specialize (H (world m)). rewrite Hs in H. cbn [snd] in H. now rewrite H.
Qed.

Lemma locks_sys {A} h c (sem : World -> A * World) :
  (forall w, alter (set_lock false) h (heap (snd (sem w)))
             = alter (set_lock false) h (heap w)) ->
  locks_only h (sys c sem).
Proof. intros H m. rewrite sys_run. cbn [snd world]. apply H. Qed.

Lemma relock (l : bool) (h : Z) (H : gmap Z Block) :
  alter (set_lock false) h (alter (set_lock l) h H) = alter (set_lock false) h H.
Proof.
  apply map_eq. intros a. rewrite !lookup_alter.
  repeat case_decide; try congruence. now destruct (H !! h) as [[]|].
Qed.

Local Ltac file_heap :=
  apply locks_trap; intros w; unfold open_file, set_mark, set_data;
  repeat case_match; reflexivity.

Lemma locks_writer hdr theHandle spec :
  locks_only theHandle (QTShortCut_WriteHandleToFile hdr theHandle spec).
Proof.
  unfold QTShortCut_WriteHandleToFile.
  repeat first
    [ apply locks_ret
    | apply locks_bind; [|intros]
    | match goal with
      | |- locks_only _ (if ?b then _ else _) => destruct b
      | |- locks_only _ (let '(_, _) := ?p in _) => destruct p
      | |- locks_only _ (GetHandleSize _) => apply locks_sys; reflexivity
      | |- locks_only _ (HLock _) => apply locks_sys; intros w; apply relock
      | |- locks_only _ (HUnlock _) => apply locks_sys; intros w; apply relock
      | |- locks_only _ (FSpDelete _) => unfold FSpDelete; file_heap
      | |- locks_only _ (FSpCreate _ _ _ _) => unfold FSpCreate; file_heap
      | |- locks_only _ (FSpOpenDF _ _ _) => unfold FSpOpenDF; file_heap
      | |- locks_only _ (SetFPos _ _ _) => unfold SetFPos; file_heap
      | |- locks_only _ (FSWrite _ _ _) => unfold FSWrite; file_heap
      | |- locks_only _ (SetEOF _ _) => unfold SetEOF; file_heap
      | |- locks_only _ (FSClose _) => unfold FSClose; file_heap
      | |- locks_only _ (GetVRefNum _ _) => unfold GetVRefNum; file_heap
      | |- locks_only _ (FlushVol _) => unfold FlushVol; file_heap
      end ].
Qed.

End LocksOnly.

Lemma writer_heap (hdr : Headers) (theHandle : Handle)
    (spec : FSSpec) (m : Machine) :
  heap (world (snd (QTShortCut_WriteHandleToFile hdr theHandle spec m)))
  = alter (set_lock false) theHandle (heap (world m)).
Proof.
  pose proof (locks_writer hdr theHandle spec m) as H.
  unfold QTShortCut_WriteHandleToFile in *.
  rewrite bind_run in H |- *. rewrite bind_run in H |- *.
  unfold HUnlock in H |- *. rewrite sys_run in H |- *.
  cbv beta iota zeta in H |- *. unfold ret in H |- *.
  cbn [fst snd world heap set_heap] in H |- *.
  rewrite relock in H. exact H.
Qed.

(** X1. After [QTShortCut_WriteHandleToFile] the block of the handle is
    unlocked, whatever its lock was on entry and however the call ends
    (the lock is a flag, not a count: HUnlock at [bail] undoes a lock the
    caller had set); every other block, and the bytes of every block, are
    exactly as before. *)
Theorem writer_leaves_handle_unlocked (hdr : Headers) (theHandle : Handle)
    (spec : FSSpec) (m : Machine) :
  heap (world (snd (QTShortCut_WriteHandleToFile hdr theHandle spec m)))
  = alter (set_lock false) theHandle (heap (world m)).
Proof. apply writer_heap. Qed.

(** ** The calls of the writer, in their order *)

Section WriterCalls.

Variable hdr : Headers.

Lemma writer_calls (theHandle : Handle) (spec : FSSpec) (m : Machine) :
  exists evs,
    log (snd (QTShortCut_WriteHandleToFile hdr theHandle spec m)) = log m ++ evs
    /\ last evs = Some (T_HUnlock theHandle, noErr)
    /\ existsb is_lock evs
       = negb (theHandle =? NULL) && negb (block_size (world m) theHandle =? 0)
    /\ existsb is_close evs
       = existsb is_open_ok evs && negb (existsb is_failed_transfer evs)
    /\ volume_after_close None evs = true.
Proof.
  unfold QTShortCut_WriteHandleToFile, bind, ret.
  destruct (theHandle =? NULL).
  { run_call. eexists. repeat split. }
  unfold GetHandleSize at 1. rewrite sys_run. cbv beta iota zeta.
  cbn [fst snd world inject log].
  destruct (block_size (world m) theHandle =? 0).
  { run_call. eexists. rewrite <- !app_assoc. repeat split. }
  do 3 run_call.
  destruct (TARGET_OS_MAC hdr);
  repeat first [run_call | split_code].
  all: eexists; rewrite <- ?app_assoc; (split; [reflexivity|]).
  all: unfold is_open_ok, is_close, is_failed_transfer, is_lock;
    cbn [existsb volume_after_close fst snd last app negb andb orb].
  all: rewrite ?bool_decide_eq_true_2 by reflexivity.
  all: repeat match goal with E : (_ =? noErr) = _ |- _ => rewrite ?E; clear E end.
  all: repeat split.
Qed.

End WriterCalls.

(** X2. On every path the last call of the writer is HUnlock on the handle
    it was given, also when that handle is [NULL] or its buffer is empty;
    HLock is called exactly when the handle is not [NULL] and the size is
    not 0. *)
Theorem writer_ends_with_unlock (hdr : Headers) (theHandle : Handle)
    (spec : FSSpec) (m : Machine) :
  exists evs,
    log (snd (QTShortCut_WriteHandleToFile hdr theHandle spec m)) = log m ++ evs
    /\ last evs = Some (T_HUnlock theHandle, noErr)
    /\ existsb is_lock evs
       = negb (theHandle =? NULL) && negb (block_size (world m) theHandle =? 0).
Proof.
  destruct (writer_calls hdr theHandle spec m) as (evs & H1 & H2 & H3 & _).
  now exists evs.
Qed.

(** X3. The writer calls FSClose exactly when FSpOpenDF succeeded and none
    of the two positionings, the write and the resize failed.  So when one
    of these fails after the file was opened, the writer returns without
    closing it. *)
Theorem writer_closes_only_after_success (hdr : Headers) (theHandle : Handle)
    (spec : FSSpec) (m : Machine) :
  exists evs,
    log (snd (QTShortCut_WriteHandleToFile hdr theHandle spec m)) = log m ++ evs
    /\ existsb is_close evs
       = existsb is_open_ok evs && negb (existsb is_failed_transfer evs).
Proof.
  destruct (writer_calls hdr theHandle spec m) as (evs & H1 & _ & _ & H4 & _).
  now exists evs.
Qed.

(** X4. Every GetVRefNum the writer makes (the Mac OS build only) comes
    right after a successful FSClose and asks about the very reference
    number that FSClose has just closed. *)
Theorem volume_is_looked_up_after_close (hdr : Headers) (theHandle : Handle)
    (spec : FSSpec) (m : Machine) :
  exists evs,
    log (snd (QTShortCut_WriteHandleToFile hdr theHandle spec m)) = log m ++ evs
    /\ volume_after_close None evs = true.
Proof.
  destruct (writer_calls hdr theHandle spec m) as (evs & H1 & _ & _ & _ & H5).
  now exists evs.
Qed.

(** ** Hoare triples *)

Section Triples.

Lemma triple_ret {A} (P : World -> Prop) (Q : A -> World -> Prop) (a : A) :
  (forall w, P w -> Q a w) -> triple P (ret a) Q.
Proof. intros H m Hm. now apply H. Qed.

Lemma triple_bind {A B} (P : World -> Prop) (R : A -> World -> Prop)
    (Q : B -> World -> Prop) (c : M A) (k : A -> M B) :
  triple P c R -> (forall a, triple (R a) (k a) Q) -> triple P (bind c k) Q.
Proof.
  intros Hc Hk m Hm. rewrite bind_run. apply Hk. now apply Hc.
Qed.

Lemma triple_weaken {A} (P P' : World -> Prop) (Q Q' : A -> World -> Prop) (c : M A) :
  (forall w, P' w -> P w) -> (forall a w, Q a w -> Q' a w) ->
  triple P c Q -> triple P' c Q'.
Proof. intros HP HQ H m Hm. apply HQ, H, HP, Hm. Qed.

Lemma triple_trap {A} (P : World -> Prop) (Q : A -> World -> Prop)
    c code refuse (sem : World -> A * World) :
  (forall w, P w -> Q (fst (sem w)) (snd (sem w))) ->
  (forall e w, e <> noErr -> P w -> Q (refuse e) w) ->
  triple P (trap c code refuse sem) Q.
Proof.
  intros Hs Hr m Hm.
  destruct (trap_inv c code refuse sem m)
    as (r & w & -> & [(e & _ & He & -> & ->) | [_ Hw]]); cbn [fst snd world].
  - now apply Hr.
  - specialize (Hs (world m) Hm). now rewrite Hw in Hs.
Qed.

Lemma triple_sys {A} (P : World -> Prop) (Q : A -> World -> Prop)
    c (sem : World -> A * World) :
  (forall w, P w -> Q (fst (sem w)) (snd (sem w))) ->
  triple P (sys c sem) Q.
Proof. intros Hs m Hm. rewrite sys_run. cbn [fst snd world]. now apply Hs. Qed.

(** A step that is taken only while no error has been seen. *)
Lemma triple_guarded {A} (I J : World -> Prop) (e : OSErr) (op : M A)
    (code : A -> OSErr) (skip : A) :
  code skip = e ->
  triple (fun w => I w /\ J w) op (fun _ w => I w /\ J w) ->
  triple (fun w => I w /\ (e = noErr -> J w))
         (if e =? noErr then op else ret skip)
         (fun a w => I w /\ (code a = noErr -> J w)).
Proof.
  intros Hskip Hop. destruct (Z.eqb_spec e noErr) as [He|He].
  - eapply triple_weaken; [| |exact Hop].
    + intros w [HI HJ]. auto.
    + intros a w [HI HJ]. auto.
  - apply triple_ret. intros w [HI _]. split; [exact HI|].
    rewrite Hskip. intros E. contradiction.
Qed.

End Triples.

(** ** The writer touches the target only *)

Section WriterFrame.

Variable hdr : Headers.
Variable spec : FSSpec.
Variable w0 : World.

#[local] Abbreviation F := (others_kept spec w0).
#[local] Abbreviation Own := (own_path spec w0).

Lemma kept_own_mark (w : World) (r : Z) (fcb : FCB) (mark : Z) (o : bool) :
  F w -> Own r w -> fcbs w !! r = Some fcb ->
  let w' := set_fcbs w (<[r := {| fcbSpec := fcbSpec fcb; fcbMark := mark;
                                  fcbOpen := o |}]> (fcbs w)) in
  F w' /\ Own r w'.
Proof.
  intros [Hf Hp] [Hnew (fcb' & Hr & Hs)] Hfcb. cbv zeta. split; [split|split].
  - exact Hf.
  - intros r' fcb0 H0. cbn [fcbs set_fcbs].
    rewrite lookup_insert_ne by congruence. now apply Hp.
  - exact Hnew.
  - cbn [fcbs set_fcbs]. rewrite lookup_insert_eq. eexists. split; [reflexivity|].
    cbn [fcbSpec]. congruence.
Qed.

Lemma kept_own_data (w : World) (r : Z) (fcb : FCB) (f : File) (data : list byte) :
  F w -> Own r w -> fcbs w !! r = Some fcb ->
  let w' := set_data w (fcbSpec fcb) f data in
  F w' /\ Own r w' /\ fcbs w' !! r = Some fcb.
Proof.
  intros [Hf Hp] [Hnew (fcb' & Hr & Hs)] Hfcb. cbv zeta.
  assert (fcbSpec fcb = spec) as -> by congruence.
  split; [split|split].
  - intros s Hne. unfold set_data. cbn [files set_files].
    rewrite lookup_insert_ne by congruence. now apply Hf.
  - exact Hp.
  - split; [exact Hnew|]. now exists fcb'.
  - exact Hfcb.
Qed.

Lemma open_file_fcb (w : World) (r : Z) (fcb : FCB) (f : File) :
  open_file w r = Some (fcb, f) -> fcbs w !! r = Some fcb.
Proof.
  unfold open_file. destruct (fcbs w !! r) as [c|]; [|discriminate].
  destruct (fcbOpen c); [|discriminate].
  destruct (files w !! fcbSpec c); [|discriminate]. now intros [= -> _].
Qed.

Lemma frame_SetFPos (r mode off : Z) :
  triple (fun w => F w /\ Own r w) (SetFPos r mode off)
         (fun _ w => F w /\ Own r w).
Proof.
  apply triple_trap; [|auto].
  intros w [HF HO]. destruct (open_file w r) as [[fcb f]|] eqn:E; [|auto].
  apply open_file_fcb in E. cbv zeta.
  repeat case_match; cbn [fst snd]; auto; now apply kept_own_mark.
Qed.

Lemma frame_FSWrite (r n : Z) (buf : Addr) :
  triple (fun w => F w /\ Own r w) (FSWrite r n buf)
         (fun _ w => F w /\ Own r w).
Proof.
  apply triple_trap; [|auto].
  intros w [HF HO]. destruct (open_file w r) as [[fcb f]|] eqn:E; [|auto].
  apply open_file_fcb in E. cbv zeta.
  repeat case_match; cbn [fst snd]; auto.
  match goal with |- context [set_data w ?s ?f ?d] =>
    destruct (kept_own_data w r fcb f d HF HO E) as (HF' & HO' & E') end.
  now apply kept_own_mark.
Qed.

Lemma frame_SetEOF (r n : Z) :
  triple (fun w => F w /\ Own r w) (SetEOF r n)
         (fun _ w => F w /\ Own r w).
Proof.
  apply triple_trap; [|auto].
  intros w [HF HO]. destruct (open_file w r) as [[fcb f]|] eqn:E; [|auto].
  apply open_file_fcb in E. cbv zeta.
  repeat case_match; cbn [fst snd]; auto.
  match goal with |- context [set_data w ?s ?f ?d] =>
    destruct (kept_own_data w r fcb f d HF HO E) as (HF' & HO' & E') end.
  now apply kept_own_mark.
Qed.

Lemma frame_FSClose (r : Z) :
  triple (fun w => F w /\ Own r w) (FSClose r) (fun _ w => F w /\ Own r w).
Proof.
  apply triple_trap; [|auto].
  intros w [HF HO]. destruct (fcbs w !! r) as [fcb|] eqn:E; [|auto].
  repeat case_match; cbn [fst snd]; auto; now apply kept_own_mark.
Qed.

Lemma frame_GetVRefNum (r v : Z) :
  triple (fun w => F w /\ Own r w) (GetVRefNum r v) (fun _ w => F w /\ Own r w).
Proof.
  apply triple_trap; [|auto].
  intros w H. repeat case_match; cbn [fst snd]; auto.
Qed.

Lemma frame_FlushVol (v r : Z) :
  triple (fun w => F w /\ Own r w) (FlushVol v) (fun _ w => F w /\ Own r w).
Proof. apply triple_trap; auto. Qed.

Lemma frame_FSpDelete : triple F (FSpDelete spec) (fun _ w => F w).
Proof.
  apply triple_trap; [|auto].
  intros w [Hf Hp]. repeat case_match; cbn [fst snd]; try (split; assumption).
  split; [|exact Hp]. intros s Hs. cbn [files set_files].
  rewrite lookup_delete_ne by congruence. now apply Hf.
Qed.

Lemma frame_FSpCreate (c t : OSType) (s : Z) :
  triple F (FSpCreate spec c t s) (fun _ w => F w).
Proof.
  apply triple_trap; [|auto].
  intros w [Hf Hp]. repeat case_match; cbn [fst snd]; try (split; assumption).
  split; [|exact Hp]. intros s' Hs. cbn [files set_files].
  rewrite lookup_insert_ne by congruence. now apply Hf.
Qed.

Lemma frame_FSpOpenDF (e : OSErr) (perm r0 : Z) :
  triple F (if e =? noErr then FSpOpenDF spec perm r0 else ret (e, r0))
         (fun a w => F w /\ (fst a = noErr -> Own (snd a) w)).
Proof.
  destruct (Z.eqb_spec e noErr) as [He|He].
  - apply triple_trap.
    + intros w [Hf Hp]. repeat case_match; cbn [fst snd];
        try (split; [split; assumption | discriminate]).
      set (r := fresh ({[0]} ∪ dom (fcbs w))).
      assert (Hr : fcbs w !! r = None).
      { apply not_elem_of_dom. pose proof (is_fresh ({[0]} ∪ dom (fcbs w))) as Hfr.
        fold r in Hfr. set_solver. }
      assert (Hr0 : fcbs w0 !! r = None).
      { destruct (fcbs w0 !! r) as [fcb|] eqn:E; [|reflexivity].
        apply Hp in E. congruence. }
      split; [split|].
      * exact Hf.
      * intros r' fcb E. cbn [fcbs set_fcbs].
        rewrite lookup_insert_ne by congruence. now apply Hp.
      * intros _. split; [exact Hr0|]. cbn [fcbs set_fcbs].
        rewrite lookup_insert_eq. eauto.
    + intros e' w He' HF. split; [exact HF|]. cbn [fst]. contradiction.
  - apply triple_ret. intros w HF. split; [exact HF|]. cbn [fst]. contradiction.
Qed.

Lemma frame_writer (theHandle : Handle) :
  triple F (QTShortCut_WriteHandleToFile hdr theHandle spec) (fun _ w => F w).
Proof.
  unfold QTShortCut_WriteHandleToFile.
  apply triple_bind with (R := fun _ w => F w).
  2:{ intros myErr. apply triple_bind with (R := fun _ w => F w).
      - apply triple_sys. auto.
      - intros _. apply triple_ret. auto. }
  destruct (theHandle =? NULL); [apply triple_ret; auto|].
  eapply triple_bind with (R := fun _ w => F w); [apply triple_sys; auto|].
  intros mySize. destruct (mySize =? 0); [apply triple_ret; auto|].
  eapply triple_bind with (R := fun _ w => F w); [apply triple_sys; auto|]. intros _.
  eapply triple_bind; [apply frame_FSpDelete|]. intros ?. cbv beta.
  eapply triple_bind; [apply frame_FSpCreate|]. intros e1. cbv beta.
  eapply triple_bind; [apply frame_FSpOpenDF|]. intros [e2 r]. cbv beta iota.
  cbn [fst snd].
  eapply triple_bind;
    [apply (triple_guarded F (Own r) e2 _ id); [reflexivity|apply frame_SetFPos]|].
  intros e3. cbv beta. unfold id at 1.
  eapply triple_bind;
    [apply (triple_guarded F (Own r) e3 _ fst); [reflexivity|apply frame_FSWrite]|].
  intros [e4 n]. cbv beta iota. cbn [fst].
  eapply triple_bind;
    [apply (triple_guarded F (Own r) e4 _ id); [reflexivity|apply frame_SetFPos]|].
  intros e5. cbv beta. unfold id at 1.
  eapply triple_bind;
    [apply (triple_guarded F (Own r) e5 _ id); [reflexivity|apply frame_SetEOF]|].
  intros e6. cbv beta. unfold id at 1.
  eapply triple_bind;
    [apply (triple_guarded F (Own r) e6 _ id); [reflexivity|apply frame_FSClose]|].
  intros e7. cbv beta. unfold id at 1.
  destruct (TARGET_OS_MAC hdr).
  - eapply triple_bind;
      [apply (triple_guarded F (Own r) e7 _ fst); [reflexivity|apply frame_GetVRefNum]|].
    intros [e8 v]. cbv beta iota. cbn [fst].
    eapply triple_bind;
      [apply (triple_guarded F (Own r) e8 _ id); [reflexivity|apply frame_FlushVol]|].
    intros e9. apply triple_ret. now intros w [HF _].
  - apply triple_ret. now intros w [HF _].
Qed.

End WriterFrame.

(** X5. Whatever the handle and the host, and however the call ends, the
    writer changes no file other than the target, and every access path
    that was there before the call is there after it, with its file, mark
    and state unchanged. *)
Theorem writer_touches_only_target (hdr : Headers) (theHandle : Handle)
    (spec : FSSpec) (m : Machine) :
  let m' := snd (QTShortCut_WriteHandleToFile hdr theHandle spec m) in
  (forall s, s <> spec -> files (world m') !! s = files (world m) !! s)
  /\ (forall r fcb, fcbs (world m) !! r = Some fcb -> fcbs (world m') !! r = Some fcb).
Proof.
  cbv zeta. apply (frame_writer hdr spec (world m) theHandle m).
  split; auto.
Qed.

(** ** The writer on a host that refuses nothing *)

Section QuietRun.

Variable hdr : Headers.

Lemma fresh_ref_spec (w : World) : fcbs w !! fresh ({[0]} ∪ dom (fcbs w)) = None.
Proof.
  apply not_elem_of_dom. pose proof (is_fresh ({[0]} ∪ dom (fcbs w))) as H.
  set_solver.
Qed.

Lemma busy_intro (w : World) (spec : FSSpec) (r : Z) (fcb : FCB) :
  fcbs w !! r = Some fcb -> fcbOpen fcb = true -> fcbSpec fcb = spec ->
  busy w spec = true.
Proof.
  intros Hr Ho Hs. unfold busy. apply existsb_exists. exists (r, fcb). split.
  - apply list_elem_of_In, elem_of_map_to_list. exact Hr.
  - cbn [snd]. rewrite Ho, bool_decide_eq_true_2; auto.
Qed.

Lemma trap_refused {A} (c : Call) (code : A -> OSErr) (refuse : OSErr -> A)
    (sem : World -> A * World) (m : Machine) (e : OSErr) :
  fault m c = Some e ->
  trap c code refuse sem m
  = (refuse e, {| world := world m; inject := inject m;
                  log := log m ++ [(c, code (refuse e))] |}).
Proof. intros H. unfold trap. now rewrite H. Qed.

Lemma trap_done {A} (c : Call) (code : A -> OSErr) (refuse : OSErr -> A)
    (sem : World -> A * World) (m : Machine) :
  fault m c = None ->
  trap c code refuse sem m
  = (fst (sem (world m)),
     {| world := snd (sem (world m)); inject := inject m;
        log := log m ++ [(c, code (fst (sem (world m))))] |}).
Proof. intros H. unfold trap. rewrite H. now destruct (sem (world m)). Qed.

Lemma fault_code (m : Machine) (c : Call) (e : OSErr) :
  fault m c = Some e -> (e =? noErr) = false.
Proof.
  unfold fault. destruct (inject m c) as [e'|]; [|discriminate].
  destruct (e' =? noErr) eqn:E; [discriminate|]. now intros [= <-].
Qed.

Lemma fault_none (m : Machine) (c : Call) : inject m c = None -> fault m c = None.
Proof. unfold fault. now intros ->. Qed.

Lemma set_files_same (w : World) : set_files w (files w) = w.
Proof. now destruct w. Qed.

Lemma FSpDelete_quiet (spec : FSSpec) (m : Machine) :
  fault m (T_FSpDelete spec) = None ->
  busy (world m) spec = false ->
  (forall f, files (world m) !! spec = Some f -> flocked f = false) ->
  let e := match files (world m) !! spec with Some _ => noErr | None => fnfErr end in
  FSpDelete spec m
  = (e, {| world := set_files (world m) (delete spec (files (world m)));
           inject := inject m; log := log m ++ [(T_FSpDelete spec, e)] |}).
Proof.
  intros Hf Hb Hl. cbv zeta. unfold FSpDelete. rewrite trap_done by assumption.
  destruct (files (world m) !! spec) as [f|] eqn:E.
  - now rewrite Hb, (Hl f eq_refl).
  - now rewrite delete_id, set_files_same by assumption.
Qed.

Lemma FSpCreate_quiet (spec : FSSpec) (c t : OSType) (s : Z) (m : Machine) :
  fault m (T_FSpCreate spec c t s) = None ->
  files (world m) !! spec = None ->
  FSpCreate spec c t s m
  = (noErr, {| world := set_files (world m) (<[spec := new_file c t]> (files (world m)));
               inject := inject m;
               log := log m ++ [(T_FSpCreate spec c t s, noErr)] |}).
Proof.
  intros Hf Hn. unfold FSpCreate. rewrite trap_done by assumption.
  now rewrite Hn.
Qed.

Lemma FSpOpenDF_quiet (spec : FSSpec) (perm r0 : Z) (f : File) (m : Machine) :
  fault m (T_FSpOpenDF spec perm) = None ->
  files (world m) !! spec = Some f ->
  busy (world m) spec = false ->
  let r := fresh ({[0]} ∪ dom (fcbs (world m))) in
  FSpOpenDF spec perm r0 m
  = ((noErr, r),
     {| world := set_fcbs (world m)
                   (<[r := {| fcbSpec := spec; fcbMark := 0; fcbOpen := true |}]>
                      (fcbs (world m)));
        inject := inject m;
        log := log m ++ [(T_FSpOpenDF spec perm, noErr)] |}).
Proof.
  intros Hf Hs Hb. unfold FSpOpenDF. rewrite trap_done by assumption.
  now rewrite Hs, Hb.
Qed.

Lemma SetFPos_quiet (r off : Z) (fcb : FCB) (f : File) (m : Machine) :
  fault m (T_SetFPos r fsFromStart off) = None ->
  open_file (world m) r = Some (fcb, f) ->
  0 <= off <= Z.of_nat (length (fdata f)) ->
  SetFPos r fsFromStart off m
  = (noErr, {| world := set_mark (world m) r fcb off; inject := inject m;
               log := log m ++ [(T_SetFPos r fsFromStart off, noErr)] |}).
Proof.
  intros Hf Ho Hoff. unfold SetFPos. rewrite trap_done by assumption.
  rewrite Ho. change (fsFromStart =? fsFromStart) with true. cbv beta iota zeta.
  destruct (Z.ltb_spec off 0); [lia|].
  destruct (Z.ltb_spec (Z.of_nat (length (fdata f))) off); [lia|]. reflexivity.
Qed.

Lemma FSWrite_quiet (r n : Z) (buf : Addr) (fcb : FCB) (f : File) (m : Machine) :
  fault m (T_FSWrite r n buf) = None ->
  open_file (world m) r = Some (fcb, f) ->
  0 <= n -> flocked f = false ->
  FSWrite r n buf m
  = ((noErr, n),
     {| world := set_mark
                   (set_data (world m) (fcbSpec fcb) f
                      (splice (fdata f) (fcbMark fcb) (read_mem (world m) buf n)))
                   r fcb (fcbMark fcb + n);
        inject := inject m;
        log := log m ++ [(T_FSWrite r n buf, noErr)] |}).
Proof.
  intros Hf Ho Hn Hl. unfold FSWrite. rewrite trap_done by assumption.
  rewrite Ho, Hl. destruct (Z.ltb_spec n 0); [lia|]. reflexivity.
Qed.

Lemma SetEOF_quiet (r n : Z) (fcb : FCB) (f : File) (m : Machine) :
  fault m (T_SetEOF r n) = None ->
  open_file (world m) r = Some (fcb, f) -> 0 <= n ->
  SetEOF r n m
  = (noErr,
     {| world := set_mark
                   (set_data (world m) (fcbSpec fcb) f
                      (firstn (Z.to_nat n) (fdata f)
                       ++ repeat x00 (Z.to_nat n - length (fdata f))))
                   r fcb (Z.min (fcbMark fcb) n);
        inject := inject m;
        log := log m ++ [(T_SetEOF r n, noErr)] |}).
Proof.
  intros Hf Ho Hn. unfold SetEOF. rewrite trap_done by assumption.
  rewrite Ho. destruct (Z.ltb_spec n 0); [lia|]. reflexivity.
Qed.

Lemma FSClose_quiet (r : Z) (fcb : FCB) (m : Machine) :
  fault m (T_FSClose r) = None ->
  fcbs (world m) !! r = Some fcb -> fcbOpen fcb = true ->
  FSClose r m
  = (noErr,
     {| world := set_fcbs (world m)
                   (<[r := {| fcbSpec := fcbSpec fcb; fcbMark := fcbMark fcb;
                              fcbOpen := false |}]> (fcbs (world m)));
        inject := inject m;
        log := log m ++ [(T_FSClose r, noErr)] |}).
Proof.
  intros Hf Hr Ho. unfold FSClose. rewrite trap_done by assumption.
  now rewrite Hr, Ho.
Qed.

Lemma GetVRefNum_quiet (r v : Z) (fcb : FCB) (m : Machine) :
  fault m (T_GetVRefNum r) = None ->
  fcbs (world m) !! r = Some fcb -> fcbOpen fcb = false ->
  GetVRefNum r v m
  = (if strictRefNum (world m) then (rfNumErr, v) else (noErr, vRefNum (fcbSpec fcb)),
     {| world := world m; inject := inject m;
        log := log m ++ [(T_GetVRefNum r,
                          if strictRefNum (world m) then rfNumErr else noErr)] |}).
Proof.
  intros Hf Hr Ho. unfold GetVRefNum. rewrite trap_done by assumption.
  rewrite Hr, Ho. now destruct (strictRefNum (world m)).
Qed.

Lemma FlushVol_quiet (v : Z) (m : Machine) :
  fault m (T_FlushVol v) = None ->
  FlushVol v m
  = (noErr, {| world := world m; inject := inject m;
               log := log m ++ [(T_FlushVol v, noErr)] |}).
Proof. intros Hf. unfold FlushVol. now rewrite trap_done by assumption. Qed.

Lemma world_eq (w1 w2 : World) :
  heap w1 = heap w2 -> files w1 = files w2 -> fcbs w1 = fcbs w2 ->
  qtVersion w1 = qtVersion w2 -> strictRefNum w1 = strictRefNum w2 ->
  unsetLocals w1 = unsetLocals w2 -> w1 = w2.
Proof. destruct w1, w2. cbn. now intros -> -> -> -> -> ->. Qed.

(** The writer on a host that fails no call, except perhaps the write,
    with a target that is free to be replaced. *)
Lemma writer_run (theHandle : Handle) (spec : FSSpec) (bytes : list byte)
    (m : Machine) :
  theHandle <> NULL ->
  contents (world m) theHandle = Some bytes ->
  0 < Z.of_nat (length bytes) <= maxSize ->
  busy (world m) spec = false ->
  (forall f, files (world m) !! spec = Some f -> flocked f = false) ->
  let N := Z.of_nat (length bytes) in
  let r := fresh ({[0]} ∪ dom (fcbs (world m))) in
  let wr := T_FSWrite r N (AtBlock theHandle 0) in
  (forall c, is_write c = false -> inject m c = None) ->
  let unlocked := alter (set_lock false) theHandle (heap (world m)) in
  let start :=
    [ (T_GetHandleSize theHandle, noErr); (T_HLock theHandle, noErr);
      (T_FSpDelete spec,
       match files (world m) !! spec with Some _ => noErr | None => fnfErr end);
      (T_FSpCreate spec (kShortcutFileCreator hdr) (kShortcutFileType hdr)
         smSystemScript, noErr);
      (T_FSpOpenDF spec fsRdWrPerm, noErr);
      (T_SetFPos r fsFromStart 0, noErr) ] in
  QTShortCut_WriteHandleToFile hdr theHandle spec m
  = match fault m wr with
    | Some e =>
        (e, {| world :=
                 set_heap
                   (set_fcbs
                      (set_files (world m)
                         (<[spec := new_file (kShortcutFileCreator hdr)
                                      (kShortcutFileType hdr)]> (files (world m))))
                      (<[r := {| fcbSpec := spec; fcbMark := 0; fcbOpen := true |}]>
                         (fcbs (world m))))
                   unlocked;
               inject := inject m;
               log := log m ++ start ++ [(wr, e); (T_HUnlock theHandle, noErr)] |})
    | None =>
        let flush :=
          if TARGET_OS_MAC hdr then
            if strictRefNum (world m) then [(T_GetVRefNum r, rfNumErr)]
            else [(T_GetVRefNum r, noErr); (T_FlushVol (vRefNum spec), noErr)]
          else [] in
        (if TARGET_OS_MAC hdr && strictRefNum (world m) then rfNumErr else noErr,
         {| world :=
              set_heap
                (set_fcbs
                   (set_files (world m)
                      (<[spec := written_file hdr bytes]> (files (world m))))
                   (<[r := {| fcbSpec := spec; fcbMark := N; fcbOpen := false |}]>
                      (fcbs (world m))))
                unlocked;
            inject := inject m;
            log := log m ++ start
                   ++ [ (wr, noErr); (T_SetFPos r fsFromStart N, noErr);
                        (T_SetEOF r N, noErr); (T_FSClose r, noErr) ]
                   ++ flush ++ [(T_HUnlock theHandle, noErr)] |})
    end.
Proof.
  intros Hnull Hc HN Hfree Hunl N r wr Hq unlocked start.
  pose proof (block_size_contents _ _ _ Hc (proj2 HN)) as Hsz. fold N in Hsz.
  assert (Hquiet : forall c w l, is_write c = false ->
            fault {| world := w; inject := inject m; log := l |} c = None).
  { intros c w l Hne. apply fault_none. cbn [inject]. now apply Hq. }
  assert (Hread : forall W, heap W = alter (set_lock true) theHandle (heap (world m)) ->
                     read_mem W (AtBlock theHandle 0) N = bytes).
  { intros W HW. unfold read_mem. rewrite HW, lookup_alter_eq.
    generalize Hc. unfold contents.
    destruct (heap (world m) !! theHandle) as [b|]; [|discriminate].
    intros [= Hb]. cbn. rewrite Hb, drop_0. unfold N.
    now rewrite Nat2Z.id, firstn_all. }
  unfold QTShortCut_WriteHandleToFile, bind, ret.
  destruct (Z.eqb_spec theHandle NULL) as [|_]; [contradiction|].
  unfold GetHandleSize at 1. rewrite sys_run. cbv beta iota zeta. cbn [fst snd world].
  rewrite Hsz. destruct (Z.eqb_spec N 0) as [|_]; [lia|].
  unfold HLock at 1. rewrite sys_run. cbv beta iota zeta. cbn [fst snd world inject log].
  (* the removal *)
  rewrite FSpDelete_quiet; [ | apply Hquiet; reflexivity | exact Hfree | exact Hunl ].
  cbn [world inject log files set_heap set_files].
  (* the creation *)
  rewrite FSpCreate_quiet;
    [ | apply Hquiet; reflexivity
      | cbn [world files set_files]; apply lookup_delete_eq ].
  cbn [world inject log files set_files]. rewrite insert_delete_eq.
  change (noErr =? noErr) with true. cbv beta iota zeta.
  (* the opening *)
  erewrite FSpOpenDF_quiet;
    [ | apply Hquiet; reflexivity
      | cbn [world files set_files]; apply lookup_insert_eq
      | exact Hfree ].
  cbn [world inject log fcbs set_heap set_files set_fcbs]. fold r.
  change (noErr =? noErr) with true. cbv beta iota zeta.
  (* the mark to the start *)
  erewrite SetFPos_quiet;
    [ | apply Hquiet; reflexivity
      | unfold open_file; cbn [world fcbs files set_fcbs set_files set_heap];
        rewrite lookup_insert_eq; cbn [fcbOpen fcbSpec];
        rewrite lookup_insert_eq; reflexivity
      | cbn [fdata new_file length]; lia ].
  unfold set_mark at 1.
  cbn [world inject log fcbs files set_heap set_files set_fcbs fcbSpec fcbOpen].
  rewrite insert_insert_eq.
  change (noErr =? noErr) with true. cbv beta iota zeta.
  (* the write *)
  fold wr.
  destruct (fault m wr) as [e|] eqn:Ef.
  - unfold FSWrite at 1. rewrite (trap_refused _ _ _ _ _ e) by exact Ef.
    cbv beta iota zeta. cbn [fst snd world inject log].
    rewrite (fault_code _ _ _ Ef). cbv beta iota zeta.
    destruct (TARGET_OS_MAC hdr); cbv beta iota zeta;
      rewrite ?(fault_code _ _ _ Ef); cbv beta iota zeta;
      unfold HUnlock; rewrite sys_run; cbv beta iota zeta;
      cbn [fst snd world inject log heap set_heap set_files set_fcbs].
    all: f_equal; f_equal;
      [ apply world_eq; cbn [heap files fcbs qtVersion strictRefNum unsetLocals
                             set_heap set_files set_fcbs];
        try reflexivity; apply relock
      | unfold start; rewrite <- !app_assoc; reflexivity ].
  - erewrite FSWrite_quiet;
      [ | cbn [inject]; exact Ef
        | unfold open_file; cbn [world fcbs files set_fcbs set_files set_heap];
          rewrite lookup_insert_eq; cbn [fcbOpen fcbSpec];
          rewrite lookup_insert_eq; reflexivity
        | lia | reflexivity ].
    cbn [world inject log].
    rewrite Hread by reflexivity.
    unfold set_mark at 1, set_data at 1.
    cbn [world inject log fcbs files set_heap set_files set_fcbs fcbSpec fcbOpen
         fcbMark fdata fcreator ftype flocked new_file].
    rewrite splice_nil, !insert_insert_eq.
    change (noErr =? noErr) with true. cbv beta iota zeta.
    (* the mark to the end *)
    erewrite SetFPos_quiet;
      [ | apply Hquiet; reflexivity
        | unfold open_file; cbn [world fcbs files set_fcbs set_files set_heap];
          rewrite lookup_insert_eq; cbn [fcbOpen fcbSpec];
          rewrite lookup_insert_eq; reflexivity
        | cbn [fdata]; fold N; lia ].
    unfold set_mark at 1.
    cbn [world inject log fcbs files set_heap set_files set_fcbs fcbSpec fcbOpen].
    rewrite insert_insert_eq.
    change (noErr =? noErr) with true. cbv beta iota zeta.
    (* the end of file *)
    erewrite SetEOF_quiet;
      [ | apply Hquiet; reflexivity
        | unfold open_file; cbn [world fcbs files set_fcbs set_files set_heap];
          rewrite lookup_insert_eq; cbn [fcbOpen fcbSpec];
          rewrite lookup_insert_eq; reflexivity
        | lia ].
    unfold set_mark at 1, set_data at 1.
    cbn [world inject log fcbs files set_heap set_files set_fcbs fcbSpec fcbOpen
         fcbMark fdata fcreator ftype flocked].
    rewrite !insert_insert_eq.
    replace (Z.to_nat N - length bytes)%nat with 0%nat by (unfold N; lia).
    replace (take (Z.to_nat N) bytes) with bytes
      by (unfold N; rewrite Nat2Z.id; symmetry; apply firstn_all).
    cbn [repeat]. rewrite app_nil_r.
    change (noErr =? noErr) with true. cbv beta iota zeta.
    (* the close *)
    erewrite FSClose_quiet;
      [ | apply Hquiet; reflexivity
        | cbn [world fcbs set_fcbs]; apply lookup_insert_eq
        | reflexivity ].
    cbn [world inject log fcbs files set_heap set_files set_fcbs fcbSpec fcbOpen fcbMark].
    assert (Hfin : forall W l (e : Z) flush,
      heap W = alter (set_lock true) theHandle (heap (world m)) ->
      files W = <[spec := written_file hdr bytes]> (files (world m)) ->
      fcbs W = <[r := {| fcbSpec := spec; fcbMark := N; fcbOpen := false |}]>
                 (fcbs (world m)) ->
      qtVersion W = qtVersion (world m) -> strictRefNum W = strictRefNum (world m) ->
      unsetLocals W = unsetLocals (world m) ->
      l = log m ++ start
          ++ [ (wr, noErr); (T_SetFPos r fsFromStart N, noErr);
               (T_SetEOF r N, noErr); (T_FSClose r, noErr) ] ++ flush ->
      (let (a, m') := (e, {| world := W; inject := inject m; log := l |}) in
       let (_, m'0) := HUnlock theHandle m' in (a, m'0))
      = (e, {| world :=
                 set_heap
                   (set_fcbs
                      (set_files (world m)
                         (<[spec := written_file hdr bytes]> (files (world m))))
                      (<[r := {| fcbSpec := spec; fcbMark := N; fcbOpen := false |}]>
                         (fcbs (world m))))
                   unlocked;
               inject := inject m;
               log := log m ++ start
                      ++ [ (wr, noErr); (T_SetFPos r fsFromStart N, noErr);
                           (T_SetEOF r N, noErr); (T_FSClose r, noErr) ]
                      ++ flush ++ [(T_HUnlock theHandle, noErr)] |})).
    { intros W l e flush H1 H2 H3 H4 H5 H6 ->.
      unfold HUnlock. rewrite sys_run. cbv beta iota zeta.
      cbn [fst snd world inject log]. f_equal. f_equal.
      - apply world_eq;
          cbn [heap files fcbs qtVersion strictRefNum unsetLocals
               set_heap set_files set_fcbs]; try assumption.
        rewrite H1. apply relock.
      - rewrite <- !app_assoc. reflexivity. }
    match goal with
    | |- context [if TARGET_OS_MAC hdr then _ else _] =>
        match goal with
        | |- context [{| world := ?W; inject := inject m; log := ?l |}] =>
            set (W9 := W); set (l9 := l)
        end
    end.
    assert (H1 : heap W9 = alter (set_lock true) theHandle (heap (world m)))
      by reflexivity.
    assert (H2 : files W9 = <[spec := written_file hdr bytes]> (files (world m)))
      by reflexivity.
    assert (H3 : fcbs W9 = <[r := {| fcbSpec := spec; fcbMark := N; fcbOpen := false |}]>
                             (fcbs (world m))).
    { unfold W9, set_data. cbn [fcbs set_fcbs set_files].
      rewrite !insert_insert_eq. now rewrite Z.min_id. }
    assert (H4 : qtVersion W9 = qtVersion (world m)) by reflexivity.
    assert (H5 : strictRefNum W9 = strictRefNum (world m)) by reflexivity.
    assert (H6 : unsetLocals W9 = unsetLocals (world m)) by reflexivity.
    assert (H7 : l9 = log m ++ start
                      ++ [ (wr, noErr); (T_SetFPos r fsFromStart N, noErr);
                           (T_SetEOF r N, noErr); (T_FSClose r, noErr) ])
      by (unfold l9, start; rewrite <- !app_assoc; reflexivity).
    clearbody W9 l9.
    destruct (TARGET_OS_MAC hdr); cbv beta iota zeta.
    + change (noErr =? noErr) with true. cbv beta iota zeta.
      erewrite GetVRefNum_quiet;
        [ | apply Hquiet; reflexivity
          | cbn [world]; rewrite H3; apply lookup_insert_eq
          | reflexivity ].
      cbn [world inject log fcbSpec]. rewrite H5.
      destruct (strictRefNum (world m)); cbv beta iota zeta.
      * change (rfNumErr =? noErr) with false. cbv beta iota zeta.
        cbn [andb]. apply Hfin; try assumption.
        rewrite H7, <- !app_assoc. reflexivity.
      * change (noErr =? noErr) with true. cbv beta iota zeta.
        rewrite FlushVol_quiet by (apply Hquiet; reflexivity).
        cbn [world inject log andb]. apply Hfin; try assumption.
        rewrite H7, <- !app_assoc. reflexivity.
    + cbn [andb]. rewrite <- (app_nil_r l9) at 1.
      apply Hfin; try assumption. rewrite H7, <- !app_assoc. reflexivity.
Qed.

End QuietRun.

Section Busy.

Lemma busy_iff (w : World) (spec : FSSpec) :
  busy w spec = true
  <-> exists r fcb, fcbs w !! r = Some fcb /\ fcbOpen fcb = true /\ fcbSpec fcb = spec.
Proof.
  split.
  - unfold busy. intros H. apply existsb_exists in H as ([r fcb] & Hin & H).
    apply list_elem_of_In, elem_of_map_to_list in Hin. cbn [snd] in H.
    apply andb_true_iff in H as [Ho Hs]. apply bool_decide_eq_true in Hs. eauto.
  - intros (r & fcb & Hr & Ho & Hs). eapply busy_intro; eauto.
Qed.

Lemma busy_closed (w : World) (spec : FSSpec) (r : Z) (fcb : FCB) :
  busy w spec = false -> fcbs w !! r = None -> fcbOpen fcb = false ->
  busy (set_fcbs w (<[r := fcb]> (fcbs w))) spec = false.
Proof.
  intros Hb Hr Ho. apply not_true_is_false. intros H.
  apply busy_iff in H as (r' & fcb' & Hl & Ho' & Hs). cbn [fcbs set_fcbs] in Hl.
  destruct (decide (r' = r)) as [->|Hne].
  - rewrite lookup_insert_eq in Hl. injection Hl as <-. congruence.
  - rewrite lookup_insert_ne in Hl by congruence.
    assert (busy w spec = true) by (apply busy_iff; eauto). congruence.
Qed.

End Busy.

(** X6. An existing target that is not locked and that nobody has open is
    overwritten: on a host that refuses no call (and, in the build that
    flushes the volume, one that still knows a closed reference number)
    the writer returns [noErr], the target holds exactly the buffer, its
    creator and type are those of a shortcut file whatever they were, and
    the file is closed again. *)
Theorem writer_replaces_existing_file (hdr : Headers) (theHandle : Handle)
    (spec : FSSpec) (bytes : list byte) (old : File) (m : Machine) :
  theHandle <> NULL ->
  contents (world m) theHandle = Some bytes ->
  0 < Z.of_nat (length bytes) <= maxSize ->
  files (world m) !! spec = Some old ->
  flocked old = false ->
  busy (world m) spec = false ->
  (forall c, inject m c = None) ->
  TARGET_OS_MAC hdr && strictRefNum (world m) = false ->
  let r := QTShortCut_WriteHandleToFile hdr theHandle spec m in
  fst r = noErr
  /\ files (world (snd r)) !! spec
     = Some {| fdata := bytes; fcreator := kShortcutFileCreator hdr;
               ftype := kShortcutFileType hdr; flocked := false |}
  /\ busy (world (snd r)) spec = false.
Proof.
  intros Hnull Hc HN Hold Hunl Hfree Hq Hmac r.
  assert (Hunl' : forall f, files (world m) !! spec = Some f -> flocked f = false)
    by (intros f Hf; congruence).
  pose proof (writer_run hdr theHandle spec bytes m Hnull Hc HN Hfree Hunl'
                (fun c _ => Hq c)) as H.
  cbv zeta in H. rewrite (fault_none _ _ (Hq _)), Hmac in H.
  subst r. rewrite H. cbn [fst snd world files set_heap set_fcbs set_files].
  split; [reflexivity|]. split; [apply lookup_insert_eq|].
  apply (busy_closed (set_files (world m) _)); [exact Hfree | | reflexivity].
  cbn [fcbs set_files]. apply fresh_ref_spec.
Qed.

Lemma writer_replaces_existing_file_witness :
  let r := QTShortCut_WriteHandleToFile sampleHeaders 2 target mOld in
  files (world mOld) !! target = Some oldFile
  /\ fst r = noErr
  /\ files (world (snd r)) !! target
     = Some {| fdata := shortRef; fcreator := kShortcutFileCreator sampleHeaders;
               ftype := kShortcutFileType sampleHeaders; flocked := false |}
  /\ busy (world (snd r)) target = false.
Proof.
  split; [reflexivity|].
  apply (writer_replaces_existing_file sampleHeaders 2 target shortRef oldFile mOld).
  - discriminate.
  - reflexivity.
  - vm_compute. split; [reflexivity|discriminate].
  - reflexivity.
  - reflexivity.
  - reflexivity.
  - reflexivity.
  - reflexivity.
Defined.

(** X7. When every step but the write succeeds and FSWrite fails with [e],
    the writer returns [e]; the target is left as the empty file FSpCreate
    made (what was there before is gone), FSClose is not called, and the
    access path stays open. *)
Theorem failed_write_leaves_empty_open_file (hdr : Headers) (theHandle : Handle)
    (spec : FSSpec) (bytes : list byte) (e : OSErr) (m : Machine) :
  theHandle <> NULL ->
  contents (world m) theHandle = Some bytes ->
  0 < Z.of_nat (length bytes) <= maxSize ->
  busy (world m) spec = false ->
  (forall f, files (world m) !! spec = Some f -> flocked f = false) ->
  (forall c, inject m c = match c with T_FSWrite _ _ _ => Some e | _ => None end) ->
  e <> noErr ->
  let r := QTShortCut_WriteHandleToFile hdr theHandle spec m in
  fst r = e
  /\ files (world (snd r)) !! spec
     = Some {| fdata := []; fcreator := kShortcutFileCreator hdr;
               ftype := kShortcutFileType hdr; flocked := false |}
  /\ busy (world (snd r)) spec = true
  /\ exists evs, log (snd r) = log m ++ evs /\ existsb is_close evs = false.
Proof.
  intros Hnull Hc HN Hfree Hunl Hq He r.
  assert (Hq' : forall c, is_write c = false -> inject m c = None).
  { intros c Hw. rewrite Hq. now destruct c. }
  pose proof (writer_run hdr theHandle spec bytes m Hnull Hc HN Hfree Hunl Hq') as H.
  cbv zeta in H.
  match type of H with context [fault m ?wr] =>
    assert (Hf : fault m wr = Some e)
      by (unfold fault; rewrite Hq; now apply Z.eqb_neq in He as ->);
    rewrite Hf in H end.
  subst r. rewrite H. cbn [fst snd world log files set_heap set_fcbs set_files].
  split; [reflexivity|]. split; [apply lookup_insert_eq|]. split.
  - eapply busy_intro; [cbn [fcbs set_heap set_fcbs]; apply lookup_insert_eq | |];
      reflexivity.
  - eexists. split; [reflexivity|]. reflexivity.
Qed.

Lemma failed_write_leaves_empty_open_file_witness :
  let r := QTShortCut_WriteHandleToFile sampleHeaders 1 target mDiskFull in
  fdata <$> files (world mDiskFull) !! target = Some (longRef ++ longRef)
  /\ fst r = dskFulErr
  /\ fdata <$> files (world (snd r)) !! target = Some []
  /\ busy (world (snd r)) target = true.
Proof.
  split; [reflexivity|].
  destruct (failed_write_leaves_empty_open_file sampleHeaders 1 target longRef
              dskFulErr mDiskFull) as (H1 & H2 & H3 & _).
  - discriminate.
  - reflexivity.
  - vm_compute. split; [reflexivity|discriminate].
  - reflexivity.
  - intros f Hf. vm_compute in Hf. now injection Hf as <-.
  - reflexivity.
  - discriminate.
  - cbv zeta. split; [exact H1|]. split; [now rewrite H2|exact H3].
Defined.

(** X8. In the Mac OS build, on a host that no longer knows a reference
    number once it is closed, the writer returns [rfNumErr] although the
    file is complete: the target holds exactly the buffer and is closed,
    the last File Manager calls are FSClose and the refused GetVRefNum, and
    FlushVol is never reached. *)
Theorem volume_lookup_fails_after_close (hdr : Headers) (theHandle : Handle)
    (spec : FSSpec) (bytes : list byte) (m : Machine) :
  theHandle <> NULL ->
  contents (world m) theHandle = Some bytes ->
  0 < Z.of_nat (length bytes) <= maxSize ->
  busy (world m) spec = false ->
  (forall f, files (world m) !! spec = Some f -> flocked f = false) ->
  (forall c, inject m c = None) ->
  TARGET_OS_MAC hdr = true ->
  strictRefNum (world m) = true ->
  let r := QTShortCut_WriteHandleToFile hdr theHandle spec m in
  fst r = rfNumErr
  /\ files (world (snd r)) !! spec
     = Some {| fdata := bytes; fcreator := kShortcutFileCreator hdr;
               ftype := kShortcutFileType hdr; flocked := false |}
  /\ busy (world (snd r)) spec = false
  /\ exists pre ref,
       log (snd r)
       = log m ++ pre ++ [ (T_FSClose ref, noErr); (T_GetVRefNum ref, rfNumErr);
                           (T_HUnlock theHandle, noErr) ].
Proof.
  intros Hnull Hc HN Hfree Hunl Hq Hmac Hstrict r.
  pose proof (writer_run hdr theHandle spec bytes m Hnull Hc HN Hfree Hunl
                (fun c _ => Hq c)) as H.
  cbv zeta in H. rewrite (fault_none _ _ (Hq _)), Hmac, Hstrict in H.
  subst r. rewrite H. cbn [fst snd world log files set_heap set_fcbs set_files andb].
  split; [reflexivity|]. split; [apply lookup_insert_eq|]. split.
  - apply (busy_closed (set_files (world m) _)); [exact Hfree | | reflexivity].
    cbn [fcbs set_files]. apply fresh_ref_spec.
  - match goal with
    | |- exists pre ref, log m ++ ?s ++ [?a; ?b; ?c; (T_FSClose ?r, _)] ++ _ = _ =>
        exists (s ++ [a; b; c]), r
    end.
    rewrite <- !app_assoc. reflexivity.
Qed.

Lemma volume_lookup_fails_after_close_witness :
  let r := QTShortCut_WriteHandleToFile macHeaders 1 target m0 in
  fst r = rfNumErr
  /\ fdata <$> files (world (snd r)) !! target = Some longRef.
Proof.
  destruct (volume_lookup_fails_after_close macHeaders 1 target longRef m0)
    as (H1 & H2 & _).
  - discriminate.
  - reflexivity.
  - vm_compute. split; [reflexivity|discriminate].
  - reflexivity.
  - intros f Hf. discriminate Hf.
  - reflexivity.
  - reflexivity.
  - reflexivity.
  - cbv zeta. split; [exact H1|]. now rewrite H2.
Defined.

(** ** A target that cannot be removed *)

Section Blocked.

Variable hdr : Headers.

Lemma blocked_run (theHandle : Handle) (spec : FSSpec) (bytes : list byte)
    (f : File) (m : Machine) :
  theHandle <> NULL ->
  contents (world m) theHandle = Some bytes ->
  0 < Z.of_nat (length bytes) <= maxSize ->
  (forall c, inject m c = None) ->
  files (world m) !! spec = Some f ->
  busy (world m) spec || flocked f = true ->
  QTShortCut_WriteHandleToFile hdr theHandle spec m
  = (dupFNErr,
     {| world := set_heap (world m) (alter (set_lock false) theHandle (heap (world m)));
        inject := inject m;
        log := log m ++
               [ (T_GetHandleSize theHandle, noErr); (T_HLock theHandle, noErr);
                 (T_FSpDelete spec, if busy (world m) spec then fBsyErr else fLckdErr);
                 (T_FSpCreate spec (kShortcutFileCreator hdr) (kShortcutFileType hdr)
                    smSystemScript, dupFNErr);
                 (T_HUnlock theHandle, noErr) ] |}).
Proof.
  intros Hnull Hc HN Hq Hf Hblk.
  pose proof (block_size_contents _ _ _ Hc (proj2 HN)) as Hsz.
  assert (Hquiet : forall c w l,
            fault {| world := w; inject := inject m; log := l |} c = None).
  { intros c w l. apply fault_none. cbn [inject]. apply Hq. }
  unfold QTShortCut_WriteHandleToFile, bind, ret.
  destruct (Z.eqb_spec theHandle NULL) as [|_]; [contradiction|].
  unfold GetHandleSize at 1. rewrite sys_run. cbv beta iota zeta. cbn [fst snd world].
  rewrite Hsz. destruct (Z.eqb_spec (Z.of_nat (length bytes)) 0) as [|_]; [lia|].
  unfold HLock at 1. rewrite sys_run. cbv beta iota zeta. cbn [fst snd world inject log].
  unfold FSpDelete at 1. rewrite trap_done by apply Hquiet.
  cbn [world files set_heap]. rewrite Hf.
  unfold busy at 1 2. cbn [fcbs set_heap]. fold (busy (world m) spec).
  assert (Hd : (if busy (world m) spec
                then (fBsyErr, set_heap (world m)
                                 (alter (set_lock true) theHandle (heap (world m))))
                else if flocked f
                     then (fLckdErr, set_heap (world m)
                                       (alter (set_lock true) theHandle (heap (world m))))
                     else (noErr, set_files
                                    (set_heap (world m)
                                       (alter (set_lock true) theHandle (heap (world m))))
                                    (delete spec (files (world m)))))
               = (if busy (world m) spec then fBsyErr else fLckdErr,
                  set_heap (world m) (alter (set_lock true) theHandle (heap (world m))))).
  { destruct (busy (world m) spec); [reflexivity|]. cbn [orb] in Hblk. now rewrite Hblk. }
  rewrite Hd. cbn [fst snd world inject log id].
  unfold FSpCreate at 1. rewrite trap_done by apply Hquiet.
  cbn [world files set_heap]. rewrite Hf. cbn [fst snd id].
  repeat (progress change (dupFNErr =? noErr) with false; cbv beta iota zeta).
  destruct (TARGET_OS_MAC hdr); cbv beta iota zeta;
    repeat (progress change (dupFNErr =? noErr) with false; cbv beta iota zeta);
    unfold HUnlock; rewrite sys_run; cbv beta iota zeta;
    cbn [fst snd world inject log heap set_heap];
    (f_equal; f_equal;
     [ apply world_eq; cbn [heap files fcbs qtVersion strictRefNum unsetLocals set_heap];
       try reflexivity; apply relock
     | rewrite <- !app_assoc; reflexivity ]).
Qed.

End Blocked.

(** X9. When the target exists and is either locked or open somewhere,
    FSpDelete fails (with [fBsyErr] or [fLckdErr]), FSpCreate is called
    nevertheless and fails, and what the caller gets is FSpCreate's
    [dupFNErr]; no other File Manager call is made, and files and access
    paths are as they were. *)
Theorem blocked_target_reports_duplicate (hdr : Headers) (theHandle : Handle)
    (spec : FSSpec) (bytes : list byte) (f : File) (m : Machine) :
  theHandle <> NULL ->
  contents (world m) theHandle = Some bytes ->
  0 < Z.of_nat (length bytes) <= maxSize ->
  (forall c, inject m c = None) ->
  files (world m) !! spec = Some f ->
  busy (world m) spec = true \/ flocked f = true ->
  let r := QTShortCut_WriteHandleToFile hdr theHandle spec m in
  fst r = dupFNErr
  /\ files (world (snd r)) = files (world m)
  /\ fcbs (world (snd r)) = fcbs (world m)
  /\ exists e,
       (e = fBsyErr \/ e = fLckdErr)
       /\ log (snd r)
          = log m ++
            [ (T_GetHandleSize theHandle, noErr); (T_HLock theHandle, noErr);
              (T_FSpDelete spec, e);
              (T_FSpCreate spec (kShortcutFileCreator hdr) (kShortcutFileType hdr)
                 smSystemScript, dupFNErr);
              (T_HUnlock theHandle, noErr) ].
Proof.
  intros Hnull Hc HN Hq Hf Hblk r. subst r.
  rewrite (blocked_run hdr theHandle spec bytes f m Hnull Hc HN Hq Hf)
    by (destruct Hblk as [-> | ->]; [reflexivity | apply orb_true_r]).
  cbn [fst snd world log files fcbs set_heap]. repeat split.
  eexists. split; [|reflexivity]. destruct (busy (world m) spec); auto.
Qed.

Lemma blocked_target_reports_duplicate_witness :
  let r := QTShortCut_WriteHandleToFile sampleHeaders 1 target mLocked in
  fst r = dupFNErr /\ files (world (snd r)) = files (world mLocked).
Proof.
  destruct (blocked_target_reports_duplicate sampleHeaders 1 target longRef
              lockedFile mLocked) as (H1 & H2 & _).
  - discriminate.
  - reflexivity.
  - vm_compute. split; [reflexivity|discriminate].
  - reflexivity.
  - reflexivity.
  - right. reflexivity.
  - split; assumption.
Defined.

(** ** What the manual branch leaves alone *)

Section HeapOnly.

Lemma set_heap_same (w : World) : set_heap w (heap w) = w.
Proof. now destruct w. Qed.

Lemma set_heap_back (w : World) (H : gmap Z Block) :
  set_heap (set_heap w H) (heap w) = w.
Proof. now destruct w. Qed.

Lemma heap_only_ret {A} (a : A) : heap_only (ret a).
Proof. intros m. split; [apply set_heap_same|reflexivity]. Qed.

Lemma heap_only_bind {A B} (c : M A) (k : A -> M B) :
  heap_only c -> (forall a, heap_only (k a)) -> heap_only (bind c k).
Proof.
  intros Hc Hk m. rewrite bind_run.
  destruct (Hc m) as [H1 I1].
  destruct (Hk (fst (c m)) (snd (c m))) as [H2 I2].
  split; [|congruence].
  rewrite <- H1 at 2. rewrite <- H2. reflexivity.
Qed.

Lemma heap_only_trap {A} c code refuse (sem : World -> A * World) :
  (forall w, set_heap (snd (sem w)) (heap w) = w) ->
  heap_only (trap c code refuse sem).
Proof.
  intros H m.
  destruct (trap_inv c code refuse sem m)
    as (r & w & -> & [(e & _ & _ & _ & ->) | [_ Hs]]); cbn [snd world inject].
  - split; [apply set_heap_same|reflexivity].
  - split; [|reflexivity]. specialize (H (world m)). now rewrite Hs in H.
Qed.

Lemma heap_only_sys {A} c (sem : World -> A * World) :
  (forall w, set_heap (snd (sem w)) (heap w) = w) ->
  heap_only (sys c sem).
Proof. intros H m. rewrite sys_run. cbn [snd world inject]. auto. Qed.

Lemma heap_only_write (w : World) (dst : Addr) (new : list byte) :
  set_heap (write_mem w dst new) (heap w) = w.
Proof.
  unfold write_mem. repeat case_match; auto using set_heap_same, set_heap_back.
Qed.

Lemma heap_only_new (n : Z) (w : World) :
  set_heap (snd (new_block n w)) (heap w) = w.
Proof.
  unfold new_block. case_match; cbn [snd]; auto using set_heap_same, set_heap_back.
Qed.

Lemma heap_only_poke le a off v : heap_only (poke_long le a off v).
Proof. intros m. split; [apply heap_only_write|reflexivity]. Qed.

Lemma heap_only_NtoB_of (hdr : Headers) (e : M Z) :
  heap_only e -> heap_only (NtoB_of hdr e).
Proof.
  intros H. unfold NtoB_of. destruct (TARGET_RT_LITTLE_ENDIAN hdr);
    repeat first [apply heap_only_ret | apply heap_only_bind; [exact H|intros]].
Qed.

End HeapOnly.

Ltac heap_steps :=
  repeat first
    [ apply heap_only_ret | apply heap_only_poke
    | apply heap_only_NtoB_of
    | apply heap_only_bind; [|intros]
    | match goal with
      | |- heap_only (if ?b then _ else _) => destruct b
      | |- heap_only (NewPtrClear _) => apply heap_only_trap, heap_only_new
      | |- heap_only (NewHandleClear _) => apply heap_only_trap, heap_only_new
      | |- heap_only (BlockMove _ _ _) =>
          apply heap_only_sys; intros w; apply heap_only_write
      | |- heap_only (PtrAndHand _ _ _) =>
          apply heap_only_trap; intros w; cbv zeta;
          destruct (heap w !! _); [|apply set_heap_same];
          match goal with |- context [if ?c then _ else _] => destruct c end;
          cbn [snd]; auto using set_heap_same, set_heap_back
      | |- heap_only (GetHandleSize _) => apply heap_only_sys, set_heap_same
      | |- heap_only (GetPtrSize _) => apply heap_only_sys, set_heap_same
      | |- heap_only (DisposePtr _) => apply heap_only_sys; intros w; apply set_heap_back
      | |- heap_only (DisposeHandle _) =>
          apply heap_only_sys; intros w; apply set_heap_back
      end ].

Section BuildFrame.

Variable hdr : Headers.

Lemma heap_only_build (theDataRef : Handle) (tag : OSType) (e : OSErr) :
  heap_only (build_movie_atom hdr theDataRef tag e).
Proof. unfold build_movie_atom. cbv zeta. heap_steps. Qed.

Lemma heap_only_bail (p h : Z) (e : OSErr) : heap_only (bail p h e).
Proof. unfold bail. heap_steps. Qed.

Lemma heap_only_fields {A} (c : M A) (m : Machine) :
  heap_only c ->
  files (world (snd (c m))) = files (world m)
  /\ fcbs (world (snd (c m))) = fcbs (world m)
  /\ qtVersion (world (snd (c m))) = qtVersion (world m)
  /\ strictRefNum (world (snd (c m))) = strictRefNum (world m)
  /\ unsetLocals (world (snd (c m))) = unsetLocals (world m)
  /\ inject (snd (c m)) = inject m.
Proof.
  intros H. destruct (H m) as [Hw Hi].
  set (w' := world (snd (c m))) in *. destruct w'. rewrite <- Hw.
  repeat split; auto.
Qed.

End BuildFrame.

(** ** The manual branch: how it can end *)

Section Manual.

Variable hdr : Headers.

Lemma gestalt_ok (sel : OSType) (m m1 : Machine) (v : Z) :
  Gestalt sel 0 m = ((noErr, v), m1) ->
  world m1 = world m /\ inject m1 = inject m
  /\ log m1 = log m ++ [(T_Gestalt sel, noErr)].
Proof.
  unfold Gestalt. intros H.
  match type of H with trap ?c ?code ?refuse ?sem ?m = _ =>
    destruct (trap_inv c code refuse sem m)
      as (r & w & Hr & [(e & _ & He & Hre & Hw) | [_ Hs]]) end;
    rewrite Hr in H; injection H as Hres Hm; subst r m1; cbn [world inject log fst].
  - injection Hre as E _. congruence.
  - repeat split. revert Hs. repeat case_match; intros E; injection E; intros; congruence.
Qed.

Lemma after_query (theDataRef : Handle) (tag : OSType) (spec : FSSpec)
    (m m1 : Machine) (v : Z) :
  Gestalt gestaltQuickTime 0 m = ((noErr, v), m1) ->
  (v / 2 ^ 16) mod 2 ^ 16 < 0x0400 ->
  QTShortCut_CreateShortcutMovieFile hdr theDataRef tag spec m
  = manual_branch hdr theDataRef tag spec noErr m1.
Proof.
  intros HG Hold. unfold QTShortCut_CreateShortcutMovieFile.
  rewrite bind_run, HG. cbv beta iota zeta. cbn [fst snd].
  change (negb (noErr =? noErr)) with false. cbv iota.
  rewrite upper_word. destruct (Z.leb_spec 0x0400 ((v / 2 ^ 16) mod 2 ^ 16)); [lia|].
  reflexivity.
Qed.

(** How the building of the atom can end, read off its calls. *)
Lemma build_outcome (theDataRef : Handle) (tag : OSType) (e : OSErr) (m : Machine) :
  exists evs,
    log (snd (build_movie_atom hdr theDataRef tag e m)) = log m ++ evs
    /\ no_file_call evs = true
    /\ match fst (build_movie_atom hdr theDataRef tag e m) with
       | Bailed e' p h =>
           (existsb is_alloc_refused evs = true
            /\ existsb is_append_failed evs = false /\ e' = e)
           \/ (existsb is_alloc_refused evs = false
               /\ existsb is_append_failed evs = true /\ e' <> noErr
               /\ exists n, last evs = Some (T_PtrAndHand p h n, e'))
       | Complete p h =>
           existsb is_alloc_refused evs = false
           /\ existsb is_append_failed evs = false
           /\ p <> NULL /\ h <> NULL
       end.
Proof.
  unfold build_movie_atom, NtoB_of, bind, ret. cbv zeta.
  do 2 run_call.
  match goal with |- context [if ?x =? NULL then _ else _] =>
    destruct (Z.eqb_spec x NULL) as [->|Hp] end.
  { eexists. rewrite <- ?app_assoc. split; [reflexivity|]. split; [reflexivity|].
    left. repeat split. }
  do 4 run_call.
  match goal with |- context [if ?x =? NULL then _ else _] =>
    destruct (Z.eqb_spec x NULL) as [->|Hh] end.
  { eexists. rewrite <- ?app_assoc. split; [reflexivity|]. split; [reflexivity|].
    left. unfold is_alloc_refused, is_append_failed, mem_code.
    cbn [existsb fst snd orb negb].
    match goal with |- context [if ?x =? NULL then _ else _] =>
      destruct (Z.eqb_spec x NULL); [contradiction|] end.
    repeat split. }
  destruct (TARGET_RT_LITTLE_ENDIAN hdr).
  all: repeat first
    [ run_call
    | progress (unfold poke_long; cbv beta iota zeta; cbn [fst snd world inject log]) ].
  all: match goal with |- context [if negb (?x =? noErr) then _ else _] =>
    destruct (Z.eqb_spec x noErr) as [->|He] end; cbn [negb]; cbv iota;
    cbn [fst snd log].
  all: eexists; rewrite <- ?app_assoc; (split; [reflexivity|]); (split; [reflexivity|]).
  all: unfold is_alloc_refused, is_append_failed, mem_code, id;
    cbn [existsb fst snd orb negb last app].
  all: repeat match goal with |- context [if ?x =? NULL then _ else _] =>
         destruct (Z.eqb_spec x NULL); [contradiction|] end.
  all: first
    [ solve [repeat split; assumption]
    | right; apply Z.eqb_neq in He as E; rewrite E; repeat split; eauto ].
Qed.

End Manual.

Section ManualErrors.

Variable hdr : Headers.

Lemma none_within (P : Call -> bool) (Q : Event -> bool) (evs : list Event) :
  (forall ev, Q ev = true -> P (fst ev) = false) ->
  forallb (fun ev => P (fst ev)) evs = true -> existsb Q evs = false.
Proof.
  intros HPQ H. rewrite forallb_forall in H.
  apply not_true_is_false. intros E. apply existsb_exists in E as (ev & Hin & HQ).
  specialize (H ev Hin). rewrite (HPQ ev HQ) in H. discriminate.
Qed.

Lemma no_file_call_dispose (evs : list Event) :
  forallb (fun ev => is_dispose (fst ev)) evs = true -> no_file_call evs = true.
Proof.
  unfold no_file_call. intros H. rewrite forallb_forall in *. intros ev Hin.
  specialize (H ev Hin). now destruct (fst ev).
Qed.

(** The three ways the manual branch can go: an allocation is refused,
    the appending fails, or the atom is completed and handed to the
    writer. *)
Lemma manual_cases (theDataRef : Handle) (tag : OSType) (spec : FSSpec)
    (e : OSErr) (m : Machine) :
  let r := manual_branch hdr theDataRef tag spec e m in
  exists evs,
    log (snd r) = log m ++ evs
    /\ ((existsb is_alloc_refused evs = true /\ existsb is_append_failed evs = false
         /\ fst r = e /\ no_file_call evs = true
         /\ files (world (snd r)) = files (world m)
         /\ fcbs (world (snd r)) = fcbs (world m))
        \/ (existsb is_alloc_refused evs = false /\ existsb is_append_failed evs = true
            /\ fst r <> noErr
            /\ (exists p h n, In (T_PtrAndHand p h n, fst r) evs)
            /\ no_file_call evs = true
            /\ files (world (snd r)) = files (world m)
            /\ fcbs (world (snd r)) = fcbs (world m))
        \/ (existsb is_alloc_refused evs = false
            /\ existsb is_append_failed evs = false)).
Proof.
  cbv zeta. unfold manual_branch. rewrite bind_run.
  destruct (build_outcome hdr theDataRef tag e m) as (e1 & H1 & F1 & Hb).
  destruct (heap_only_fields _ m (heap_only_build hdr theDataRef tag e))
    as (Hf & Hc & _).
  destruct (finish_within hdr spec (fst (build_movie_atom hdr theDataRef tag e m))
              (snd (build_movie_atom hdr theDataRef tag e m))) as (e2 & H2 & P2).
  exists (e1 ++ e2). rewrite H2, H1, app_assoc. split; [reflexivity|].
  assert (Hna : existsb is_alloc_refused e2 = false).
  { apply (none_within (fun c => is_writer_call c || is_dispose c)); [|exact P2].
    intros [c x]. unfold is_alloc_refused. cbn [fst]. now destruct c. }
  assert (Hnp : existsb is_append_failed e2 = false).
  { apply (none_within (fun c => is_writer_call c || is_dispose c)); [|exact P2].
    intros [c x]. unfold is_append_failed. cbn [fst]. now destruct c. }
  rewrite !existsb_app, Hna, Hnp, !orb_false_r.
  destruct (fst (build_movie_atom hdr theDataRef tag e m)) as [e' p h | p h] eqn:Eb.
  - destruct (bail_within p h e' (snd (build_movie_atom hdr theDataRef tag e m)))
      as (e3 & H3 & P3).
    assert (e3 = e2) as -> by (rewrite H2 in H3; now apply app_inv_head in H3).
    destruct (heap_only_fields _ (snd (build_movie_atom hdr theDataRef tag e m))
                (heap_only_bail p h e')) as (Hf' & Hc' & _).
    assert (Hres : fst (bail p h e' (snd (build_movie_atom hdr theDataRef tag e m))) = e').
    { unfold bail, bind, ret. repeat case_match; reflexivity. }
    assert (Hnf : no_file_call (e1 ++ e2) = true).
    { unfold no_file_call in *. rewrite forallb_app. apply andb_true_intro.
      split; [exact F1|]. now apply no_file_call_dispose. }
    rewrite Hres, Hf', Hc', Hf, Hc.
    destruct Hb as [(Ha & Hp & ->) | (Ha & Hp & He & n & Hl)]; [left | right; left];
      repeat split; try assumption.
    exists p, h, n. apply in_or_app. left.
    apply last_Some in Hl as (l' & ->). apply in_or_app. right. now left.
  - right. right. now destruct Hb as (-> & -> & _).
Qed.

End ManualErrors.

(** X10. On the manual path, when NewPtrClear or NewHandleClear returns
    [NULL] the function leaves through [bail] with [myErr] as Gestalt left
    it: it returns [noErr], though it has made no File Manager call and
    files and access paths are as they were. *)
Theorem refused_allocation_reports_success (hdr : Headers) (theDataRef : Handle)
    (tag : OSType) (spec : FSSpec) (m m1 : Machine) (v : Z) (evs : list Event) :
  Gestalt gestaltQuickTime 0 m = ((noErr, v), m1) ->
  (v / 2 ^ 16) mod 2 ^ 16 < 0x0400 ->
  let r := QTShortCut_CreateShortcutMovieFile hdr theDataRef tag spec m in
  log (snd r) = log m1 ++ evs ->
  existsb is_alloc_refused evs = true ->
  fst r = noErr
  /\ no_file_call evs = true
  /\ files (world (snd r)) = files (world m)
  /\ fcbs (world (snd r)) = fcbs (world m).
Proof.
  intros HG Hold r Hl Ha. subst r.
  rewrite (after_query hdr theDataRef tag spec m m1 v HG Hold) in *.
  destruct (gestalt_ok _ _ _ _ HG) as (Hw & _).
  destruct (manual_cases hdr theDataRef tag spec noErr m1) as (evs' & Hl' & H).
  cbv zeta in *. rewrite Hl' in Hl. apply app_inv_head in Hl as <-.
  rewrite <- Hw.
  destruct H as [(_ & _ & H) | [(Ha' & _) | (Ha' & _)]]; [tauto | congruence..].
Qed.

Lemma refused_allocation_reports_success_witness :
  let r := QTShortCut_CreateShortcutMovieFile sampleHeaders 1 url target mNoMemory in
  fst r = noErr /\ files (world (snd r)) !! target = None.
Proof.
  destruct (refused_allocation_reports_success sampleHeaders 1 url target mNoMemory
              (snd (Gestalt gestaltQuickTime 0 mNoMemory)) qt3
              [ (T_GetHandleSize 1, noErr); (T_NewPtrClear 18, noErr);
                (T_BlockMove (AtLocal (be32 url)) (AtBlock 4 0) 4, noErr);
                (T_GetHandleSize 1, noErr);
                (T_BlockMove (AtBlock 1 0) (AtBlock 4 4) 14, noErr);
                (T_NewHandleClear 24, memFullErr); (T_DisposePtr 4, noErr) ])
    as (H1 & _ & H3 & _).
  - reflexivity.
  - vm_compute. reflexivity.
  - vm_compute. reflexivity.
  - reflexivity.
  - cbv zeta. split; [exact H1|]. rewrite H3. reflexivity.
Defined.

(** X11. On the manual path, when PtrAndHand fails its result code is what
    the function returns; no File Manager call is made and files and access
    paths are as they were. *)
Theorem failed_append_is_returned (hdr : Headers) (theDataRef : Handle)
    (tag : OSType) (spec : FSSpec) (m m1 : Machine) (v : Z) (evs : list Event) :
  Gestalt gestaltQuickTime 0 m = ((noErr, v), m1) ->
  (v / 2 ^ 16) mod 2 ^ 16 < 0x0400 ->
  let r := QTShortCut_CreateShortcutMovieFile hdr theDataRef tag spec m in
  log (snd r) = log m1 ++ evs ->
  existsb is_append_failed evs = true ->
  fst r <> noErr
  /\ (exists p h n, In (T_PtrAndHand p h n, fst r) evs)
  /\ no_file_call evs = true
  /\ files (world (snd r)) = files (world m)
  /\ fcbs (world (snd r)) = fcbs (world m).
Proof.
  intros HG Hold r Hl Ha. subst r.
  rewrite (after_query hdr theDataRef tag spec m m1 v HG Hold) in *.
  destruct (gestalt_ok _ _ _ _ HG) as (Hw & _).
  destruct (manual_cases hdr theDataRef tag spec noErr m1) as (evs' & Hl' & H).
  cbv zeta in *. rewrite Hl' in Hl. apply app_inv_head in Hl as <-.
  rewrite <- Hw.
  destruct H as [(_ & Ha' & _) | [(_ & _ & H) | (_ & Ha')]]; [congruence | tauto | congruence].
Qed.

Lemma failed_append_is_returned_witness :
  let r := QTShortCut_CreateShortcutMovieFile sampleHeaders 1 url target mNoGrowth in
  fst r = memFullErr /\ files (world (snd r)) !! target = None.
Proof.
  destruct (failed_append_is_returned sampleHeaders 1 url target mNoGrowth
              (snd (Gestalt gestaltQuickTime 0 mNoGrowth)) qt3
              (skipn 1 (log (snd (QTShortCut_CreateShortcutMovieFile sampleHeaders 1
                                    url target mNoGrowth)))))
    as (_ & _ & _ & H3 & _).
  - reflexivity.
  - vm_compute. reflexivity.
  - vm_compute. reflexivity.
  - vm_compute. reflexivity.
  - cbv zeta. split; [vm_compute; reflexivity|]. rewrite H3. reflexivity.
Defined.

(** ** The heap is given back *)

Section Restore.

Variable hdr : Headers.
Variable H0 : gmap Z Block.

Lemma write_mem_frame (w : World) (c off : Z) (new : list byte) (a : Z) :
  a <> c -> heap (write_mem w (AtBlock c off) new) !! a = heap w !! a.
Proof.
  intros Hne. unfold write_mem. repeat case_match; try reflexivity.
  cbn [heap set_heap]. now apply lookup_insert_ne.
Qed.

Lemma restorable_write_p (w : World) (p h off : Z) (new : list byte) :
  p <> NULL -> restorable H0 p h w ->
  restorable H0 p h (write_mem w (AtBlock p off) new).
Proof.
  intros Hp (H1 & H2 & H3). repeat split; try assumption.
  intros a Ha Hb. rewrite write_mem_frame by auto. auto.
Qed.

Lemma restorable_write_h (w : World) (p h off : Z) (new : list byte) :
  h <> NULL -> restorable H0 p h w ->
  restorable H0 p h (write_mem w (AtBlock h off) new).
Proof.
  intros Hp (H1 & H2 & H3). repeat split; try assumption.
  intros a Ha Hb. rewrite write_mem_frame by auto. auto.
Qed.

Lemma triple_poke (P : World -> Prop) (Q : unit -> World -> Prop) le a off v :
  (forall w, P w -> Q tt (write_mem w (AtBlock a off) (long_image le (to_long v)))) ->
  triple P (poke_long le a off v) Q.
Proof. intros H m Hm. now apply H. Qed.

Lemma triple_NtoB_of (P : World -> Prop) (e : M Z) :
  triple P e (fun _ w => P w) -> triple P (NtoB_of hdr e) (fun _ w => P w).
Proof.
  intros H. unfold NtoB_of. destruct (TARGET_RT_LITTLE_ENDIAN hdr);
    repeat first
      [ eapply triple_bind with (R := fun _ w => P w); [exact H | intros ?]
      | apply triple_ret; auto ].
Qed.

Lemma restorable_init (w : World) : heap w = H0 -> restorable H0 NULL NULL w.
Proof.
  intros Hw. split; [intros H; now destruct H|].
  split; [intros H; now destruct H|]. intros a _ _. now rewrite Hw.
Qed.

Lemma restorable_new_ptr (n : Z) :
  triple (fun w => heap w = H0) (NewPtrClear n)
         (fun p w => restorable H0 p NULL w).
Proof.
  apply triple_trap.
  - intros w Hw. unfold new_block. destruct (n <? 0); cbn [fst snd].
    + now apply restorable_init.
    + destruct (fresh_block_spec w) as [Hn Hf]. rewrite Hw in Hf.
      split; [auto|]. split; [intros H; now destruct H|].
      intros a Ha _. cbn [heap set_heap]. rewrite lookup_insert_ne by (intros E; symmetry in E; intuition).
      now rewrite Hw.
  - intros e w _ Hw. now apply restorable_init.
Qed.

Lemma restorable_new_handle (p n : Z) :
  p <> NULL ->
  triple (restorable H0 p NULL) (NewHandleClear n)
         (fun h w => restorable H0 p h w).
Proof.
  intros Hp. apply triple_trap.
  - intros w (H1 & H2 & H3). unfold new_block. destruct (n <? 0); cbn [fst snd].
    + repeat split; assumption.
    + destruct (fresh_block_spec w) as [Hn Hf].
      set (h := fresh_block w) in *.
      assert (Hh : H0 !! h = None).
      { destruct (decide (h = p)) as [->|Hne]; [auto|].
        rewrite <- H3; auto. }
      repeat split; auto.
      intros a Ha Hb. cbn [heap set_heap]. rewrite lookup_insert_ne by (intros E; symmetry in E; intuition).
      apply H3; auto.
  - intros e w _ H. exact H.
Qed.

Lemma restorable_append (p h n : Z) :
  h <> NULL ->
  triple (restorable H0 p h) (PtrAndHand p h n) (fun _ w => restorable H0 p h w).
Proof.
  intros Hh. apply triple_trap; [|auto].
  intros w (H1 & H2 & H3). cbv zeta.
  destruct (heap w !! h); [|repeat split; assumption].
  match goal with |- context [if ?c then _ else _] => destruct c end;
    cbn [fst snd]; repeat split; try assumption.
  intros a Ha Hb. cbn [heap set_heap]. rewrite lookup_insert_ne by (intros E; symmetry in E; intuition). auto.
Qed.

Lemma restorable_build (theDataRef : Handle) (tag : OSType) (e : OSErr) :
  triple (fun w => heap w = H0) (build_movie_atom hdr theDataRef tag e)
         (fun b w => match b with
                     | Bailed _ p h => restorable H0 p h w
                     | Complete p h => restorable H0 p h w /\ h <> NULL
                     end).
Proof.
  unfold build_movie_atom. cbv zeta.
  eapply triple_bind with (R := fun _ w => heap w = H0);
    [apply triple_sys; intros w Hw; exact Hw|]. intros n. cbv beta.
  eapply triple_bind; [apply restorable_new_ptr|]. intros p. cbv beta.
  destruct (Z.eqb_spec p NULL) as [->|Hp]; [apply triple_ret; auto|].
  eapply triple_bind with (R := fun _ w => restorable H0 p NULL w).
  { apply triple_sys. intros w Hw. now apply restorable_write_p. }
  intros ?.
  eapply triple_bind with (R := fun _ w => restorable H0 p NULL w).
  { apply triple_sys. intros w Hw. exact Hw. }
  intros n'.
  eapply triple_bind with (R := fun _ w => restorable H0 p NULL w).
  { apply triple_sys. intros w Hw. now apply restorable_write_p. }
  intros ?.
  eapply triple_bind; [now apply restorable_new_handle|]. intros h. cbv beta.
  destruct (Z.eqb_spec h NULL) as [->|Hh]; [apply triple_ret; auto|].
  repeat first
    [ eapply triple_bind with (R := fun _ w => restorable H0 p h w);
      [ first [ apply triple_sys; intros w Hw; exact Hw
              | apply triple_poke; intros w Hw; now apply restorable_write_h
              | now apply restorable_append
              | apply triple_NtoB_of;
                eapply triple_bind with (R := fun _ w => restorable H0 p h w);
                [ apply triple_sys; intros w Hw; exact Hw
                | intros ?; apply triple_ret; auto ] ]
      | intros ? ] ].
  match goal with |- context [if negb (?x =? noErr) then _ else _] =>
    destruct (negb (x =? noErr)) end; apply triple_ret; auto.
Qed.

Lemma restorable_writer (p h : Z) (spec : FSSpec) :
  h <> NULL ->
  triple (restorable H0 p h) (QTShortCut_WriteHandleToFile hdr h spec)
         (fun _ w => restorable H0 p h w).
Proof.
  intros Hh m (H1 & H2 & H3). repeat split; try assumption.
  intros a Ha Hb. rewrite writer_heap, lookup_alter_ne by (intros E; symmetry in E; intuition).
  auto.
Qed.

Lemma restore_bail (p h : Z) (e : OSErr) :
  triple (restorable H0 p h) (bail p h e) (fun _ w => heap w = H0).
Proof.
  intros m (H1 & H2 & H3). unfold bail, bind, ret, DisposePtr, DisposeHandle.
  destruct (Z.eqb_spec p NULL) as [Hp|Hp]; destruct (Z.eqb_spec h NULL) as [Hh|Hh];
    cbn [negb]; cbv iota;
    rewrite ?sys_run; cbv beta iota zeta; cbn [fst snd world heap set_heap];
    rewrite ?sys_run; cbv beta iota zeta; cbn [fst snd world heap set_heap];
    apply map_eq; intros a.
  - apply H3; intros; contradiction.
  - destruct (decide (a = h)) as [->|Hne].
    + rewrite lookup_delete_eq. symmetry. auto.
    + rewrite lookup_delete_ne by congruence. apply H3; intros; congruence.
  - destruct (decide (a = p)) as [->|Hne].
    + rewrite lookup_delete_eq. symmetry. auto.
    + rewrite lookup_delete_ne by congruence. apply H3; intros; congruence.
  - destruct (decide (a = h)) as [->|Hne].
    + rewrite lookup_delete_eq. symmetry. auto.
    + rewrite lookup_delete_ne by congruence.
      destruct (decide (a = p)) as [->|Hne'].
      * rewrite lookup_delete_eq. symmetry. auto.
      * rewrite lookup_delete_ne by congruence. apply H3; intros; congruence.
Qed.

Lemma restore_manual (theDataRef : Handle) (tag : OSType) (spec : FSSpec) (e : OSErr) :
  triple (fun w => heap w = H0) (manual_branch hdr theDataRef tag spec e)
         (fun _ w => heap w = H0).
Proof.
  unfold manual_branch.
  eapply triple_bind; [apply restorable_build|].
  intros [e' p h | p h]; cbv beta iota.
  - apply restore_bail.
  - intros m [Hr Hh]. revert m Hr.
    change (triple (restorable H0 p h)
              (myErr <- QTShortCut_WriteHandleToFile hdr h spec ;; bail p h myErr)
              (fun _ w => heap w = H0)).
    eapply triple_bind; [now apply restorable_writer|].
    intros e'. apply restore_bail.
Qed.

End Restore.

(** X13. On the manual path the function leaves the heap exactly as it
    found it, however it ends (an allocation refused, PtrAndHand or the
    writer failing, or success): both scratch blocks are disposed, and
    every block the caller had keeps its bytes and its lock. *)
Theorem manual_path_restores_heap (hdr : Headers) (theDataRef : Handle)
    (tag : OSType) (spec : FSSpec) (m m1 : Machine) (v : Z) :
  Gestalt gestaltQuickTime 0 m = ((noErr, v), m1) ->
  (v / 2 ^ 16) mod 2 ^ 16 < 0x0400 ->
  heap (world (snd (QTShortCut_CreateShortcutMovieFile hdr theDataRef tag spec m)))
  = heap (world m).
Proof.
  intros HG Hold.
  rewrite (after_query hdr theDataRef tag spec m m1 v HG Hold).
  destruct (gestalt_ok _ _ _ _ HG) as (Hw & _). rewrite <- Hw.
  now apply (restore_manual hdr (heap (world m1))).
Qed.

Lemma manual_path_restores_heap_witness :
  heap (world (snd (QTShortCut_CreateShortcutMovieFile sampleHeaders 1 url target m0)))
  = blocks0
  /\ heap (world (snd (QTShortCut_CreateShortcutMovieFile sampleHeaders 1 url target
                         mNoMemory)))
     = blocks0.
Proof.
  split.
  - apply (manual_path_restores_heap sampleHeaders 1 url target m0
             (snd (Gestalt gestaltQuickTime 0 m0)) qt3); [reflexivity|].
    vm_compute. reflexivity.
  - apply (manual_path_restores_heap sampleHeaders 1 url target mNoMemory
             (snd (Gestalt gestaltQuickTime 0 mNoMemory)) qt3); [reflexivity|].
    vm_compute. reflexivity.
Defined.

(** ** From the data reference to the file *)

Section EndToEnd.

Variable hdr : Headers.

Lemma bail_result (p h : Z) (e : OSErr) (m : Machine) : fst (bail p h e m) = e.
Proof. unfold bail, bind, ret. repeat case_match; reflexivity. Qed.

Lemma busy_same_fcbs (w w' : World) (spec : FSSpec) :
  fcbs w' = fcbs w -> busy w' spec = busy w spec.
Proof. unfold busy. now intros ->. Qed.

Lemma manual_success (theDataRef : Handle) (tag : OSType) (spec : FSSpec)
    (bytes : list byte) (m : Machine) :
  contents (world m) theDataRef = Some bytes ->
  28 + Z.of_nat (length bytes) <= maxSize ->
  (forall c, inject m c = None) ->
  busy (world m) spec = false ->
  (forall f, files (world m) !! spec = Some f -> flocked f = false) ->
  TARGET_OS_MAC hdr && strictRefNum (world m) = false ->
  let r := manual_branch hdr theDataRef tag spec noErr m in
  fst r = noErr
  /\ files (world (snd r))
     = <[spec := written_file hdr (shortcut_layout hdr tag bytes)]> (files (world m)).
Proof.
  intros Hc Hn Hq Hfree Hunl Hmac. cbv zeta. unfold manual_branch. rewrite bind_run.
  pose proof (build_spec hdr theDataRef tag noErr bytes m Hc ltac:(lia)) as Hb.
  destruct (heap_only_fields _ m (heap_only_build hdr theDataRef tag noErr))
    as (_ & _ & _ & Hstrict & _).
  destruct (build_movie_atom hdr theDataRef tag noErr m) as [[e p h | p h] m2];
    cbn [fst snd build_post] in *.
  { exfalso. destruct Hb as [(c & e' & _ & Hi & _) | Hb]; [|lia].
    rewrite Hq in Hi. discriminate. }
  destruct Hb as (Hbuf & _ & _ & _ & _ & Hh & _ & Hfiles & Hfcbs & Hinj).
  rewrite bind_run.
  assert (Hlen : 0 < Z.of_nat (length (shortcut_layout hdr tag bytes)) <= maxSize).
  { rewrite length_shortcut_layout. lia. }
  assert (Hfree2 : busy (world m2) spec = false)
    by now rewrite (busy_same_fcbs _ _ _ Hfcbs).
  assert (Hunl2 : forall f, files (world m2) !! spec = Some f -> flocked f = false)
    by now rewrite Hfiles.
  assert (Hq2 : forall c, is_write c = false -> inject m2 c = None)
    by (intros c _; rewrite Hinj; apply Hq).
  pose proof (writer_run hdr h spec _ m2 Hh Hbuf Hlen Hfree2 Hunl2 Hq2) as Hrun.
  cbv zeta in Hrun.
  rewrite fault_none in Hrun by (rewrite Hinj; apply Hq).
  rewrite Hstrict, Hmac in Hrun. rewrite Hrun. cbn [fst snd].
  rewrite bail_result. split; [reflexivity|].
  match goal with |- context [bail p h noErr ?M] =>
    destruct (heap_only_fields _ M (heap_only_bail p h noErr)) as (-> & _) end.
  cbn [world files set_heap set_fcbs set_files]. now rewrite Hfiles.
Qed.

End EndToEnd.

(** X14. The manual path from end to end: with QuickTime older than 4.0,
    a data reference of N bytes with 28 + N no more than the largest
    [Size], a host that refuses no call, and a target that is neither
    locked nor open, the function returns [noErr]; the target is a
    shortcut file (creator and type) whose data fork is the three atom
    headers, the type tag and the data reference; no other file changes
    and the data reference is as it was. *)
Theorem manual_path_writes_shortcut (hdr : Headers) (theDataRef : Handle)
    (tag : OSType) (spec : FSSpec) (bytes : list byte) (m m1 : Machine) (v : Z) :
  Gestalt gestaltQuickTime 0 m = ((noErr, v), m1) ->
  (v / 2 ^ 16) mod 2 ^ 16 < 0x0400 ->
  contents (world m) theDataRef = Some bytes ->
  28 + Z.of_nat (length bytes) <= maxSize ->
  (forall c, inject m c = None) ->
  busy (world m) spec = false ->
  (forall f, files (world m) !! spec = Some f -> flocked f = false) ->
  TARGET_OS_MAC hdr && strictRefNum (world m) = false ->
  let N := Z.of_nat (length bytes) in
  let r := QTShortCut_CreateShortcutMovieFile hdr theDataRef tag spec m in
  fst r = noErr
  /\ files (world (snd r)) !! spec
     = Some {| fdata := be32 (28 + N) ++ be32 (MovieAID hdr)
                        ++ be32 (20 + N) ++ be32 (MovieDataRefAliasAID hdr)
                        ++ be32 (12 + N) ++ be32 (DataRefAID hdr)
                        ++ be32 tag ++ bytes;
               fcreator := kShortcutFileCreator hdr;
               ftype := kShortcutFileType hdr;
               flocked := false |}
  /\ (forall s, s <> spec -> files (world (snd r)) !! s = files (world m) !! s)
  /\ contents (world (snd r)) theDataRef = Some bytes.
Proof.
  intros HG Hold Hc Hn Hq Hfree Hunl Hmac N r. subst r.
  assert (Hheap : heap (world (snd (QTShortCut_CreateShortcutMovieFile hdr theDataRef
                                      tag spec m))) = heap (world m)).
  { rewrite (after_query hdr theDataRef tag spec m m1 v HG Hold).
    destruct (gestalt_ok _ _ _ _ HG) as (Hw & _). rewrite <- Hw.
    now apply (restore_manual hdr (heap (world m1))). }
  rewrite (after_query hdr theDataRef tag spec m m1 v HG Hold) in *.
  destruct (gestalt_ok _ _ _ _ HG) as (Hw & Hi & _).
  destruct (manual_success hdr theDataRef tag spec bytes m1) as [Hr Hf];
    rewrite ?Hw, ?Hi; try assumption.
  rewrite Hr, Hf, Hw. split; [reflexivity|]. split; [|split].
  - rewrite lookup_insert_eq. unfold written_file, shortcut_layout. fold N.
    replace (24 + N + 4) with (28 + N) by lia.
    replace (16 + N + 4) with (20 + N) by lia.
    replace (8 + N + 4) with (12 + N) by lia. reflexivity.
  - intros s Hs. now apply lookup_insert_ne.
  - unfold contents in *. now rewrite Hheap.
Qed.

Lemma manual_path_writes_shortcut_witness :
  let r := QTShortCut_CreateShortcutMovieFile sampleHeaders 2 alis target mOld in
  fst r = noErr
  /\ fdata <$> files (world (snd r)) !! target
     = Some (be32 (28 + 5) ++ be32 (MovieAID sampleHeaders)
             ++ be32 (20 + 5) ++ be32 (MovieDataRefAliasAID sampleHeaders)
             ++ be32 (12 + 5) ++ be32 (DataRefAID sampleHeaders)
             ++ be32 alis ++ shortRef)
  /\ contents (world (snd r)) 2 = Some shortRef.
Proof.
  destruct (manual_path_writes_shortcut sampleHeaders 2 alis target shortRef mOld
              (snd (Gestalt gestaltQuickTime 0 mOld)) qt3) as (H1 & H2 & _ & H4).
  - reflexivity.
  - vm_compute. reflexivity.
  - reflexivity.
  - vm_compute. discriminate.
  - reflexivity.
  - reflexivity.
  - intros f Hf. vm_compute in Hf. now injection Hf as <-.
  - reflexivity.
  - cbv zeta. split; [exact H1|]. split; [now rewrite H2 | exact H4].
Defined.

(** ** The byte order of the host *)

Section ByteOrderOfHost.














End ByteOrderOfHost.


(** On the sample host the little-endian build asks GetPtrSize thirteen
    times, four times for each size field and once for PtrAndHand; the
    big-endian build asks four times. *)
Example size_queries_of_each_build :
  let queries hdr :=
    length (List.filter (fun ev => is_size_query (fst ev))
              (log (snd (QTShortCut_CreateShortcutMovieFile hdr 1 url target m0)))) in
  queries (with_endian true sampleHeaders) = 13%nat
  /\ queries (with_endian false sampleHeaders) = 4%nat.
Proof. vm_compute. split; reflexivity. Qed.

(** X16. After a call in which FSWrite failed, a second call of the writer
    cannot replace the file, even on a host that now refuses nothing: the
    access path the first call left open keeps FSpDelete from removing the
    target, FSpCreate then finds it in the way, and the caller gets
    [dupFNErr] with the file still empty. *)
Theorem retry_after_failed_write_is_refused (hdr : Headers) (theHandle : Handle)
    (spec : FSSpec) (bytes : list byte) (e : OSErr) (m : Machine) :
  theHandle <> NULL ->
  contents (world m) theHandle = Some bytes ->
  0 < Z.of_nat (length bytes) <= maxSize ->
  busy (world m) spec = false ->
  (forall f, files (world m) !! spec = Some f -> flocked f = false) ->
  (forall c, inject m c = match c with T_FSWrite _ _ _ => Some e | _ => None end) ->
  e <> noErr ->
  let r1 := QTShortCut_WriteHandleToFile hdr theHandle spec m in
  let r2 := QTShortCut_WriteHandleToFile hdr theHandle spec (recovered (snd r1)) in
  fst r1 = e
  /\ fst r2 = dupFNErr
  /\ fdata <$> files (world (snd r2)) !! spec = Some [].
Proof.
  intros Hnull Hc HN Hfree Hunl Hq He r1 r2.
  assert (Hq' : forall c, is_write c = false -> inject m c = None).
  { intros c Hw. rewrite Hq. now destruct c. }
  pose proof (writer_run hdr theHandle spec bytes m Hnull Hc HN Hfree Hunl Hq') as H.
  cbv zeta in H.
  match type of H with context [fault m ?wr] =>
    assert (Hf : fault m wr = Some e)
      by (unfold fault; rewrite Hq; now apply Z.eqb_neq in He as ->);
    rewrite Hf in H end.
  assert (Hc1 : contents (world (recovered (snd r1))) theHandle = Some bytes).
  { subst r1. cbn [recovered world]. now rewrite keeps_writer. }
  subst r2. subst r1. rewrite H in *. cbn [fst snd].
  split; [reflexivity|].
  erewrite blocked_run;
    [ | exact Hnull | exact Hc1 | exact HN | reflexivity
      | cbn [recovered world files set_heap set_fcbs set_files]; apply lookup_insert_eq
      | apply orb_true_iff; left; eapply busy_intro;
        [ cbn [recovered world fcbs set_heap set_fcbs]; apply lookup_insert_eq
        | reflexivity | reflexivity ] ].
  cbn [fst snd recovered world files set_heap set_fcbs set_files].
  split; [reflexivity|]. now rewrite lookup_insert_eq.
Qed.

Lemma retry_after_failed_write_is_refused_witness :
  let r1 := QTShortCut_WriteHandleToFile sampleHeaders 1 target mDiskFull in
  let r2 := QTShortCut_WriteHandleToFile sampleHeaders 1 target (recovered (snd r1)) in
  fst r1 = dskFulErr /\ fst r2 = dupFNErr.
Proof.
  destruct (retry_after_failed_write_is_refused sampleHeaders 1 target longRef
              dskFulErr mDiskFull) as (H1 & H2 & _).
  - discriminate.
  - reflexivity.
  - vm_compute. split; [reflexivity|discriminate].
  - reflexivity.
  - intros f Hf. vm_compute in Hf. now injection Hf as <-.
  - reflexivity.
  - discriminate.
  - split; assumption.
Defined.

(** X17. On the manual path a target that is locked or open makes the
    whole function fail with the writer's [dupFNErr]: the atom is built
    and disposed again, the files are as they were and so is the heap. *)
Theorem blocked_target_fails_manual_path (hdr : Headers) (theDataRef : Handle)
    (tag : OSType) (spec : FSSpec) (bytes : list byte) (f : File)
    (m m1 : Machine) (v : Z) :
  Gestalt gestaltQuickTime 0 m = ((noErr, v), m1) ->
  (v / 2 ^ 16) mod 2 ^ 16 < 0x0400 ->
  contents (world m) theDataRef = Some bytes ->
  28 + Z.of_nat (length bytes) <= maxSize ->
  (forall c, inject m c = None) ->
  files (world m) !! spec = Some f ->
  busy (world m) spec = true \/ flocked f = true ->
  let r := QTShortCut_CreateShortcutMovieFile hdr theDataRef tag spec m in
  fst r = dupFNErr
  /\ files (world (snd r)) = files (world m)
  /\ heap (world (snd r)) = heap (world m).
Proof.
  intros HG Hold Hc Hn Hq Hf Hblk r. subst r.
  assert (Hheap : heap (world (snd (QTShortCut_CreateShortcutMovieFile hdr theDataRef
                                      tag spec m))) = heap (world m)).
  { rewrite (after_query hdr theDataRef tag spec m m1 v HG Hold).
    destruct (gestalt_ok _ _ _ _ HG) as (Hw & _). rewrite <- Hw.
    now apply (restore_manual hdr (heap (world m1))). }
  split; [|split; [|exact Hheap]];
    rewrite (after_query hdr theDataRef tag spec m m1 v HG Hold);
    destruct (gestalt_ok _ _ _ _ HG) as (Hw & Hi & _); rewrite <- Hw in *;
    unfold manual_branch; rewrite bind_run;
    pose proof (build_spec hdr theDataRef tag noErr bytes m1 Hc ltac:(lia)) as Hb;
    (destruct (build_movie_atom hdr theDataRef tag noErr m1) as [[e p h | p h] m2];
     cbn [fst snd build_post] in *;
     [ exfalso; destruct Hb as [(c & e' & _ & Hi' & _) | Hb]; [|lia];
       rewrite Hi, Hq in Hi'; discriminate | ]);
    destruct Hb as (Hbuf & _ & _ & _ & _ & Hh & _ & Hfiles & Hfcbs & Hinj);
    rewrite bind_run;
    (erewrite blocked_run;
     [ | exact Hh | exact Hbuf | rewrite length_shortcut_layout; lia
       | intros c; rewrite Hinj, Hi; apply Hq
       | rewrite Hfiles; exact Hf
       | rewrite (busy_same_fcbs _ _ _ Hfcbs);
         destruct Hblk as [-> | ->]; [reflexivity | apply orb_true_r] ]);
    cbn [fst snd].
  - apply bail_result.
  - match goal with |- context [bail p h dupFNErr ?M] =>
      destruct (heap_only_fields _ M (heap_only_bail p h dupFNErr)) as (-> & _) end.
    cbn [world files set_heap]. exact Hfiles.
Qed.

Lemma blocked_target_fails_manual_path_witness :
  let r := QTShortCut_CreateShortcutMovieFile sampleHeaders 1 url target mLocked in
  fst r = dupFNErr /\ files (world (snd r)) = files (world mLocked).
Proof.
  destruct (blocked_target_fails_manual_path sampleHeaders 1 url target longRef
              lockedFile mLocked (snd (Gestalt gestaltQuickTime 0 mLocked)) qt3)
    as (H1 & H2 & _).
  - reflexivity.
  - vm_compute. reflexivity.
  - reflexivity.
  - vm_compute. discriminate.
  - reflexivity.
  - reflexivity.
  - right. reflexivity.
  - split; assumption.
Defined.
